(** * Hiyring AI interview service: transcript codec, collaborator-output
      parser, turn evaluator, scorecard aggregator and the answer endpoint.

    Shallow embedding of [ai_service/main.py], [ai_service/chains.py],
    [ai_service/session_manager.py] and [ai_service/config.py].

    Conventions.
    - A Python [str] is the list of its code points ([list N]); [py "..."]
      turns an ASCII literal of the source into that form.
    - A function of the source that can raise returns [result]; effectful
      functions run in the monad [M] defined further down.
    - Names follow the source. *)

From Stdlib Require Import ZArith NArith Lia Ascii String List Bool.
From Stdlib Require Import Floats.SpecFloat.
From stdpp Require Import base tactics option list gmap.
Import ListNotations.

Set Warnings "-register-all".
Set Default Proof Using "Type".

(* ================================================================== *)
(** * Part I. Definitions                                              *)
(* ================================================================== *)

(** ** Python strings *)

Module PyStr.

Abbreviation str := (list N).

(** An ASCII literal of the source as a [str]. *)
Definition py (s : string) : str := N_of_ascii <$> list_ascii_of_string s.

(** A JSON literal of this development, written with an apostrophe
    wherever the text has a double quote. *)
Definition pj (s : string) : str :=
  (fun c => if (c =? 0x27)%N then 0x22%N else c) <$> py s.

(** The line separator ["\n"]. *)
Definition nl : N := 10%N.

(** [str.isspace] on one code point: the set CPython's
    [Py_UNICODE_ISSPACE] tests, which is also what [str.strip()] with no
    argument and the regex class [\s] use. *)
Definition isspace (c : N) : bool :=
  ((0x09 <=? c) && (c <=? 0x0D) || (0x1C <=? c) && (c <=? 0x20)
   || (c =? 0x85) || (c =? 0xA0) || (c =? 0x1680)
   || (0x2000 <=? c) && (c <=? 0x200A)
   || (c =? 0x2028) || (c =? 0x2029) || (c =? 0x202F)
   || (c =? 0x205F) || (c =? 0x3000))%N.

(** [s.lstrip()], [s.rstrip()], [s.strip()]. *)
Fixpoint lstrip (s : str) : str :=
  match s with
  | [] => []
  | c :: r => if isspace c then lstrip r else s
  end.

Definition rstrip (s : str) : str := rev (lstrip (rev s)).

Definition strip (s : str) : str := rstrip (lstrip s).

(** [s.split(sep)] for a one-character separator: the pieces between
    occurrences of [sep], at least one piece, empty pieces kept. *)
Fixpoint split (sep : N) (s : str) : list str :=
  match s with
  | [] => [[]]
  | c :: r =>
      if (c =? sep)%N then [] :: split sep r
      else match split sep r with
           | l :: ls => (c :: l) :: ls
           | [] => [[c]]
           end
  end.

(** [s.startswith(p)]. *)
Fixpoint startswith (s p : str) {struct p} : bool :=
  match p, s with
  | [], _ => true
  | _ :: _, [] => false
  | a :: p', b :: s' => (a =? b)%N && startswith s' p'
  end.

(** [s.replace(old, new)] for a non-empty [old] (every call site passes
    a non-empty literal): all occurrences, found left to right without
    overlap.  [skip] counts the characters of the occurrence just
    matched that are still to be passed over. *)
Fixpoint replace_from (old new : str) (skip : nat) (s : str) : str :=
  match s with
  | [] => []
  | c :: r =>
      match skip with
      | S k => replace_from old new k r
      | O =>
          if startswith s old
          then new ++ replace_from old new (length old - 1) r
          else c :: replace_from old new 0 r
      end
  end.

Definition replace (old new s : str) : str := replace_from old new 0 s.

(** [sub in s]. *)
Fixpoint contains (sub s : str) : bool :=
  match s with
  | [] => startswith [] sub
  | _ :: r => startswith s sub || contains sub r
  end.

(** [str.lower()] on one code point.  Exact on U+0000..U+00FF and on the
    five code points above that range whose lower-case form reaches it;
    every other code point above U+00FF is kept (Python maps it to code
    points above U+00FF again, so tests against ASCII words are not
    affected). *)
Definition lower_char (c : N) : str :=
  if ((0x41 <=? c) && (c <=? 0x5A))%N then [(c + 32)%N]
  else if ((0xC0 <=? c) && (c <=? 0xDE) && negb (c =? 0xD7))%N then [(c + 32)%N]
  else if (c =? 0x130)%N then [0x69%N; 0x307%N]
  else if (c =? 0x178)%N then [0xFF%N]
  else if (c =? 0x1E9E)%N then [0xDF%N]
  else if (c =? 0x212A)%N then [0x6B%N]
  else if (c =? 0x212B)%N then [0xE5%N]
  else [c].

Definition lower (s : str) : str := flat_map lower_char s.

End PyStr.
Export PyStr.

(** ** main.py: the transcript *)

(** A reconstructed turn: the dict [{"type": ..., "content": ...}] that
    [_build_history_from_transcript] appends. *)
Inductive turn_type := question | answer.

Record turn := Turn { type : turn_type; content : str }.

#[global] Instance turn_type_eq_dec : EqDecision turn_type.
Proof. solve_decision. Defined.

#[global] Instance turn_eq_dec : EqDecision turn.
Proof. solve_decision. Defined.

Definition AI_TAG : str := py "[AI] ".
Definition CANDIDATE_TAG : str := py "[CANDIDATE] ".
Definition QID_TAG : str := py "[QID] ".

(** [_build_history_from_transcript], lines 374-392.  The argument is
    [None] when the stored transcript is missing. *)
Definition history_of_line (line : str) : list turn :=
  if startswith line AI_TAG then
    [Turn question (replace AI_TAG [] line)]
  else if startswith line CANDIDATE_TAG then
    [Turn answer (replace CANDIDATE_TAG [] line)]
  else [].

Definition _build_history_from_transcript (transcript : option str) : list turn :=
  match transcript with
  | None | Some [] => []
  | Some t => flat_map history_of_line (split nl (strip t))
  end.

(** [_extract_last_question_id], lines 395-402. *)
Fixpoint first_qid (lines : list str) : option str :=
  match lines with
  | [] => None
  | line :: rest =>
      if startswith line QID_TAG then Some (strip (replace QID_TAG [] line))
      else first_qid rest
  end.

Definition _extract_last_question_id (transcript : option str) : option str :=
  match transcript with
  | None | Some [] => None
  | Some t => first_qid (rev (split nl (strip t)))
  end.

(** The question being answered, [handle_answer] lines 237-244. *)
Fixpoint first_ai_line (lines : list str) : str :=
  match lines with
  | [] => []
  | line :: rest =>
      if startswith line (py "[AI]") then replace AI_TAG [] line
      else first_ai_line rest
  end.

Definition last_question_of (transcript : option str) : str :=
  match transcript with
  | None | Some [] => []
  | Some t => first_ai_line (rev (split nl (strip t)))
  end.

(** The lines the service writes for a turn: [f"[AI] {ai_question}\n"]
    (lines 154 and 268) and [f"[CANDIDATE] {req.answer}\n"] (line 260). *)
Definition tag_of (ty : turn_type) : str :=
  match ty with question => AI_TAG | answer => CANDIDATE_TAG end.

Definition transcript_line (t : turn) : str := tag_of (type t) ++ content t.

Definition append_turn (transcript : str) (t : turn) : str :=
  transcript ++ transcript_line t ++ [nl].

Definition encode (turns : list turn) : str := fold_left append_turn turns [].

(** ** session_manager.py: recommendation codes *)

(** [_map_recommendation], lines 237-247. *)
Definition _map_recommendation (rec : str) : str :=
  let rec_lower := strip (lower rec) in
  if contains (py "strong") rec_lower then py "strong_hire"
  else if contains (py "moderate") rec_lower || contains (py "fit") rec_lower
  then py "hire"
  else if contains (py "needs") rec_lower || contains (py "improvement") rec_lower
  then py "maybe"
  else py "maybe".

(** ** Python exceptions and results *)

Inductive exn :=
  | JSONDecodeError
  | TypeError
  | AttributeError
  | ValueError
  | OverflowError
  | ZeroDivisionError
  | CollaboratorError              (* the language-model call failed *)
  | HTTPException (status_code : Z).

Inductive result (A : Type) :=
  | Ok (a : A)
  | Raise (e : exn).
Arguments Ok {A} a.
Arguments Raise {A} e.

(** ** Python floats (binary64) *)

Module PyFloat.

Abbreviation float := spec_float.

Definition prec : Z := 53.
Definition emax : Z := 1024.

(** The double nearest to [n / d] (ties to even), for [0 <= n] and
    [0 < d], with sign [neg]; infinite when out of range.  The quotient
    is taken with at least 65 significant bits and one sticky bit below
    them, then rounded once. *)
Definition of_ratio (neg : bool) (n d : Z) : float :=
  if (n =? 0)%Z then S754_zero neg
  else
    let s := Z.max 0 (Z.log2 d - Z.log2 n + 66) in
    let q := (n * 2 ^ s / d)%Z in
    let sticky := if ((n * 2 ^ s) mod d =? 0)%Z then 0%Z else 1%Z in
    let m := (2 * q + sticky)%Z in
    binary_normalize prec emax (if neg then - m else m)%Z (- s - 1) false.

Definition is_finite (x : float) : bool :=
  match x with S754_zero _ | S754_finite _ _ _ => true | _ => false end.

(** [float(n)] for an int. *)
Definition of_int (n : Z) : result float :=
  let x := of_ratio (n <? 0)%Z (Z.abs n) 1 in
  if is_finite x then Ok x else Raise OverflowError.

(** [a / b] on ints: the correctly rounded quotient. *)
Definition int_truediv (a b : Z) : result float :=
  if (b =? 0)%Z then Raise ZeroDivisionError
  else
    let x := of_ratio (xorb (a <? 0)%Z (b <? 0)%Z) (Z.abs a) (Z.abs b) in
    if is_finite x then Ok x else Raise OverflowError.

(** [x / n] and [x * n] for a float and an int. *)
Definition truediv_int (x : float) (n : Z) : result float :=
  match of_int n with
  | Raise e => Raise e
  | Ok y => if (n =? 0)%Z then Raise ZeroDivisionError else Ok (SFdiv prec emax x y)
  end.

Definition mul_int (x : float) (n : Z) : result float :=
  match of_int n with
  | Raise e => Raise e
  | Ok y => Ok (SFmul prec emax x y)
  end.

(** The integer nearest to [n / d], ties to even ([0 <= n], [0 < d]). *)
Definition round_half_even (n d : Z) : Z :=
  let q := (n / d)%Z in
  let r := (n mod d)%Z in
  if (2 * r <? d)%Z then q
  else if (d <? 2 * r)%Z then (q + 1)%Z
  else if Z.even q then q else (q + 1)%Z.

(** [round(x, 1)]: the exact value of [x] is rounded to one decimal
    (ties to even) and the decimal is converted back to a double. *)
Definition round1 (x : float) : float :=
  match x with
  | S754_finite s m e =>
      let tenths :=
        if (0 <=? e)%Z then round_half_even (Zpos m * 2 ^ e * 10) 1
        else round_half_even (Zpos m * 10) (2 ^ (- e)) in
      of_ratio s tenths 10
  | _ => x
  end.

(** [int(x)]: truncation towards zero. *)
Definition to_int (x : float) : result Z :=
  match x with
  | S754_zero _ => Ok 0%Z
  | S754_finite s m e =>
      let a := if (0 <=? e)%Z then (Zpos m * 2 ^ e)%Z else (Zpos m / 2 ^ (- e))%Z in
      Ok (if s then - a else a)%Z
  | S754_infinity _ => Raise OverflowError
  | S754_nan => Raise ValueError
  end.

(** [bool(x)]. *)
Definition truthy (x : float) : bool :=
  match x with S754_zero _ => false | _ => true end.

End PyFloat.

(** ** JSON values, as [json.loads] builds them *)

Inductive json :=
  | JNull
  | JBool (b : bool)
  | JInt (n : Z)
  | JFloat (x : PyFloat.float)
  | JStr (s : str)
  | JArr (l : list json)
  | JObj (d : gmap str json).

(** Python truthiness of a decoded value. *)
Definition truthy (v : json) : bool :=
  match v with
  | JNull => false
  | JBool b => b
  | JInt n => negb (n =? 0)%Z
  | JFloat x => PyFloat.truthy x
  | JStr s => match s with [] => false | _ => true end
  | JArr l => match l with [] => false | _ => true end
  | JObj d => negb (bool_decide (d = ∅))
  end.

(** ** json.loads (the C scanner of CPython, strict mode)

    The integer digit limit and the recursion limit of the interpreter
    are resource bounds and are left out. *)

Module Json.

Definition is_ch (a : ascii) (c : N) : bool := (c =? N_of_ascii a)%N.

Definition is_quote (c : N) : bool := (c =? 0x22)%N.

Definition is_backslash (c : N) : bool := (c =? 0x5C)%N.

Definition is_digit (c : N) : bool := ((0x30 <=? c) && (c <=? 0x39))%N.

Definition digit_val (c : N) : Z := Z.of_N (c - 0x30).

Definition hex_val (c : N) : option N :=
  if is_digit c then Some (c - 0x30)%N
  else if ((0x61 <=? c) && (c <=? 0x66))%N then Some (c - 0x61 + 10)%N
  else if ((0x41 <=? c) && (c <=? 0x46))%N then Some (c - 0x41 + 10)%N
  else None.

Definition hex4 (a b c d : N) : option N :=
  match hex_val a, hex_val b, hex_val c, hex_val d with
  | Some x, Some y, Some z, Some w => Some (((x * 16 + y) * 16 + z) * 16 + w)%N
  | _, _, _, _ => None
  end.

(** JSON white space: space, tab, line feed, carriage return. *)
Definition is_ws (c : N) : bool := is_ch " " c || (c =? 9)%N || (c =? 10)%N || (c =? 13)%N.

Fixpoint skip_ws (s : str) : str :=
  match s with
  | c :: r => if is_ws c then skip_ws r else s
  | [] => []
  end.

(** Outcome of a scanning function: a value with the text left over, a
    decoding error, or exhausted fuel. *)
Inductive pres (A : Type) :=
  | POk (a : A) (rest : str)
  | PErr
  | PFuel.
Arguments POk {A} a rest.
Arguments PErr {A}.
Arguments PFuel {A}.

Definition pres_map {A B} (f : A -> B) (p : pres A) : pres B :=
  match p with POk a rest => POk (f a) rest | PErr => PErr | PFuel => PFuel end.

(** The escape after a backslash, other than [\u]. *)
Definition simple_escape (c : N) : option N :=
  if is_quote c then Some 0x22%N
  else if is_backslash c then Some 0x5C%N
  else if is_ch "/" c then Some 0x2F%N
  else if is_ch "b" c then Some 0x08%N
  else if is_ch "f" c then Some 0x0C%N
  else if is_ch "n" c then Some 0x0A%N
  else if is_ch "r" c then Some 0x0D%N
  else if is_ch "t" c then Some 0x09%N
  else None.

Definition is_high_surrogate (c : N) : bool := ((0xD800 <=? c) && (c <=? 0xDBFF))%N.
Definition is_low_surrogate (c : N) : bool := ((0xDC00 <=? c) && (c <=? 0xDFFF))%N.
Definition join_surrogates (hi lo : N) : N :=
  (0x10000 + ((hi - 0xD800) * 0x400 + (lo - 0xDC00)))%N.

(** [scanstring]: the text after an opening quote, up to the closing
    one.  [acc] holds the decoded characters, latest first. *)
Fixpoint scanstring (s : str) (acc : str) : option (str * str) :=
  match s with
  | [] => None
  | c :: r =>
      if is_quote c then Some (rev acc, r)
      else if is_backslash c then
        match r with
        | [] => None
        | e :: r1 =>
            if is_ch "u" e then
              match r1 with
              | h1 :: h2 :: h3 :: h4 :: r2 =>
                  match hex4 h1 h2 h3 h4 with
                  | None => None
                  | Some u =>
                      match r2 with
                      | b :: u' :: g1 :: g2 :: g3 :: g4 :: (_ :: _) as r3 =>
                          if is_high_surrogate u && is_backslash b && is_ch "u" u' then
                            match hex4 g1 g2 g3 g4 with
                            | None => None
                            | Some lo =>
                                if is_low_surrogate lo
                                then scanstring r3 (join_surrogates u lo :: acc)
                                else scanstring r2 (u :: acc)
                            end
                          else scanstring r2 (u :: acc)
                      | _ => scanstring r2 (u :: acc)
                      end
                  end
              | _ => None
              end
            else
              match simple_escape e with
              | Some d => scanstring r1 (d :: acc)
              | None => None
              end
        end
      else if (c <? 0x20)%N then None
      else scanstring r (c :: acc)
  end.

(** Leading digits of a text, as a number, with their count. *)
Fixpoint take_digits (s : str) (acc : Z) (count : Z) : Z * Z * str :=
  match s with
  | c :: r => if is_digit c then take_digits r (acc * 10 + digit_val c) (count + 1)
              else (acc, count, s)
  | [] => (acc, count, [])
  end.

(** The integer part: a single 0, or a non-zero digit and more digits. *)
Definition int_part (s : str) : option (Z * str) :=
  match s with
  | c :: r =>
      if is_ch "0" c then Some (0%Z, r)
      else if is_digit c then let '(n, _, rest) := take_digits s 0 0 in Some (n, rest)
      else None
  | [] => None
  end.

(** The fraction: a dot and at least one digit; otherwise nothing is
    taken.  Returns the digits as a number and their count. *)
Definition frac_part (s : str) : option (Z * Z * str) :=
  match s with
  | c :: (d :: _) as r => if is_ch "." c && is_digit d then Some (take_digits r 0 0) else None
  | _ => None
  end.

(** The exponent: e or E, an optional sign and at least one digit;
    otherwise nothing is taken. *)
Definition exp_part (s : str) : option (Z * str) :=
  match s with
  | c :: r =>
      if is_ch "e" c || is_ch "E" c then
        let '(neg, r1) :=
          match r with
          | sg :: (_ :: _) as r' =>
              if is_ch "-" sg then (true, r') else if is_ch "+" sg then (false, r') else (false, r)
          | _ => (false, r)
          end in
        let '(n, count, rest) := take_digits r1 0 0 in
        if (count =? 0)%Z then None else Some ((if neg then - n else n)%Z, rest)
      else None
  | [] => None
  end.

(** The double a decimal numeral denotes: [mant * 10 ^ e10]. *)
Definition float_of_decimal (neg : bool) (mant e10 : Z) : PyFloat.float :=
  if (0 <=? e10)%Z then PyFloat.of_ratio neg (mant * 10 ^ e10) 1
  else PyFloat.of_ratio neg mant (10 ^ (- e10)).

(** [_match_number]. *)
Definition match_number (s : str) : pres json :=
  let '(neg, s1) :=
    match s with
    | c :: r => if is_ch "-" c then (true, r) else (false, s)
    | [] => (false, s)
    end in
  match int_part s1 with
  | None => PErr
  | Some (n, s2) =>
      let '(fr, s3) :=
        match frac_part s2 with
        | Some (f, k, rest) => (Some (f, k), rest)
        | None => (None, s2)
        end in
      let '(ex, s4) :=
        match exp_part s3 with
        | Some (e, rest) => (Some e, rest)
        | None => (None, s3)
        end in
      match fr, ex with
      | None, None => POk (JInt (if neg then - n else n)) s4
      | _, _ =>
          let '(f, k) := default (0%Z, 0%Z) fr in
          let e := default 0%Z ex in
          POk (JFloat (float_of_decimal neg (n * 10 ^ k + f) (e - k))) s4
      end
  end.

(** [scan_once], [_parse_array] and [_parse_object]. *)
Fixpoint scan_once (fuel : nat) (s : str) : pres json :=
  match fuel with
  | O => PFuel
  | S fuel' =>
      match s with
      | [] => PErr
      | c :: r =>
          if is_quote c then
            match scanstring r [] with
            | Some (k, rest) => POk (JStr k) rest
            | None => PErr
            end
          else if is_ch "{" c then
            match skip_ws r with
            | c2 :: r2 =>
                if is_ch "}" c2 then POk (JObj ∅) r2
                else pres_map JObj (parse_members fuel' (c2 :: r2) ∅)
            | [] => PErr
            end
          else if is_ch "[" c then
            match skip_ws r with
            | c2 :: r2 =>
                if is_ch "]" c2 then POk (JArr []) r2
                else pres_map JArr (parse_items fuel' (c2 :: r2) [])
            | [] => PErr
            end
          else if startswith s (py "null") then POk JNull (drop 4 s)
          else if startswith s (py "true") then POk (JBool true) (drop 4 s)
          else if startswith s (py "false") then POk (JBool false) (drop 5 s)
          else if startswith s (py "NaN") then POk (JFloat S754_nan) (drop 3 s)
          else if startswith s (py "Infinity") then POk (JFloat (S754_infinity false)) (drop 8 s)
          else if startswith s (py "-Infinity") then POk (JFloat (S754_infinity true)) (drop 9 s)
          else match_number s
      end
  end
with parse_items (fuel : nat) (s : str) (acc : list json) : pres (list json) :=
  match fuel with
  | O => PFuel
  | S fuel' =>
      match scan_once fuel' s with
      | POk v rest =>
          match skip_ws rest with
          | c :: r =>
              if is_ch "]" c then POk (rev (v :: acc)) r
              else if is_ch "," c then parse_items fuel' (skip_ws r) (v :: acc)
              else PErr
          | [] => PErr
          end
      | PErr => PErr
      | PFuel => PFuel
      end
  end
with parse_members (fuel : nat) (s : str) (acc : gmap str json) : pres (gmap str json) :=
  match fuel with
  | O => PFuel
  | S fuel' =>
      match s with
      | q :: r =>
          if is_quote q then
            match scanstring r [] with
            | Some (key, rest) =>
                match skip_ws rest with
                | colon :: r2 =>
                    if is_ch ":" colon then
                      match scan_once fuel' (skip_ws r2) with
                      | POk v rest2 =>
                          match skip_ws rest2 with
                          | c :: r3 =>
                              if is_ch "}" c then POk (<[key := v]> acc) r3
                              else if is_ch "," c
                              then parse_members fuel' (skip_ws r3) (<[key := v]> acc)
                              else PErr
                          | [] => PErr
                          end
                      | PErr => PErr
                      | PFuel => PFuel
                      end
                    else PErr
                | [] => PErr
                end
            | None => PErr
            end
          else PErr
      | [] => PErr
      end
  end.

(** [json.loads]: one value with white space around it and nothing
    else; [None] stands for [JSONDecodeError]. *)
Definition loads (s : str) : option json :=
  match scan_once (2 * length s + 1) (skip_ws s) with
  | POk v rest => match skip_ws rest with [] => Some v | _ => None end
  | _ => None
  end.

End Json.

(** ** chains.py: cleaning and parsing the collaborator's output *)

(** [re.sub(r'^```json\s*', '', s)] and [re.sub(r'^```\s*', '', s)]:
    the pattern can only match at the start of the text. *)
Definition sub_fence_json (s : str) : str :=
  if startswith s (py "```json") then lstrip (drop 7 s) else s.

Definition sub_fence_open (s : str) : str :=
  if startswith s (py "```") then lstrip (drop 3 s) else s.

(** [re.sub(r'\s*```$', '', s)]: [$] matches at the end of the text and
    before a newline that ends it, so the fence is removed, with the
    white space before it, when the text ends with the fence or with
    the fence and one newline (which then stays). *)
Definition sub_fence_close (s : str) : str :=
  let r := rev s in
  if startswith r (py "```") then rev (lstrip (drop 3 r))
  else if startswith r (nl :: py "```") then rev (lstrip (drop 4 r)) ++ [nl]
  else s.

(** [re.search(r'\{[\s\S]*\}', s)]: from the first opening brace to the
    last closing brace after it. *)
Fixpoint from_first (P : N -> bool) (s : str) : str :=
  match s with
  | [] => []
  | c :: r => if P c then s else from_first P r
  end.

Definition brace_region (s : str) : option str :=
  match from_first (Json.is_ch "}") (rev (from_first (Json.is_ch "{") s)) with
  | [] => None
  | r => Some (rev r)
  end.

(** [_clean_json_response], lines 26-40. *)
Definition _clean_json_response (text : str) : result json :=
  let cleaned := strip text in
  let cleaned := sub_fence_json cleaned in
  let cleaned := sub_fence_open cleaned in
  let cleaned := sub_fence_close cleaned in
  let cleaned := strip cleaned in
  match Json.loads cleaned with
  | Some v => Ok v
  | None =>
      match brace_region cleaned with
      | Some group =>
          match Json.loads group with
          | Some v => Ok v
          | None => Raise JSONDecodeError
          end
      | None => Ok (JObj ∅)
      end
  end.

(** ** The collaborators and the store *)

(** The text of a prompt is a fixed template filled with arguments; a
    message content is either free text or a template with its
    arguments.  The interviewer prompt receives [history[-10:]]. *)
Inductive content_t :=
  | Text (s : str)
  | RESUME_PARSER_SYSTEM
  | RESUME_PARSER_PROMPT (resume_text : str)
  | INTERVIEWER_SYSTEM
  | INTERVIEWER_PROMPT (resume job_description phase : str)
      (history : list turn) (stop_interview : bool)
  | EVALUATOR_SYSTEM
  | EVALUATOR_PROMPT (question answer : str)
  | SUMMARY_SYSTEM
  | SUMMARY_PROMPT (resume job_description : str) (history : list turn)
      (start_time current_time : Z).

Inductive message :=
  | SystemMessage (c : content_t)
  | HumanMessage (c : content_t)
  | AIMessage (c : content_t).

(** One call [_get_llm(temperature).ainvoke(messages)]; the temperature
    is in tenths. *)
Record llm_request := LlmRequest {
  temperature : Z;
  messages : list message
}.

(** Rows of [interview_sessions], [interview_answers] and
    [interview_questions], with the columns this service reads or the
    properties below speak about.  [started_at] holds the instant the
    stored ISO text denotes, in milliseconds.  The score columns of an
    answer are derived from [evaluation]; the row keeps the evaluation
    itself. *)
Record session_row := SessionRow {
  status : str;
  started_at : option Z;
  full_transcript : option str;
  template_id : option str;
  total_duration_seconds : option Z;
  overall_score : option json;
  technical_score : option json;
  communication_score : option json;
  behavioral_score : option json;
  presentation_score : option json;
  ai_recommendation : option str;
  strengths : option json;
  improvement_areas : option json
}.

Record answer_row := AnswerRow {
  answer_session_id : str;
  question_text_snapshot : str;
  answer_transcript : str;
  evaluation : json;
  question_id : option str
}.

Record question_row := QuestionRow {
  question_row_id : str;
  question_text : json;
  question_template_id : option str
}.

(** The world a request runs in: the configuration and what the
    collaborators will answer (fixed), and what the request changes. *)
Record world := World {
  (** the value of the environment variable MAX_INTERVIEW_DURATION_MS,
      when it is set *)
  env_max_duration : option Z;
  (** the text of the k-th completion, [None] when the call fails *)
  llm : nat -> llm_request -> option str;
  (** the k-th reading of [int(time.time() * 1000)] *)
  time_ms : nat -> Z;
  (** the identifier the store gives the k-th inserted question *)
  new_id : nat -> str;
  (** [str(v)] as an f-string renders a value that is not text *)
  py_str : json -> str;
  llm_calls : list llm_request;
  clock_reads : nat;
  sessions : gmap str session_row;
  answers : list answer_row;
  questions : list question_row
}.

Definition set_llm_calls (f : list llm_request -> list llm_request) (w : world) : world :=
  World (env_max_duration w) (llm w) (time_ms w) (new_id w) (py_str w)
        (f (llm_calls w)) (clock_reads w) (sessions w) (answers w) (questions w).

Definition set_clock_reads (f : nat -> nat) (w : world) : world :=
  World (env_max_duration w) (llm w) (time_ms w) (new_id w) (py_str w)
        (llm_calls w) (f (clock_reads w)) (sessions w) (answers w) (questions w).

Definition set_sessions (f : gmap str session_row -> gmap str session_row) (w : world) : world :=
  World (env_max_duration w) (llm w) (time_ms w) (new_id w) (py_str w)
        (llm_calls w) (clock_reads w) (f (sessions w)) (answers w) (questions w).

Definition set_answers (f : list answer_row -> list answer_row) (w : world) : world :=
  World (env_max_duration w) (llm w) (time_ms w) (new_id w) (py_str w)
        (llm_calls w) (clock_reads w) (sessions w) (f (answers w)) (questions w).

Definition set_questions (f : list question_row -> list question_row) (w : world) : world :=
  World (env_max_duration w) (llm w) (time_ms w) (new_id w) (py_str w)
        (llm_calls w) (clock_reads w) (sessions w) (answers w) (f (questions w)).

(** State and exceptions: a computation returns a value or raises, and
    leaves a world either way. *)
Definition M (A : Type) : Type := world -> result A * world.

Definition ret {A} (a : A) : M A := fun w => (Ok a, w).

Definition raise {A} (e : exn) : M A := fun w => (Raise e, w).

Definition bind {A B} (m : M A) (k : A -> M B) : M B :=
  fun w => match m w with
           | (Ok a, w') => k a w'
           | (Raise e, w') => (Raise e, w')
           end.

Definition lift {A} (r : result A) : M A := fun w => (r, w).

Notation "'let*' x ':=' m 'in' k" := (bind m (fun x => k))
  (at level 10, x name, m at level 100, k at level 200).

(** [await llm.ainvoke(messages)] and [.content] of the response. *)
Definition ainvoke (req : llm_request) : M str :=
  fun w =>
    let w' := set_llm_calls (fun calls => calls ++ [req]) w in
    match llm w (length (llm_calls w)) req with
    | Some text => (Ok text, w')
    | None => (Raise CollaboratorError, w')
    end.

(** [int(time.time() * 1000)]. *)
Definition now_ms : M Z :=
  fun w => (Ok (time_ms w (clock_reads w)), set_clock_reads S w).

(** ** Dynamic operations on decoded values *)

(** [k in v] for a text key. *)
Definition py_in (k : str) (v : json) : result bool :=
  match v with
  | JObj d => Ok (bool_decide (is_Some (d !! k)))
  | JArr l => Ok (existsb (fun e => match e with JStr s => bool_decide (s = k) | _ => false end) l)
  | JStr s => Ok (contains k s)
  | _ => Raise TypeError
  end.

(** [v[k] = x] for a text key. *)
Definition setitem (k : str) (x : json) (v : json) : result json :=
  match v with
  | JObj d => Ok (JObj (<[k := x]> d))
  | _ => Raise TypeError
  end.

(** [v.get(k, default)]. *)
Definition dict_get (k : str) (dflt : json) (v : json) : result json :=
  match v with
  | JObj d => Ok (default dflt (d !! k))
  | _ => Raise AttributeError
  end.

(** [for k, v in defaults.items(): if k not in result: result[k] = v]. *)
Fixpoint fill_defaults (defaults : list (str * json)) (res : json) : result json :=
  match defaults with
  | [] => Ok res
  | (k, v) :: rest =>
      match py_in k res with
      | Raise e => Raise e
      | Ok true => fill_defaults rest res
      | Ok false =>
          match setitem k v res with
          | Raise e => Raise e
          | Ok res' => fill_defaults rest res'
          end
      end
  end.

(** ** chains.py: the turn evaluator *)

Definition dimensions : list str :=
  [py "relevance"; py "depth"; py "clarity"; py "communication";
   py "problem_solving"; py "practical_experience"].

Definition no_answer_evaluation : json :=
  JObj (list_to_map
    [(py "relevance", JInt 0); (py "depth", JInt 0); (py "clarity", JInt 0);
     (py "communication", JInt 0); (py "problem_solving", JInt 0);
     (py "practical_experience", JInt 0);
     (py "short_summary", JStr (py "No answer provided"))]).

Definition evaluation_defaults : list (str * json) :=
  [(py "relevance", JInt 5); (py "depth", JInt 5); (py "clarity", JInt 5);
   (py "communication", JInt 5); (py "problem_solving", JInt 5);
   (py "practical_experience", JInt 5);
   (py "short_summary", JStr (py "Unable to evaluate"))].

(** [not answer or not answer.strip()]. *)
Definition is_blank (s : str) : bool :=
  match s with
  | [] => true
  | _ => match strip s with [] => true | _ => false end
  end.

(** The call of [evaluate_answer]: [_get_llm(temperature=0.2)] on the
    system text and the filled prompt. *)
Definition evaluator_request (question answer : str) : llm_request :=
  LlmRequest 2 [SystemMessage EVALUATOR_SYSTEM;
                HumanMessage (EVALUATOR_PROMPT question answer)].

(** [evaluate_answer], lines 263-296. *)
Definition evaluate_answer (question answer : str) : M json :=
  if is_blank answer then ret no_answer_evaluation
  else
    let* response := ainvoke (evaluator_request question answer) in
    let* res := lift (_clean_json_response response) in
    lift (fill_defaults evaluation_defaults res).

(** ** chains.py: the scorecard aggregator *)

Definition summary_defaults : list (str * json) :=
  [(py "strengths", JArr []);
   (py "improvement_areas", JArr []);
   (py "skill_wise_scores",
      JObj (list_to_map
        [(py "communication", JInt 5); (py "problem_solving", JInt 5);
         (py "role_specific_knowledge", JInt 5); (py "practical_experience", JInt 5);
         (py "clarity", JInt 5); (py "confidence", JInt 5)]));
   (py "overall_score", JInt 5);
   (py "time_taken_minutes", JInt 0);
   (py "resume_match_percentage", JInt 50);
   (py "final_recommendation", JStr (py "Needs Improvement"));
   (py "expected_response_time", JStr (py "Within 3-5 business days"))].

(** [round(time_taken_ms / 1000 / 60, 1)]. *)
Definition minutes_taken (time_taken_ms : Z) : result PyFloat.float :=
  match PyFloat.int_truediv time_taken_ms 1000 with
  | Raise e => Raise e
  | Ok seconds =>
      match PyFloat.truediv_int seconds 60 with
      | Raise e => Raise e
      | Ok minutes => Ok (PyFloat.round1 minutes)
      end
  end.

(** The call of [generate_summary]: [_get_llm(temperature=0.3)]. *)
Definition summary_request (resume job_description : str) (history : list turn)
    (start_time current_time : Z) : llm_request :=
  LlmRequest 3 [SystemMessage SUMMARY_SYSTEM;
                HumanMessage (SUMMARY_PROMPT resume job_description history
                                start_time current_time)].

(** [generate_summary], lines 364-412. *)
Definition generate_summary (resume job_description : str) (history : list turn)
    (start_time : Z) : M json :=
  let* current_time := now_ms in
  let* response := ainvoke (summary_request resume job_description history
                              start_time current_time) in
  let* res := lift (_clean_json_response response) in
  let time_taken_ms := (current_time - start_time)%Z in
  let* minutes := lift (minutes_taken time_taken_ms) in
  let* res := lift (setitem (py "time_taken_minutes") (JFloat minutes) res) in
  lift (fill_defaults summary_defaults res).

(** ** config.py *)

(** [int(os.getenv("MAX_INTERVIEW_DURATION_MS", 5 * 60 * 1000))]. *)
Definition MAX_INTERVIEW_DURATION_MS (w : world) : Z :=
  default (5 * 60 * 1000)%Z (env_max_duration w).

(** ** session_manager.py: the store

    The store is taken to be reachable and to return the rows it
    inserts; [completed_at] and [answered_at] are left out. *)

(** [if x:] on an optional text. *)
Definition if_set (x : option str) : option str :=
  match x with Some (_ :: _) => x | _ => None end.

Definition get_session (session_id : str) : M (option session_row) :=
  fun w => (Ok (sessions w !! session_id), w).

Definition get_answers_for_session (session_id : str) : M (list answer_row) :=
  fun w => (Ok (filter (fun r => answer_session_id r = session_id) (answers w)), w).

Definition create_interview_question (question_text : json) (template_id : option str) : M str :=
  fun w =>
    let id := new_id w (length (questions w)) in
    (Ok id, set_questions (fun qs => qs ++ [QuestionRow id question_text (if_set template_id)]) w).

Definition with_transcript (t : str) (r : session_row) : session_row :=
  SessionRow (status r) (started_at r) (Some t) (template_id r)
    (total_duration_seconds r) (overall_score r) (technical_score r)
    (communication_score r) (behavioral_score r) (presentation_score r)
    (ai_recommendation r) (strengths r) (improvement_areas r).

Definition update_session_transcript (session_id transcript : str) : M unit :=
  fun w => (Ok tt, set_sessions (alter (with_transcript transcript) session_id) w).

(** [int(summary.get("time_taken_minutes", 0) * 60)].  Every caller
    passes the result of [generate_summary], where the value is a
    float; for text, [int] of the repeated text is given as an error. *)
Definition duration_seconds (minutes : json) : result Z :=
  match minutes with
  | JFloat x =>
      match PyFloat.mul_int x 60 with
      | Ok y => PyFloat.to_int y
      | Raise e => Raise e
      end
  | JInt n => Ok (n * 60)%Z
  | JBool b => Ok (if b then 60 else 0)%Z
  | JStr _ => Raise ValueError
  | _ => Raise TypeError
  end.

(** [_map_recommendation(v)] on a decoded value: only text has
    [lower]. *)
Definition recommendation_of (v : json) : result str :=
  match v with
  | JStr s => Ok (_map_recommendation s)
  | _ => Raise AttributeError
  end.

(** [complete_session], lines 209-234. *)
Definition complete_session (session_id : str) (summary : json) : M unit :=
  let* skill_scores := lift (dict_get (py "skill_wise_scores") (JObj ∅) summary) in
  let* minutes := lift (dict_get (py "time_taken_minutes") (JInt 0) summary) in
  let* seconds := lift (duration_seconds minutes) in
  let* overall := lift (dict_get (py "overall_score") (JInt 0) summary) in
  let* technical := lift (dict_get (py "role_specific_knowledge") (JInt 0) skill_scores) in
  let* communication := lift (dict_get (py "communication") (JInt 0) skill_scores) in
  let* behavioral := lift (dict_get (py "confidence") (JInt 0) skill_scores) in
  let* presentation := lift (dict_get (py "clarity") (JInt 0) skill_scores) in
  let* final := lift (dict_get (py "final_recommendation") (JStr []) summary) in
  let* recommendation := lift (recommendation_of final) in
  let* strong := lift (dict_get (py "strengths") (JArr []) summary) in
  let* weak := lift (dict_get (py "improvement_areas") (JArr []) summary) in
  fun w =>
    (Ok tt,
     set_sessions
       (alter (fun r =>
          SessionRow (py "completed") (started_at r) (full_transcript r) (template_id r)
            (Some seconds) (Some overall) (Some technical) (Some communication)
            (Some behavioral) (Some presentation) (Some recommendation)
            (Some strong) (Some weak))
          session_id) w).

(** A value [sum] can add: an int, a float or a bool. *)
Definition is_number (v : json) : bool :=
  match v with JInt _ | JFloat _ | JBool _ => true | _ => false end.

Fixpoint get_scores (ds : list str) (evaluation : json) : result (list json) :=
  match ds with
  | [] => Ok []
  | d :: rest =>
      match dict_get d (JInt 5) evaluation with
      | Raise e => Raise e
      | Ok v =>
          match get_scores rest evaluation with
          | Raise e => Raise e
          | Ok vs => Ok (v :: vs)
          end
      end
  end.

(** [store_answer], lines 254-293.  The three averages are not kept;
    taking them raises when a dimension is not a number (range errors
    of the float arithmetic are left out). *)
Definition store_answer (session_id question_text answer_text : str)
    (evaluation : json) (question_id : option str) : M unit :=
  let* scores := lift (get_scores dimensions evaluation) in
  if forallb is_number scores then
    fun w =>
      (Ok tt,
       set_answers (fun rows => rows ++
         [AnswerRow session_id question_text answer_text evaluation (if_set question_id)]) w)
  else raise TypeError.

(** ** chains.py: the conversation driver *)

(** [history[-10:]]. *)
Definition last10 {A} (l : list A) : list A := drop (length l - 10) l.

(** [run_interviewer], lines 181-212. *)
Definition interviewer_request (resume job_description phase : str)
    (history : list turn) (stop_interview : bool)
    (conversation_messages : list message) : llm_request :=
  LlmRequest 4
    ([SystemMessage INTERVIEWER_SYSTEM] ++ conversation_messages ++
     [HumanMessage (INTERVIEWER_PROMPT resume job_description phase
                      (last10 history) stop_interview)]).

Definition run_interviewer (resume job_description phase : str)
    (history : list turn) (stop_interview : bool)
    (conversation_messages : list message) : M json :=
  let* response := ainvoke (interviewer_request resume job_description phase
                              history stop_interview conversation_messages) in
  lift (_clean_json_response response).

(** ** main.py: the answer endpoint *)

(** [_extract_resume_context] and [_extract_job_description], lines
    361-371 and 405-414: the first line with the given prefix, the
    prefix taken out and the rest trimmed. *)
Fixpoint first_with_prefix (prefix : str) (lines : list str) : option str :=
  match lines with
  | [] => None
  | line :: rest =>
      if startswith line prefix then Some (strip (replace prefix [] line))
      else first_with_prefix prefix rest
  end.

Definition _extract_resume_context (transcript : option str) : str :=
  match transcript with
  | None | Some [] => py "Candidate's resume provided."
  | Some t =>
      match first_with_prefix (py "[SYSTEM] Resume parsed for:") (split nl t) with
      | Some name => py "Candidate: " ++ name
      | None => py "Candidate's resume provided."
      end
  end.

Definition _extract_job_description (transcript : option str) : str :=
  match transcript with
  | None | Some [] =>
      py "Software Engineer role requiring strong technical skills and problem solving."
  | Some t =>
      match first_with_prefix (py "[SYSTEM] Job description:") (split nl t) with
      | Some d => d
      | None =>
          py "Software Engineer role requiring strong technical skills and problem solving."
      end
  end.

(** [_build_conversation_messages], lines 417-431. *)
Definition _build_conversation_messages (history : list turn) : list message :=
  flat_map (fun entry =>
    match content entry with
    | [] => []
    | c => match type entry with
           | question => [AIMessage (Text c)]
           | answer => [HumanMessage (Text c)]
           end
    end) (last10 history).

Record AnswerRequest := { session_id : str; answer_text : str }.

(** The two shapes of the reply: [{"question": ..., "feedback": ...,
    "status": "running"}] and [{"question": None, "status":
    "completed", "stop_interview": True, "summary": ...}]. *)
Inductive answer_reply :=
  | Running (question feedback : json)
  | Completed (summary : json).

(** [elapsed_ms > MAX_INTERVIEW_DURATION_MS], lines 200-201. *)
Definition time_expired_at (start_time_ms now max_duration : Z) : bool :=
  (max_duration <? now - start_time_ms)%Z.

(** The local variables of [handle_answer] once the driver has
    answered (line 244). *)
Record turn_state := TurnState {
  session_data : session_row;
  start_time_ms : Z;
  time_expired : bool;
  transcript : option str;
  resume_summary : str;
  job_description : str;
  ai_question : json;
  ai_feedback : json;
  ai_stop : json;
  last_question : str;
  last_question_id : option str
}.

(** Lines 181-244. *)
Definition read_turn (req : AnswerRequest) : M turn_state :=
  let* found := get_session (session_id req) in
  match found with
  | None => raise (HTTPException 404)
  | Some session_data =>
      let* previous_answers := get_answers_for_session (session_id req) in
      let* start_time_ms :=
        match started_at session_data with
        | Some t => ret t
        | None => now_ms
        end in
      let* now := now_ms in
      let* max_duration := (fun w => (Ok (MAX_INTERVIEW_DURATION_MS w), w)) in
      let time_expired := time_expired_at start_time_ms now max_duration in
      let answer_count := length previous_answers in
      let phase := if (answer_count <? 1)%nat then py "introduction" else py "technical" in
      let transcript := full_transcript session_data in
      let resume_summary := _extract_resume_context transcript in
      let job_description := _extract_job_description transcript in
      let history := _build_history_from_transcript transcript in
      let stop_interview := time_expired in
      let conversation_messages := _build_conversation_messages history in
      let* ai_response := run_interviewer resume_summary job_description phase history
                            stop_interview conversation_messages in
      let* ai_question := lift (dict_get (py "question") (JStr []) ai_response) in
      let* ai_feedback := lift (dict_get (py "feedback") (JStr []) ai_response) in
      let* ai_stop := lift (dict_get (py "stop_interview") (JBool false) ai_response) in
      ret (TurnState session_data start_time_ms time_expired transcript
             resume_summary job_description ai_question ai_feedback ai_stop
             (last_question_of transcript) (_extract_last_question_id transcript))
  end.

(** [ai_stop or stop_interview]. *)
Definition should_stop (st : turn_state) : bool := truthy (ai_stop st) || time_expired st.

(** [f"{v}"]. *)
Definition render (w : world) (v : json) : str :=
  match v with JStr s => s | _ => py_str w v end.

(** Lines 246-302. *)
Definition finish_turn (req : AnswerRequest) (st : turn_state) : M answer_reply :=
  let* evaluation := evaluate_answer (last_question st) (answer_text req) in
  let* _ := store_answer (session_id req) (last_question st) (answer_text req)
              evaluation (last_question_id st) in
  let* transcript :=
    lift (match transcript st with Some t => Ok t | None => Raise TypeError end) in
  let updated_transcript := transcript ++ CANDIDATE_TAG ++ answer_text req ++ [nl] in
  let* updated_transcript :=
    if truthy (ai_question st) && negb (should_stop st) then
      let* new_qid := create_interview_question (ai_question st)
                        (template_id (session_data st)) in
      fun w => (Ok (updated_transcript ++ QID_TAG ++ new_qid ++ [nl]
                    ++ AI_TAG ++ render w (ai_question st) ++ [nl]), w)
    else ret updated_transcript in
  let* _ := update_session_transcript (session_id req) updated_transcript in
  if should_stop st then
    let updated_transcript_for_summary :=
      transcript ++ CANDIDATE_TAG ++ answer_text req ++ [nl] in
    let full_history := _build_history_from_transcript (Some updated_transcript_for_summary) in
    let* summary := generate_summary (resume_summary st) (job_description st)
                      full_history (start_time_ms st) in
    let* _ := complete_session (session_id req) summary in
    ret (Completed summary)
  else ret (Running (ai_question st) (ai_feedback st)).

(** [except HTTPException: raise] and [except Exception as e: raise
    HTTPException(status_code=500, ...)]. *)
Definition http_errors {A} (m : M A) : M A :=
  fun w =>
    match m w with
    | (Raise (HTTPException code), w') => (Raise (HTTPException code), w')
    | (Raise _, w') => (Raise (HTTPException 500), w')
    | ok => ok
    end.

(** [handle_answer], lines 178-308. *)
Definition handle_answer (req : AnswerRequest) : M answer_reply :=
  http_errors (let* st := read_turn req in finish_turn req st).

(** ** Vocabulary of the properties and sample data *)

(** The text ends in a character that is not white space. *)
Definition ends_visible (s : str) : bool :=
  match last s with Some c => negb (isspace c) | None => false end.

(** The properties a list of turns needs for the round trip. *)
Definition line_safe (t : turn) : Prop :=
  (nl ∉ content t) /\ contains (tag_of (type t)) (content t) = false.

Definition last_turn_visible (turns : list turn) : Prop :=
  match last turns with Some t => ends_visible (content t) = true | None => True end.

Definition lines_of (t : str) : list str := split nl (strip t).

Definition is_ai_line (l : str) : bool := startswith l AI_TAG.
Definition is_candidate_line (l : str) : bool :=
  negb (startswith l AI_TAG) && startswith l CANDIDATE_TAG.

Definition type_of_line (l : str) : option turn_type :=
  if is_ai_line l then Some question
  else if is_candidate_line l then Some answer else None.

Definition count_type (ty : turn_type) (h : list turn) : nat :=
  length (filter (fun u => type u = ty) h).

(** Case-insensitive containment: the word occurs in the lower-cased
    text. *)
Definition mentions (w : string) (rec : str) : bool := contains (py w) (lower rec).

(** A world in which the collaborator answers every call with [reply]
    and the clock reads [t0] first and [t1] afterwards; the store is
    empty. *)
Definition scripted (reply : str) (t0 t1 : Z) : world :=
  World None (fun _ _ => Some reply)
        (fun k => match k with O => t0 | _ => t1 end)
        (fun _ => py "q-1") (fun _ => []) [] 0 ∅ [] [].

(** An integer between 0 and 10. *)
Definition score_ok (v : json) : bool :=
  match v with
  | JInt n => (0 <=? n)%Z && (n <=? 10)%Z
  | _ => false
  end.

Definition valid_evaluation (ev : json) : Prop :=
  exists d : gmap str json,
    ev = JObj d /\ forall k, k ∈ dimensions -> exists v, d !! k = Some v /\ score_ok v = true.

(** The rows of the store; the collaborators' side of the world is not
    part of it. *)
Definition same_store (w w' : world) : Prop :=
  sessions w' = sessions w /\ answers w' = answers w /\ questions w' = questions w.


(** A session with one question asked, a driver that asks a further
    question, an evaluator and a summariser that reply with well-formed
    objects; the session started at instant 0 and every clock reading
    is [now]. *)
Definition demo_transcript : str :=
  py "[SYSTEM] Resume parsed for: Ann" ++ [nl]
  ++ py "[SYSTEM] Job description: Go developer" ++ [nl]
  ++ py "[QID] q-0" ++ [nl]
  ++ py "[AI] Hello Ann! Please introduce yourself." ++ [nl].

Definition demo_session (st : str) : session_row :=
  SessionRow st (Some 0%Z) (Some demo_transcript) (Some (py "tpl-1"))
    None None None None None None None None None.

Definition demo_reply (k : nat) : str :=
  match k with
  | 0%nat => pj "{'question': 'Thanks. Which databases have you used?', 'feedback': 'clear', 'stop_interview': false}"
  | 1%nat => (py "```json" ++ [nl] ++ pj "{'relevance': 7, 'depth': 6, 'clarity': 8, 'communication': 7, 'problem_solving': 6, 'practical_experience': 7, 'short_summary': 'Solid'}" ++ [nl] ++ py "```")
  | _ => pj "{'strengths': ['clear'], 'improvement_areas': ['depth'], 'overall_score': 7, 'time_taken_minutes': 42, 'resume_match_percentage': 70, 'final_recommendation': 'Moderate Fit'}"
  end.

Definition demo_world (st : str) (now : Z) : world :=
  World None (fun k _ => Some (demo_reply k)) (fun _ => now) (fun _ => py "q-1")
        (fun _ => []) [] 0 {[ py "s-1" := demo_session st ]} [] [].

Definition demo_request : AnswerRequest :=
  {| session_id := py "s-1"; answer_text := py "I build APIs in Go." |}.


(** An exception other than [HTTPException]; a computation that raises
    no [HTTPException] of its own. *)
Definition internal (e : exn) : Prop :=
  match e with HTTPException _ => False | _ => True end.

Definition raises_internal {A} (m : M A) : Prop :=
  forall w e w', m w = (Raise e, w') -> internal e.

Definition fails_internal {A} (r : result A) : Prop :=
  forall e, r = Raise e -> internal e.

(** What enough fuel gives for each of the three scanning functions:
    the fuel does not run out, and a value consumes some input. *)
Definition scan_adequate (fuel : nat) : Prop :=
  forall s, (2 * length s < fuel)%nat ->
    Json.scan_once fuel s <> Json.PFuel
    /\ forall v rest, Json.scan_once fuel s = Json.POk v rest -> (length rest < length s)%nat.

Definition items_adequate (fuel : nat) : Prop :=
  forall s acc, (2 * length s + 1 < fuel)%nat ->
    Json.parse_items fuel s acc <> Json.PFuel
    /\ forall v rest, Json.parse_items fuel s acc = Json.POk v rest -> (length rest < length s)%nat.

Definition members_adequate (fuel : nat) : Prop :=
  forall s acc, (2 * length s + 1 < fuel)%nat ->
    Json.parse_members fuel s acc <> Json.PFuel
    /\ forall v rest, Json.parse_members fuel s acc = Json.POk v rest -> (length rest < length s)%nat.

(** ** main.py: the opening transcript and the stop endpoint *)

(** The greeting of [start_interview], line 142. *)
Definition greeting_for (candidate_name : str) : str :=
  py "Hello " ++ candidate_name
  ++ py "! Welcome to the AI Interview. Please briefly introduce yourself and tell me about your background.".

(** The transcript [start_interview] stores, lines 151-154; the
    arguments are the texts the f-strings render. *)
Definition start_transcript (candidate_name job_description greeting_qid greeting : str) : str :=
  py "[SYSTEM] Resume parsed for: " ++ candidate_name ++ [nl]
  ++ py "[SYSTEM] Job description: " ++ job_description ++ [nl]
  ++ QID_TAG ++ greeting_qid ++ [nl]
  ++ AI_TAG ++ greeting ++ [nl].

(** The body of a stop request: [session_id]. *)
Record StopRequest := { stop_session_id : str }.

(** [stop_interview], lines 313-356. *)
Definition stop_interview (req : StopRequest) : M answer_reply :=
  http_errors
    (let* found := get_session (stop_session_id req) in
     match found with
     | None => raise (HTTPException 404)
     | Some session_data =>
         let transcript := full_transcript session_data in
         let history := _build_history_from_transcript transcript in
         let* start_time_ms :=
           match started_at session_data with
           | Some t => ret t
           | None => now_ms
           end in
         let resume_summary := _extract_resume_context transcript in
         let job_description := _extract_job_description transcript in
         let* summary := generate_summary resume_summary job_description history
                           start_time_ms in
         let* _ := complete_session (stop_session_id req) summary in
         ret (Completed summary)
     end).

(** ** Vocabulary of the further properties *)

(** The text is empty or its last line is closed by a newline that
    follows a character that is not white space. *)
Definition well_ended (t : str) : bool :=
  match rev t with
  | [] => true
  | n :: c :: _ => (n =? nl)%N && negb (isspace c)
  | _ => false
  end.

(** The text starts with a character that is neither white space nor a
    backquote, and ends with one. *)
Definition plain_char (c : N) : bool := negb (isspace c) && negb (c =? 0x60)%N.

Definition plain_ends (s : str) : bool :=
  match head s, last s with
  | Some a, Some b => plain_char a && plain_char b
  | _, _ => false
  end.

(** The message a turn becomes in [_build_conversation_messages]. *)
Definition message_of_turn (t : turn) : message :=
  match type t with
  | question => AIMessage (Text (content t))
  | answer => HumanMessage (Text (content t))
  end.

Definition message_text (m : message) : content_t :=
  match m with SystemMessage c | HumanMessage c | AIMessage c => c end.

(** The three recommendation codes. *)
Definition recommendation_codes : list str := [py "strong_hire"; py "hire"; py "maybe"].

(** The collaborators' side of the world, which no request changes. *)
Definition same_oracles (w w' : world) : Prop :=
  env_max_duration w' = env_max_duration w /\ llm w' = llm w /\ time_ms w' = time_ms w
  /\ new_id w' = new_id w /\ py_str w' = py_str w.

(** One session row has only grown: its transcript is the old one with
    text appended, its start and template are the same, and a completed
    session is still completed. *)
Definition row_grows (r r' : session_row) : Prop :=
  (match full_transcript r with
   | Some t => exists extra, full_transcript r' = Some (t ++ extra)
   | None => True
   end)
  /\ started_at r' = started_at r
  /\ template_id r' = template_id r
  /\ (status r = py "completed" -> status r' = py "completed").

(** The store has only grown: the same sessions, each grown; answers,
    questions and the log of collaborator calls extended at the end. *)
Definition grows (w w' : world) : Prop :=
  (forall sid, match sessions w !! sid, sessions w' !! sid with
               | Some r, Some r' => row_grows r r'
               | None, None => True
               | _, _ => False
               end)
  /\ (exists rows, answers w' = answers w ++ rows)
  /\ (exists qs, questions w' = questions w ++ qs)
  /\ (exists calls, llm_calls w' = llm_calls w ++ calls).

(** A stored session as in [demo_world], with a summariser that
    replies with a well-formed scorecard; every clock reading is
    [now]. *)
Definition demo_stop_world (now : Z) : world :=
  World None (fun _ _ => Some (demo_reply 2)) (fun _ => now) (fun _ => py "q-1")
        (fun _ => []) [] 0 {[ py "s-1" := demo_session (py "started") ]} [] [].

Definition demo_stop_request : StopRequest := {| stop_session_id := py "s-1" |}.

Definition demo_summary : json :=
  JObj {[ py "final_recommendation" := JStr (py "Strong Fit");
          py "overall_score" := JInt 9 ]}.

(** Only white space. *)
Definition blank (ws : str) : bool := forallb isspace ws.

(** A text in a Markdown fence, with or without the language word. *)
Definition fenced (lang : bool) (ws1 body ws2 : str) : str :=
  py "```" ++ (if lang then py "json" else []) ++ ws1 ++ body ++ ws2 ++ py "```".

(** A computation that writes no row: in every outcome the store is as
    it was and the log of collaborator calls has only been extended. *)
Definition reads_only {A} (m : M A) : Prop :=
  forall w r w', m w = (r, w') ->
    same_store w w' /\ exists calls, llm_calls w' = llm_calls w ++ calls.

(** A computation that makes at most [n] collaborator calls, in every
    outcome. *)
Definition calls_at_most (n : nat) {A} (m : M A) : Prop :=
  forall w r w', m w = (r, w') ->
    exists calls, llm_calls w' = llm_calls w ++ calls /\ (length calls <= n)%nat.

(** [phase], [handle_answer] lines 204-205. *)
Definition phase_of (answer_count : nat) : str :=
  if (answer_count <? 1)%nat then py "introduction" else py "technical".

(** The request [handle_answer] sends to the interviewer for a stored
    session, lines 187-230. *)
Definition interviewer_request_for (sid : str) (sess : session_row) (w : world) : llm_request :=
  let t := full_transcript sess in
  let history := _build_history_from_transcript t in
  let start := default (time_ms w (clock_reads w)) (started_at sess) in
  let now := time_ms w (match started_at sess with
                        | Some _ => clock_reads w
                        | None => S (clock_reads w)
                        end) in
  interviewer_request (_extract_resume_context t) (_extract_job_description t)
    (phase_of (length (filter (fun r => answer_session_id r = sid) (answers w))))
    history (time_expired_at start now (MAX_INTERVIEW_DURATION_MS w))
    (_build_conversation_messages history).

(** ** chains.py: the resume parser, and its use in [start_interview] *)

(** The value [parse_resume] returns for a blank text, which is also
    what [start_interview] falls back to when parsing fails. *)
Definition resume_fallback : json :=
  JObj (list_to_map
    [(py "name", JStr (py "Candidate")); (py "skills", JArr []);
     (py "work_experience", JArr []); (py "education", JArr [])]).

(** The call of [parse_resume]: [_get_llm(temperature=0.1)]. *)
Definition parser_request (resume_text : str) : llm_request :=
  LlmRequest 1 [SystemMessage RESUME_PARSER_SYSTEM;
                HumanMessage (RESUME_PARSER_PROMPT resume_text)].

(** [parse_resume], lines 65-83. *)
Definition parse_resume (resume_text : str) : M json :=
  if is_blank resume_text then ret resume_fallback
  else
    let* response := ainvoke (parser_request resume_text) in
    lift (_clean_json_response response).

(** [try: ... except Exception: ...]. *)
Definition try_except {A} (m handler : M A) : M A :=
  fun w =>
    match m w with
    | (Raise _, w') => handler w'
    | ok => ok
    end.

(** [start_interview], lines 113-125: the parsed resume. *)
Definition start_resume (resume_text : str) : M json :=
  match strip resume_text with
  | [] => ret (JObj ∅)
  | _ => try_except (parse_resume resume_text) (ret resume_fallback)
  end.

(** [resume_parsed.get("name", "Candidate")], line 141. *)
Definition candidate_name_of (resume_parsed : json) : result json :=
  dict_get (py "name") (JStr (py "Candidate")) resume_parsed.


(** ** The limits of the interpreter that the model of [json.loads]
    leaves out

    [json.loads] raises [ValueError] for an integer literal of more
    than 4300 digits and [RecursionError] for a document nested deeper
    than the interpreter allows.  A text of fewer than 4300 characters
    with at most 100 opening brackets and braces reaches neither. *)
Definition is_opener (c : N) : bool := (c =? 0x5B)%N || (c =? 0x7B)%N.

Definition within_limits (text : str) : bool :=
  (length text <? 4300)%nat
  && (length (filter (fun c => is_opener c = true) text) <=? 100)%nat.

(** ** Naming the outcome of a run

    The reply a run returned and the scorecard in it (a placeholder
    when there is none), so that an example can name them without
    writing them out. *)
Definition reply_of (m : result answer_reply * world) : answer_reply :=
  match fst m with
  | Ok reply => reply
  | Raise _ => Running JNull JNull
  end.

Definition summary_of (m : result answer_reply * world) : json :=
  match reply_of m with
  | Completed summary => summary
  | Running _ _ => JNull
  end.

(* ================================================================== *)
(** * Part II. Properties                                              *)
(* ================================================================== *)

(** ** Strings *)

Section str_facts.
Implicit Types (s p old new c : str) (k : nat).

Lemma startswith_app p c : startswith (p ++ c) p = true.
Proof. induction p as [|a p IH]; simpl; [done|]. by rewrite N.eqb_refl. Qed.

Lemma lstrip_head a s : isspace a = false -> lstrip (a :: s) = a :: s.
Proof. intros H. simpl. by rewrite H. Qed.

Lemma rstrip_snoc_space s a : isspace a = true -> rstrip (s ++ [a]) = rstrip s.
Proof. intros H. unfold rstrip. rewrite rev_app_distr. simpl. by rewrite H. Qed.

Lemma rstrip_snoc_solid s a : isspace a = false -> rstrip (s ++ [a]) = s ++ [a].
Proof.
  intros H. unfold rstrip. rewrite rev_app_distr. simpl. rewrite H.
  simpl. by rewrite rev_involutive.
Qed.

Lemma split_not_nil sep s : split sep s <> [].
Proof. destruct s as [|a s]; simpl; [done|]. destruct (a =? sep)%N; [done|]. by destruct (split sep s). Qed.

Lemma split_no_sep sep s : sep ∉ s -> split sep s = [s].
Proof.
  induction s as [|a s IH]; intros H; simpl; [done|].
  apply not_elem_of_cons in H as [Hne Hs].
  destruct (N.eqb_spec a sep) as [->|_]; [done|]. by rewrite IH.
Qed.

Lemma split_app_sep sep s r : sep ∉ s -> split sep (s ++ sep :: r) = s :: split sep r.
Proof.
  induction s as [|a s IH]; intros H; simpl.
  - by rewrite N.eqb_refl.
  - apply not_elem_of_cons in H as [Hne Hs].
    destruct (N.eqb_spec a sep) as [->|_]; [done|]. by rewrite IH.
Qed.

(** Passing over the rest of a matched occurrence. *)
Lemma replace_from_skip old new p c :
  replace_from old new (length p) (p ++ c) = replace_from old new 0 c.
Proof. induction p as [|a p IH]; simpl; [by destruct c|done]. Qed.

Lemma replace_prefix old c : old <> [] -> replace old [] (old ++ c) = replace old [] c.
Proof.
  intros Hne. destruct old as [|a old]; [done|]. unfold replace.
  change ((a :: old) ++ c) with (a :: (old ++ c)).
  cbn [replace_from].
  change (a :: (old ++ c)) with ((a :: old) ++ c). rewrite startswith_app.
  cbn [length app]. replace (S (length old) - 1)%nat with (length old) by lia.
  apply (replace_from_skip (a :: old) [] old c).
Qed.

Lemma replace_absent old new c : contains old c = false -> replace old new c = c.
Proof.
  unfold replace. induction c as [|a c IH]; [done|].
  cbn [contains replace_from]. intros [H1 H2]%orb_false_elim.
  rewrite H1. f_equal. by apply IH.
Qed.
End str_facts.

(** ** Transcript codec *)

Lemma encode_snoc ts t : encode (ts ++ [t]) = encode ts ++ transcript_line t ++ [nl].
Proof. unfold encode. by rewrite fold_left_app. Qed.

Lemma encode_flat_map_from acc ts :
  fold_left append_turn ts acc = acc ++ flat_map (fun t => transcript_line t ++ [nl]) ts.
Proof.
  revert acc. induction ts as [|t ts IH]; intros acc; simpl.
  - by rewrite app_nil_r.
  - rewrite IH. unfold append_turn. by rewrite <- !app_assoc.
Qed.

Lemma encode_flat_map ts : encode ts = flat_map (fun t => transcript_line t ++ [nl]) ts.
Proof. unfold encode. by rewrite encode_flat_map_from. Qed.

Lemma tag_head ty : exists r, tag_of ty = 91%N :: r.
Proof. destruct ty; eexists; reflexivity. Qed.

Lemma tag_no_nl ty : nl ∉ tag_of ty.
Proof. destruct ty; intros H%list_elem_of_In; vm_compute in H; intuition discriminate. Qed.

(** The trimmed transcript of a non-empty list of turns: the written
    lines without the final separator. *)
Lemma strip_encode ts t :
  ends_visible (content t) = true ->
  strip (encode (ts ++ [t])) = encode ts ++ transcript_line t.
Proof.
  intros Hend. rewrite encode_snoc.
  assert (Hl : lstrip (encode ts ++ transcript_line t ++ [nl])
               = encode ts ++ transcript_line t ++ [nl]).
  { rewrite encode_flat_map. destruct ts as [|t0 ts]; simpl.
    - unfold transcript_line. destruct (tag_head (type t)) as [r ->]. done.
    - unfold transcript_line. destruct (tag_head (type t0)) as [r ->]. done. }
  unfold strip. rewrite Hl.
  rewrite !app_assoc. rewrite rstrip_snoc_space by done.
  unfold ends_visible in Hend.
  destruct (content t) as [|c0 cs] eqn:Hc using rev_ind; [done|].
  rewrite last_snoc in Hend. apply negb_true_iff in Hend.
  unfold transcript_line. rewrite Hc. rewrite !app_assoc.
  rewrite rstrip_snoc_solid by done. done.
Qed.

Lemma line_no_nl t : nl ∉ content t -> nl ∉ transcript_line t.
Proof.
  intros H. unfold transcript_line. rewrite elem_of_app.
  intros [Ht|Hc]; [by apply (tag_no_nl (type t))|done].
Qed.

Lemma split_encode ts t :
  Forall (fun u => nl ∉ content u) (ts ++ [t]) ->
  split nl (encode ts ++ transcript_line t) = transcript_line <$> (ts ++ [t]).
Proof.
  rewrite encode_flat_map. induction ts as [|u ts IH]; simpl; intros HF.
  - apply Forall_inv in HF. by apply split_no_sep, line_no_nl.
  - apply Forall_cons in HF as [Hu HF].
    rewrite <- !app_assoc. simpl.
    rewrite split_app_sep by by apply line_no_nl.
    by rewrite IH.
Qed.

(** A written line is read back as the turn it was written for, as long
    as the tag does not occur again inside the content. *)
Lemma history_of_transcript_line t :
  contains (tag_of (type t)) (content t) = false ->
  history_of_line (transcript_line t) = [t].
Proof.
  destruct t as [ty c]. unfold transcript_line, history_of_line.
  intros Hc. destruct ty; cbn [type content tag_of] in *.
  - rewrite (startswith_app AI_TAG c).
    rewrite replace_prefix by done. by rewrite replace_absent.
  - replace (startswith (CANDIDATE_TAG ++ c) AI_TAG) with false by reflexivity.
    rewrite (startswith_app CANDIDATE_TAG c).
    rewrite replace_prefix by done. by rewrite replace_absent.
Qed.

Lemma encode_nil_iff ts : encode ts = [] <-> ts = [].
Proof.
  split; [|by intros ->]. destruct ts as [|t ts] using rev_ind; [done|].
  rewrite encode_snoc. intros H. apply app_eq_nil in H as [_ H].
  apply app_eq_nil in H as [_ H]. done.
Qed.

(** C1 (amended).  Decoding the encoding of a list of turns gives the
    list back when no content holds a newline or its own tag again and
    the content of the final turn ends in a character that is not white
    space (so is not empty). *)
Theorem C1_roundtrip_amended (turns : list turn) :
  Forall line_safe turns ->
  last_turn_visible turns ->
  _build_history_from_transcript (Some (encode turns)) = turns.
Proof.
  intros HF Hlast. destruct turns as [|t ts _] using rev_ind; [done|].
  unfold last_turn_visible in Hlast. rewrite last_snoc in Hlast.
  unfold _build_history_from_transcript.
  destruct (encode (ts ++ [t])) as [|c0 e] eqn:He.
  { apply encode_nil_iff in He. by destruct ts. }
  rewrite <- He. rewrite strip_encode by done.
  rewrite split_encode.
  2:{ eapply Forall_impl; [exact HF|]. by intros u [? _]. }
  clear He Hlast. induction (ts ++ [t]) as [|u us IH]; [done|].
  apply Forall_cons in HF as [[_ Hu] HF]. simpl.
  rewrite history_of_transcript_line by done. simpl. f_equal. by apply IH.
Qed.

Lemma C1_roundtrip_amended_witness :
  _build_history_from_transcript
    (Some (encode [Turn question (py "Tell me about yourself");
                   Turn answer (py "I am an engineer")]))
  = [Turn question (py "Tell me about yourself");
     Turn answer (py "I am an engineer")].
Proof.
  apply C1_roundtrip_amended.
  - repeat constructor; try (vm_compute; reflexivity);
      intros H%list_elem_of_In; vm_compute in H; intuition discriminate.
  - vm_compute. reflexivity.
Defined.

(** C1 as stated fails: no content below holds a newline, yet the final
    answer comes back without its trailing blank. *)
Lemma C1_roundtrip_counterexample :
  exists turns : list turn,
    Forall (fun t => nl ∉ content t) turns
    /\ _build_history_from_transcript (Some (encode turns)) <> turns.
Proof.
  exists [Turn question (py "Which stack?"); Turn answer (py "Go ")]. split.
  - repeat constructor; intros Hin%list_elem_of_In; vm_compute in Hin; intuition discriminate.
  - vm_compute. discriminate.
Qed.

(** ** History reconstruction *)

(** One turn per tagged line, in line order; other lines give nothing. *)
Lemma history_types (t : str) :
  type <$> _build_history_from_transcript (Some t) = omap type_of_line (lines_of t).
Proof.
  unfold _build_history_from_transcript, lines_of.
  destruct t as [|c t]; [done|]. generalize (split nl (strip (c :: t))).
  intros ls. induction ls as [|l ls IH]; [done|].
  cbn [flat_map omap list_omap]. rewrite fmap_app, IH. f_equal.
  unfold history_of_line, type_of_line, is_ai_line, is_candidate_line.
  destruct (startswith l AI_TAG); [done|]. by destruct (startswith l CANDIDATE_TAG).
Qed.

Lemma count_type_app ty h1 h2 : count_type ty (h1 ++ h2) = (count_type ty h1 + count_type ty h2)%nat.
Proof. unfold count_type. by rewrite filter_app, length_app. Qed.

(** N lines with the AI tag and M lines with the CANDIDATE tag give N
    question turns and M answer turns. *)
Lemma history_counts (t : str) :
  count_type question (_build_history_from_transcript (Some t))
    = length (filter (fun l => is_ai_line l = true) (lines_of t))
  /\ count_type answer (_build_history_from_transcript (Some t))
    = length (filter (fun l => is_candidate_line l = true) (lines_of t)).
Proof.
  unfold _build_history_from_transcript, lines_of.
  destruct t as [|c t]; [done|]. generalize (split nl (strip (c :: t))).
  intros ls. induction ls as [|l ls [IH1 IH2]]; [done|].
  cbn [flat_map]. rewrite !count_type_app, IH1, IH2, !filter_cons.
  unfold history_of_line, is_ai_line, is_candidate_line.
  destruct (startswith l AI_TAG), (startswith l CANDIDATE_TAG);
    repeat case_decide; try done; split; reflexivity.
Qed.

(** An empty or missing transcript: no history, no question identifier,
    no question being answered. *)
Lemma history_of_nothing :
  _build_history_from_transcript None = []
  /\ _build_history_from_transcript (Some []) = []
  /\ _extract_last_question_id None = None
  /\ _extract_last_question_id (Some []) = None
  /\ last_question_of None = [] /\ last_question_of (Some []) = [].
Proof. repeat split. Qed.

(** C2.  The content of a turn is the line with every occurrence of
    the tag taken out, not only the leading one: an answer that quotes
    the tag comes back without it. *)
Theorem C2_history_tag_inside_content :
  _build_history_from_transcript
    (Some (py "[AI] How do you tag log lines?" ++ [nl]
           ++ py "[CANDIDATE] We write [CANDIDATE] before each reply" ++ [nl]))
  = [Turn question (py "How do you tag log lines?");
     Turn answer (py "We write before each reply")].
Proof. vm_compute. reflexivity. Qed.

(** ** Recommendation codes *)

Section contains_facts.
Implicit Types (w s : str).

Lemma contains_app_mid w a b : contains w (a ++ w ++ b) = true.
Proof.
  induction a as [|x a IH]; simpl.
  - destruct (w ++ b) as [|y r] eqn:E.
    + apply app_eq_nil in E as [-> _]. done.
    + simpl. rewrite <- E, startswith_app. done.
  - rewrite IH. apply orb_true_r.
Qed.

Lemma contains_lstrip w s a w' :
  w = a :: w' -> isspace a = false -> contains w (lstrip s) = contains w s.
Proof.
  intros -> Ha. induction s as [|c r IH]; [done|].
  cbn [lstrip]. destruct (isspace c) eqn:Hc; [|done].
  rewrite IH. cbn [contains startswith].
  destruct (N.eqb_spec a c) as [->|_]; [congruence|done].
Qed.

Lemma startswith_snoc_space w s c b :
  last w = Some b -> isspace b = false -> isspace c = true ->
  startswith (s ++ [c]) w = startswith s w.
Proof.
  revert s. induction w as [|a w IH]; intros s Hl Hb Hc; [done|].
  destruct s as [|x s]; cbn [app startswith].
  - destruct (N.eqb_spec a c) as [->|_]; [|done].
    destruct w as [|a' w]; [|done]. simpl in Hl. congruence.
  - destruct w as [|a' w]; [by rewrite !andb_true_r|].
    rewrite IH; [done| |done|done]. by rewrite last_cons_cons in Hl.
Qed.

Lemma contains_snoc_space w s c b :
  last w = Some b -> isspace b = false -> isspace c = true ->
  contains w (s ++ [c]) = contains w s.
Proof.
  intros Hl Hb Hc. assert (Hw : w <> []) by (intros ->; done).
  induction s as [|x s IH].
  - pose proof (startswith_snoc_space w [] c b Hl Hb Hc) as E.
    cbn [app] in E. cbn [app contains]. rewrite E. by destruct w.
  - pose proof (startswith_snoc_space w (x :: s) c b Hl Hb Hc) as E.
    cbn [app] in E. cbn [app contains]. by rewrite IH, E.
Qed.

Lemma contains_rstrip w s b :
  last w = Some b -> isspace b = false -> contains w (rstrip s) = contains w s.
Proof.
  intros Hl Hb. induction s as [|c s IH] using rev_ind; [done|].
  destruct (isspace c) eqn:Hc.
  - rewrite rstrip_snoc_space by done. rewrite IH.
    by rewrite (contains_snoc_space w s c b).
  - by rewrite rstrip_snoc_solid.
Qed.

Lemma contains_strip w s a w' b :
  w = a :: w' -> isspace a = false -> last w = Some b -> isspace b = false ->
  contains w (strip s) = contains w s.
Proof.
  intros Hw Ha Hl Hb. unfold strip.
  rewrite (contains_rstrip w _ b) by done. by apply (contains_lstrip w s a w').
Qed.
End contains_facts.

Ltac keyword_strip :=
  match goal with
  | |- context [contains (py ?k) (strip ?s)] =>
      rewrite (contains_strip (py k) s _ _ _ eq_refl eq_refl eq_refl eq_refl)
  end.

Lemma mentions_intro (w : string) (pre mid post : str) :
  lower mid = py w -> mentions w (pre ++ mid ++ post) = true.
Proof.
  intros H. unfold mentions, lower. rewrite !flat_map_app.
  fold (lower mid). rewrite H. apply contains_app_mid.
Qed.

(** C9.  Recommendation text is mapped by keyword, in this order:
    "strong" gives strong_hire; otherwise "moderate" or "fit" gives
    hire; everything else gives maybe.  The function is total and its
    value is always one of the three codes. *)
Theorem C9_map_recommendation_total (rec : str) :
  _map_recommendation rec
  = (if mentions "strong" rec then py "strong_hire"
     else if mentions "moderate" rec || mentions "fit" rec then py "hire"
     else py "maybe")
  /\ _map_recommendation rec ∈ [py "strong_hire"; py "hire"; py "maybe"].
Proof.
  assert (E : _map_recommendation rec
    = (if mentions "strong" rec then py "strong_hire"
       else if mentions "moderate" rec || mentions "fit" rec then py "hire"
       else py "maybe")).
  { unfold _map_recommendation, mentions. cbv zeta. repeat keyword_strip.
    destruct (contains (py "strong") (lower rec)); [done|].
    destruct (contains (py "moderate") (lower rec) || contains (py "fit") (lower rec)); [done|].
    by destruct (contains (py "needs") (lower rec) || contains (py "improvement") (lower rec)). }
  split; [exact E|]. rewrite E.
  destruct (mentions "strong" rec); [set_solver|].
  destruct (mentions "moderate" rec || mentions "fit" rec); set_solver.
Qed.

Example map_recommendation_samples :
  _map_recommendation (py "Strong Fit") = py "strong_hire"
  /\ _map_recommendation (py "  MODERATE fit ") = py "hire"
  /\ _map_recommendation (py "Needs Improvement") = py "maybe"
  /\ _map_recommendation (py "pass") = py "maybe"
  /\ _map_recommendation [] = py "maybe".
Proof. vm_compute. repeat split. Qed.

(** ** json.loads: the fuel is enough *)

Module JsonFacts.
Import Json.

Lemma skip_ws_length (s : str) : (length (skip_ws s) <= length s)%nat.
Proof. induction s as [|c r IH]; simpl; [lia|]. destruct (is_ws c); simpl; lia. Qed.

Lemma take_digits_length (s : str) (acc count n k : Z) (rest : str) :
  take_digits s acc count = (n, k, rest) -> (length rest <= length s)%nat.
Proof.
  revert acc count. induction s as [|c r IH]; intros acc count; simpl.
  - intros [= <- <- <-]. simpl. lia.
  - destruct (is_digit c).
    + intros H. apply IH in H. lia.
    + intros [= <- <- <-]. simpl. lia.
Qed.

(** Every successful scan of a string literal consumes its closing
    quote. *)
Lemma scanstring_length (n : nat) :
  forall (s acc k rest : str),
    (length s <= n)%nat -> scanstring s acc = Some (k, rest) ->
    (length rest < length s)%nat.
Proof.
  induction n as [|n IH]; intros s acc k rest Hn H.
  - destruct s; [done|simpl in Hn; lia].
  - destruct s as [|c r]; [done|]. simpl in Hn. cbn [scanstring] in H.
    repeat (case_match; try done; subst);
      try (injection H as <- <-; simpl; lia);
      apply IH in H; simpl in *; lia.
Qed.

Lemma int_part_length (s : str) (n : Z) (rest : str) :
  int_part s = Some (n, rest) -> (length rest < length s)%nat.
Proof.
  destruct s as [|c r]; [done|]. unfold int_part.
  destruct (is_ch "0" c); [intros [= <- <-]; simpl; lia|].
  destruct (is_digit c) eqn:Hd; [|done].
  cbn [take_digits]. rewrite Hd.
  destruct (take_digits r _ _) as [[m k] rest'] eqn:E. intros [= <- <-].
  apply take_digits_length in E. simpl. lia.
Qed.

Lemma frac_part_length (s : str) (f k : Z) (rest : str) :
  frac_part s = Some (f, k, rest) -> (length rest <= length s)%nat.
Proof.
  unfold frac_part. destruct s as [|c [|d r]]; try done.
  destruct (is_ch "." c && is_digit d); [|done].
  remember (take_digits (d :: r) 0 0) as t eqn:E. intros [= ->].
  symmetry in E. apply take_digits_length in E. simpl in *. lia.
Qed.

Lemma exp_part_length (s : str) (e : Z) (rest : str) :
  exp_part s = Some (e, rest) -> (length rest <= length s)%nat.
Proof.
  unfold exp_part. destruct s as [|c r]; [done|].
  destruct (is_ch "e" c || is_ch "E" c); [|done].
  destruct (match r with
            | sg :: (_ :: _) as r' =>
                if is_ch "-" sg then (true, r')
                else if is_ch "+" sg then (false, r') else (false, r)
            | _ => (false, r)
            end) as [neg r1] eqn:Hsign.
  assert (Hr1 : (length r1 <= length r)%nat).
  { destruct r as [|sg [|x r']]; try (injection Hsign as <- <-; simpl; lia).
    destruct (is_ch "-" sg); [injection Hsign as <- <-; simpl; lia|].
    destruct (is_ch "+" sg); injection Hsign as <- <-; simpl; lia. }
  destruct (take_digits r1 0 0) as [[n count] rest'] eqn:E.
  destruct (count =? 0)%Z; [done|]. intros [= <- <-].
  apply take_digits_length in E. simpl. lia.
Qed.

Lemma match_number_result (s : str) :
  match_number s <> PFuel
  /\ forall v rest, match_number s = POk v rest -> (length rest < length s)%nat.
Proof.
  unfold match_number.
  destruct (match s with
            | c :: r => if is_ch "-" c then (true, r) else (false, s)
            | [] => (false, s)
            end) as [neg s1] eqn:Hsign.
  assert (Hs1 : (length s1 <= length s)%nat).
  { destruct s as [|c r]; [by injection Hsign as <- <-|].
    destruct (is_ch "-" c); injection Hsign as <- <-; simpl; lia. }
  destruct (int_part s1) as [[n s2]|] eqn:Hint; [|done].
  apply int_part_length in Hint.
  destruct (frac_part s2) as [[[f k] s3]|] eqn:Hfrac.
  - apply frac_part_length in Hfrac.
    destruct (exp_part s3) as [[e s4]|] eqn:Hexp.
    + apply exp_part_length in Hexp. split; [done|]. intros v rest [= <- <-]. lia.
    + split; [done|]. intros v rest [= <- <-]. lia.
  - destruct (exp_part s2) as [[e s4]|] eqn:Hexp.
    + apply exp_part_length in Hexp. split; [done|]. intros v rest [= <- <-]. lia.
    + split; [done|]. intros v rest [= <- <-]. lia.
Qed.

Lemma pres_map_result {A B} (f : A -> B) (p : pres A) (n : nat) :
  p <> PFuel /\ (forall v rest, p = POk v rest -> (length rest < n)%nat) ->
  pres_map f p <> PFuel
  /\ forall v rest, pres_map f p = POk v rest -> (length rest < n)%nat.
Proof.
  intros [H1 H2]. destruct p as [a r| |]; simpl; [|done|done].
  split; [done|]. intros v rest [= <- <-]. by eapply H2.
Qed.

Lemma skip_ws_cons_length (s : str) (c : N) (r : str) :
  skip_ws s = c :: r -> (length r < length s)%nat.
Proof. intros H. pose proof (skip_ws_length s) as L. rewrite H in L. simpl in L. lia. Qed.

Lemma scan_once_step (fuel : nat) :
  items_adequate fuel -> members_adequate fuel -> scan_adequate (S fuel).
Proof.
  intros Hitems Hmembers s Hfuel. destruct s as [|c r]; [done|].
  cbn [scan_once]. simpl in Hfuel.
  destruct (is_quote c).
  { destruct (scanstring r []) as [[k rest]|] eqn:E; [|done].
    apply (scanstring_length (length r)) in E; [|done].
    split; [done|]. intros v rest' [= <- <-]. simpl. lia. }
  destruct (is_ch "{" c).
  { destruct (skip_ws r) as [|c2 r2] eqn:E; [done|].
    apply skip_ws_cons_length in E as L.
    destruct (is_ch "}" c2).
    - split; [done|]. intros v rest [= <- <-]. simpl. lia.
    - apply pres_map_result. destruct (Hmembers (c2 :: r2) ∅) as [H1 H2].
      + pose proof (skip_ws_length r) as L'. rewrite E in L'. simpl in *. lia.
      + split; [done|]. intros v rest H. apply H2 in H.
        pose proof (skip_ws_length r) as L'. rewrite E in L'. simpl in *. lia. }
  destruct (is_ch "[" c).
  { destruct (skip_ws r) as [|c2 r2] eqn:E; [done|].
    apply skip_ws_cons_length in E as L.
    destruct (is_ch "]" c2).
    - split; [done|]. intros v rest [= <- <-]. simpl. lia.
    - apply pres_map_result. destruct (Hitems (c2 :: r2) []) as [H1 H2].
      + pose proof (skip_ws_length r) as L'. rewrite E in L'. simpl in *. lia.
      + split; [done|]. intros v rest H. apply H2 in H.
        pose proof (skip_ws_length r) as L'. rewrite E in L'. simpl in *. lia. }
  repeat (match goal with
          | |- context [if startswith ?a ?b then _ else _] =>
              destruct (startswith a b);
              [split; [done|]; intros v rest [= <- <-]; rewrite length_drop; simpl; lia|]
          end).
  apply match_number_result.
Qed.

Lemma parse_items_step (fuel : nat) :
  scan_adequate fuel -> items_adequate fuel -> items_adequate (S fuel).
Proof.
  intros Hscan Hitems s acc Hfuel. cbn [parse_items].
  destruct (Hscan s) as [H1 H2]; [lia|].
  destruct (scan_once fuel s) as [v rest| |] eqn:E; [|done|done].
  specialize (H2 v rest eq_refl).
  destruct (skip_ws rest) as [|c r] eqn:Er; [done|].
  apply skip_ws_cons_length in Er.
  destruct (is_ch "]" c).
  { split; [done|]. intros v' rest' [= <- <-]. lia. }
  destruct (is_ch "," c); [|done].
  pose proof (skip_ws_length r) as L.
  destruct (Hitems (skip_ws r) (v :: acc)) as [H3 H4]; [lia|].
  split; [done|]. intros v' rest' H. apply H4 in H. lia.
Qed.

Lemma parse_members_step (fuel : nat) :
  scan_adequate fuel -> members_adequate fuel -> members_adequate (S fuel).
Proof.
  intros Hscan Hmembers s acc Hfuel. cbn [parse_members].
  destruct s as [|q r]; [done|]. simpl in Hfuel.
  destruct (is_quote q); [|done].
  destruct (scanstring r []) as [[key rest]|] eqn:E; [|done].
  apply (scanstring_length (length r)) in E; [|done].
  destruct (skip_ws rest) as [|colon r2] eqn:Er; [done|].
  apply skip_ws_cons_length in Er.
  destruct (is_ch ":" colon); [|done].
  pose proof (skip_ws_length r2) as L2.
  destruct (Hscan (skip_ws r2)) as [H1 H2]; [lia|].
  destruct (scan_once fuel (skip_ws r2)) as [v rest2| |] eqn:Ev; [|done|done].
  specialize (H2 v rest2 eq_refl).
  destruct (skip_ws rest2) as [|c r3] eqn:Er3; [done|].
  apply skip_ws_cons_length in Er3.
  destruct (is_ch "}" c).
  { split; [done|]. intros v' rest' [= <- <-]. simpl. lia. }
  destruct (is_ch "," c); [|done].
  pose proof (skip_ws_length r3) as L3.
  destruct (Hmembers (skip_ws r3) (<[key := v]> acc)) as [H3 H4]; [lia|].
  split; [done|]. intros v' rest' H. apply H4 in H. simpl. lia.
Qed.

Lemma fuel_adequate (fuel : nat) :
  scan_adequate fuel /\ items_adequate fuel /\ members_adequate fuel.
Proof.
  induction fuel as [|fuel (Hs & Hi & Hm)].
  - repeat split; intros; lia.
  - split; [by apply scan_once_step|].
    split; [by apply parse_items_step|by apply parse_members_step].
Qed.

(** [loads] never stops for lack of fuel: [None] is a decoding error. *)
Lemma loads_fuel (s : str) : scan_once (2 * length s + 1) (skip_ws s) <> PFuel.
Proof.
  destruct (fuel_adequate (2 * length s + 1)) as [Hs _].
  apply Hs. pose proof (skip_ws_length s). lia.
Qed.

End JsonFacts.

(** ** The collaborator-output parser *)

(** C5.  A reply whose brace-delimited region is not valid JSON: the
    outer parse fails, the region is found, and parsing the region
    raises; no empty structure is returned. *)
Theorem C5_clean_json_response_raises :
  _clean_json_response (py "Scores: {relevance: 7, depth: 6}") = Raise JSONDecodeError.
Proof. vm_compute. reflexivity. Qed.

(** The three stages where they do work. *)
Example clean_json_response_samples :
  _clean_json_response ((py "```json" ++ [nl] ++ pj "{'depth': 7}" ++ [nl] ++ py "```")) = Ok (JObj {[ py "depth" := JInt 7 ]})
  /\ _clean_json_response (pj "Here you go: {'depth': 7} Thanks") = Ok (JObj {[ py "depth" := JInt 7 ]})
  /\ _clean_json_response (py "I cannot evaluate this.") = Ok (JObj ∅)
  /\ _clean_json_response (py "[1, 2]") = Ok (JArr [JInt 1; JInt 2]).
Proof. vm_compute. repeat split. Qed.

(** ** Backfilling defaults *)

Lemma fill_defaults_obj (defaults : list (str * json)) (d : gmap str json) :
  fill_defaults defaults (JObj d) = Ok (JObj (d ∪ list_to_map defaults)).
Proof.
  revert d. induction defaults as [|[k v] rest IH]; intros d; simpl.
  - by rewrite (right_id_L ∅ (∪)).
  - destruct (d !! k) as [x|] eqn:Hk.
    + rewrite bool_decide_eq_true_2 by done. rewrite IH. do 2 f_equal.
      apply map_eq. intros i. rewrite !lookup_union.
      destruct (decide (i = k)) as [->|Hne].
      * rewrite Hk, lookup_insert_eq. by destruct (list_to_map rest !! k).
      * by rewrite lookup_insert_ne.
    + rewrite bool_decide_eq_false_2 by (intros [? ?]; congruence).
      rewrite IH. do 2 f_equal. cbn [list_to_map foldr].
      rewrite <- insert_union_l. by apply insert_union_r.
Qed.

Lemma evaluation_defaults_lookup (k : str) :
  k ∈ dimensions ->
  (list_to_map evaluation_defaults : gmap str json) !! k = Some (JInt 5).
Proof.
  unfold dimensions. rewrite !elem_of_cons, elem_of_nil.
  intros [->|[->|[->|[->|[->|[->|[]]]]]]]; vm_compute; reflexivity.
Qed.

(** ** The turn evaluator *)

Lemma strip_all_space (s : str) : Forall (fun c => isspace c = true) s -> strip s = [].
Proof.
  intros H. assert (E : lstrip s = []).
  { induction H as [|c s Hc _ IH]; [done|]. simpl. by rewrite Hc. }
  unfold strip. by rewrite E.
Qed.

(** C3.  An empty or white-space-only answer gets the all-zero
    evaluation with summary "No answer provided", and the world is left
    as it was: the language model is not called. *)
Theorem C3_blank_answer_zero_evaluation (question answer : str) (w : world) :
  Forall (fun c => isspace c = true) answer ->
  exists d : gmap str json,
    evaluate_answer question answer w = (Ok (JObj d), w)
    /\ (forall k, k ∈ dimensions -> d !! k = Some (JInt 0))
    /\ d !! py "short_summary" = Some (JStr (py "No answer provided"))
    /\ llm_calls (snd (evaluate_answer question answer w)) = llm_calls w.
Proof.
  intros H. eexists. unfold evaluate_answer.
  assert (B : is_blank answer = true).
  { unfold is_blank. destruct answer; [done|]. by rewrite strip_all_space. }
  rewrite B. split; [reflexivity|]. split; [|split; [|done]].
  - unfold dimensions. intros k. rewrite !elem_of_cons, elem_of_nil.
    intros [->|[->|[->|[->|[->|[->|[]]]]]]]; vm_compute; reflexivity.
  - vm_compute. reflexivity.
Qed.

Lemma C3_blank_answer_witness :
  exists d : gmap str json,
    evaluate_answer (py "Why Go?") (py "   ")
      (World None (fun _ _ => None) (fun _ => 0%Z) (fun _ => []) (fun _ => []) [] 0 ∅ [] [])
    = (Ok (JObj d),
       World None (fun _ _ => None) (fun _ => 0%Z) (fun _ => []) (fun _ => []) [] 0 ∅ [] [])
    /\ (forall k, k ∈ dimensions -> d !! k = Some (JInt 0))
    /\ d !! py "short_summary" = Some (JStr (py "No answer provided"))
    /\ llm_calls (snd (evaluate_answer (py "Why Go?") (py "   ")
         (World None (fun _ _ => None) (fun _ => 0%Z) (fun _ => []) (fun _ => []) [] 0 ∅ [] [])))
       = [].
Proof.
  apply (C3_blank_answer_zero_evaluation (py "Why Go?") (py "   ")).
  repeat constructor.
Defined.

(** What a call to the evaluator does when the reply parses to an
    object. *)
Lemma evaluate_answer_object (question answer response : str) (w : world)
    (d : gmap str json) :
  is_blank answer = false ->
  llm w (length (llm_calls w)) (evaluator_request question answer) = Some response ->
  _clean_json_response response = Ok (JObj d) ->
  evaluate_answer question answer w
  = (Ok (JObj (d ∪ list_to_map evaluation_defaults)),
     set_llm_calls (fun calls => calls ++ [evaluator_request question answer]) w).
Proof.
  intros B L P. unfold evaluate_answer. rewrite B.
  unfold bind, ainvoke, lift. rewrite L, P. by rewrite fill_defaults_obj.
Qed.




(** C10 as stated fails: the evaluator keeps whatever the reply carries
    for a dimension; here a relevance of 85 and a fractional depth. *)
Lemma C10_dimension_range_counterexample :
  exists (question answer : str) (w : world) (ev : json),
    is_blank answer = false
    /\ fst (evaluate_answer question answer w) = Ok ev
    /\ ~ valid_evaluation ev.
Proof.
  exists (py "Why Go?"), (py "It is simple."),
    (scripted (pj "{'relevance': 85, 'depth': 7.5}") 0 0).
  eexists. split; [reflexivity|]. split.
  - rewrite (evaluate_answer_object _ _ (pj "{'relevance': 85, 'depth': 7.5}") _
               {[ py "relevance" := JInt 85;
                  py "depth" := JFloat (S754_finite false 8444249301319680 (-50)) ]});
      [reflexivity| | |]; vm_compute; reflexivity.
  - intros (d & [= <-] & H).
    destruct (H (py "relevance")) as (v & Hv & Hok); [unfold dimensions; set_solver|].
    vm_compute in Hv. injection Hv as <-. discriminate Hok.
Qed.

(** C10 (amended).  For a reply that parses to an object, each of the
    six dimensions of the evaluation is the value the object gives it,
    or 5 when the object lacks it; the values are not checked, so the
    dimensions are integers between 0 and 10 exactly when every
    dimension present in the object is. *)
Theorem C10_dimensions_as_replied (question answer response : str) (w : world)
    (d : gmap str json) :
  is_blank answer = false ->
  llm w (length (llm_calls w)) (evaluator_request question answer) = Some response ->
  _clean_json_response response = Ok (JObj d) ->
  exists d' : gmap str json,
    fst (evaluate_answer question answer w) = Ok (JObj d')
    /\ (forall k, k ∈ dimensions -> d' !! k = Some (default (JInt 5) (d !! k)))
    /\ (valid_evaluation (JObj d') <->
        forall k v, k ∈ dimensions -> d !! k = Some v -> score_ok v = true).
Proof.
  intros B L P. rewrite (evaluate_answer_object _ _ _ _ _ B L P).
  eexists. split; [reflexivity|].
  assert (Hdim : forall k, k ∈ dimensions ->
            (d ∪ list_to_map evaluation_defaults) !! k = Some (default (JInt 5) (d !! k))).
  { intros k Hk. destruct (d !! k) as [v|] eqn:Hd; simpl.
    - by apply lookup_union_Some_l.
    - rewrite lookup_union_r by done. by apply evaluation_defaults_lookup. }
  split; [exact Hdim|]. split.
  - intros (d0 & [= <-] & H) k v Hk Hd.
    destruct (H k Hk) as (v' & Hv' & Hok). rewrite Hdim, Hd in Hv' by done.
    simpl in Hv'. congruence.
  - intros H. eexists. split; [reflexivity|]. intros k Hk.
    eexists. split; [by apply Hdim|].
    destruct (d !! k) as [v|] eqn:Hd; simpl; [by eapply H|done].
Qed.

Lemma C10_dimensions_as_replied_witness :
  exists d' : gmap str json,
    fst (evaluate_answer (py "Why Go?") (py "It is simple.")
           (scripted (pj "{'relevance': 7, 'clarity': 8}") 0 0)) = Ok (JObj d')
    /\ (forall k, k ∈ dimensions ->
        d' !! k = Some (default (JInt 5)
          (({[ py "relevance" := JInt 7; py "clarity" := JInt 8 ]} : gmap str json) !! k)))
    /\ (valid_evaluation (JObj d') <->
        forall k v, k ∈ dimensions ->
          ({[ py "relevance" := JInt 7; py "clarity" := JInt 8 ]} : gmap str json) !! k = Some v ->
          score_ok v = true).
Proof.
  apply (C10_dimensions_as_replied (py "Why Go?") (py "It is simple.")
           (pj "{'relevance': 7, 'clarity': 8}")); vm_compute; reflexivity.
Defined.

(** ** The scorecard aggregator *)



(** A reply that claims 999 minutes, 301 seconds after the start: the
    scorecard says 5.0. *)
Example generate_summary_overrides_reply :
  exists d : gmap str json,
    fst (generate_summary (py "Candidate: Ann") (py "Go developer") [] 0
           (scripted (pj "{'time_taken_minutes': 999, 'overall_score': 8}") 301000 0))
    = Ok (JObj d)
    /\ d !! py "time_taken_minutes" = Some (JFloat (PyFloat.of_ratio false 50 10))
    /\ d !! py "overall_score" = Some (JInt 8)
    /\ d !! py "resume_match_percentage" = Some (JInt 50).
Proof. eexists. split; [vm_compute; reflexivity|]. vm_compute. repeat split. Qed.



(** ** The answer endpoint *)

Section monad_facts.
Context {A B : Type}.

Lemma bind_ok (m : M A) (k : A -> M B) (w w' : world) (b : B) :
  bind m k w = (Ok b, w') ->
  exists a w1, m w = (Ok a, w1) /\ k a w1 = (Ok b, w').
Proof.
  unfold bind. destruct (m w) as [[a|e] w1]; [|done]. intros H. by exists a, w1.
Qed.

Lemma lift_ok (r : result A) (w w' : world) (a : A) :
  lift r w = (Ok a, w') -> r = Ok a /\ w' = w.
Proof. unfold lift. by intros [= -> ->]. Qed.

Lemma ret_ok (x a : A) (w w' : world) : ret x w = (Ok a, w') -> a = x /\ w' = w.
Proof. unfold ret. by intros [= -> ->]. Qed.

Lemma http_errors_ok (m : M A) (w w' : world) (a : A) :
  http_errors m w = (Ok a, w') -> m w = (Ok a, w').
Proof.
  unfold http_errors. destruct (m w) as [[x|e] w1]; [done|]. by destruct e.
Qed.
End monad_facts.

(** Take one step of a run that ended well. *)
Tactic Notation "step" hyp(H) "as" ident(a) ident(w1) ident(H1) :=
  apply bind_ok in H as (a & w1 & H1 & H).

(** Project the fields of an updated world. *)
Ltac world_simpl :=
  cbn [env_max_duration llm time_ms new_id py_str llm_calls clock_reads
       sessions answers questions
       set_llm_calls set_clock_reads set_sessions set_answers set_questions] in *.

Lemma same_store_refl w : same_store w w.
Proof. done. Qed.

Lemma same_store_trans w1 w2 w3 : same_store w1 w2 -> same_store w2 w3 -> same_store w1 w3.
Proof. unfold same_store. intros (?&?&?) (?&?&?). repeat split; congruence. Qed.

Lemma ainvoke_store req w r w' : ainvoke req w = (r, w') -> same_store w w'.
Proof. unfold ainvoke. destruct (llm w _ _); by intros [= <- <-]. Qed.

Lemma now_ms_store w r w' : now_ms w = (r, w') -> same_store w w'.
Proof. unfold now_ms. by intros [= <- <-]. Qed.

Lemma evaluate_answer_store question answer w r w' :
  evaluate_answer question answer w = (r, w') -> same_store w w'.
Proof.
  unfold evaluate_answer. destruct (is_blank answer); [by intros [= <- <-]|].
  unfold bind. destruct (ainvoke _ w) as [[response|e] w1] eqn:Hc.
  - apply ainvoke_store in Hc. unfold lift.
    destruct (_clean_json_response response); by intros [= <- <-].
  - apply ainvoke_store in Hc. by intros [= <- <-].
Qed.

Lemma generate_summary_store resume jd history start w r w' :
  generate_summary resume jd history start w = (r, w') -> same_store w w'.
Proof.
  unfold generate_summary, bind. destruct (now_ms w) as [[t|e] w1] eqn:Hn.
  2:{ apply now_ms_store in Hn. by intros [= <- <-]. }
  apply now_ms_store in Hn.
  destruct (ainvoke _ w1) as [[response|e] w2] eqn:Hc; apply ainvoke_store in Hc.
  2:{ intros [= <- <-]. by eapply same_store_trans. }
  unfold lift. intros H. apply (same_store_trans _ w1); [done|].
  apply (same_store_trans _ w2); [done|].
  destruct (_clean_json_response response); [|by injection H as <- <-].
  destruct (minutes_taken _); [|by injection H as <- <-].
  destruct (setitem _ _ _); by injection H as <- <-.
Qed.

Lemma run_interviewer_store resume jd phase history stop msgs w r w' :
  run_interviewer resume jd phase history stop msgs w = (r, w') -> same_store w w'.
Proof.
  unfold run_interviewer, bind. destruct (ainvoke _ w) as [[response|e] w1] eqn:Hc;
    apply ainvoke_store in Hc; unfold lift; by intros [= <- <-].
Qed.


(** What [read_turn] has established when it returns: the session
    exists, the store is untouched, the time-based stop signal compares
    the elapsed time with the ceiling, and the driver's stop signal is
    the [stop_interview] field of the object it replied with. *)
Lemma read_turn_ok req w st w1 :
  read_turn req w = (Ok st, w1) ->
  same_store w w1
  /\ exists sess now (d : gmap str json),
       sessions w !! session_id req = Some sess
       /\ session_data st = sess
       /\ transcript st = full_transcript sess
       /\ start_time_ms st = default (time_ms w (clock_reads w)) (started_at sess)
       /\ now = time_ms w (match started_at sess with
                           | Some _ => clock_reads w
                           | None => S (clock_reads w)
                           end)
       /\ time_expired st
          = time_expired_at (start_time_ms st) now (MAX_INTERVIEW_DURATION_MS w)
       /\ ai_stop st = default (JBool false) (d !! py "stop_interview")
       /\ ai_question st = default (JStr []) (d !! py "question")
       /\ ai_feedback st = default (JStr []) (d !! py "feedback").
Proof.
  unfold read_turn. intros H. step H as found w0 Hfound.
  unfold get_session in Hfound. injection Hfound as <- <-.
  destruct (sessions w !! session_id req) as [sess|] eqn:Hs; [|done].
  step H as previous wa Hprev. unfold get_answers_for_session in Hprev.
  injection Hprev as <- <-.
  step H as start wb Hstart. step H as now wc Hnow.
  unfold now_ms in Hnow. injection Hnow as <- <-.
  step H as maxd wd Hmax. injection Hmax as <- <-.
  step H as response we Hai. apply run_interviewer_store in Hai as Hst.
  step H as q wf Hq. apply lift_ok in Hq as [Hq ->].
  step H as f wg Hf. apply lift_ok in Hf as [Hf ->].
  step H as stop wh Hstop. apply lift_ok in Hstop as [Hstop ->].
  apply ret_ok in H as [-> ->].
  destruct response as [| | | | | |d]; try done.
  injection Hq as <-. injection Hf as <-. injection Hstop as <-.
  assert (Hw0 : same_store w wb
                /\ start = default (time_ms w (clock_reads w)) (started_at sess)
                /\ time_ms wb (clock_reads wb)
                   = time_ms w (match started_at sess with
                                | Some _ => clock_reads w
                                | None => S (clock_reads w)
                                end)
                /\ MAX_INTERVIEW_DURATION_MS wb = MAX_INTERVIEW_DURATION_MS w).
  { destruct (started_at sess) as [t|].
    - apply ret_ok in Hstart as [-> ->]. done.
    - unfold now_ms in Hstart. injection Hstart as <- <-. done. }
  destruct Hw0 as (Hst0 & Ha & Hnow & Hmax).
  split.
  - eapply same_store_trans; [exact Hst0|]. exact Hst.
  - exists sess, (time_ms wb (clock_reads wb)), d. cbn.
    rewrite <- Hnow. repeat split; try done. by rewrite <- Hmax.
Qed.

Lemma store_answer_ok sid q a ev qid w w' :
  store_answer sid q a ev qid w = (Ok tt, w') ->
  w' = set_answers (fun rows => rows ++ [AnswerRow sid q a ev (if_set qid)]) w.
Proof.
  unfold store_answer. intros H. step H as scores w1 Hs. apply lift_ok in Hs as [_ ->].
  destruct (forallb is_number scores); [|done]. by injection H as <-.
Qed.

Lemma complete_session_ok sid summary w w' :
  complete_session sid summary w = (Ok tt, w') ->
  answers w' = answers w
  /\ forall sess, sessions w !! sid = Some sess ->
       exists sess', sessions w' !! sid = Some sess'
         /\ status sess' = py "completed"
         /\ full_transcript sess' = full_transcript sess.
Proof.
  unfold complete_session. intros H.
  repeat (let v := fresh "v" in let w1 := fresh "w" in let Hv := fresh "Hv" in
          step H as v w1 Hv; apply lift_ok in Hv as [_ ->]).
  injection H as <-. split; [done|]. intros sess Hs. cbn.
  rewrite lookup_alter_eq, Hs. cbn. eexists. by repeat split.
Qed.

Opaque AI_TAG CANDIDATE_TAG QID_TAG.

(** What [finish_turn] has done when it returns: one answer row was
    added, the stored transcript is the old one with the candidate line
    (and, when the interview goes on, the next question) appended, and
    the reply is the scorecard exactly when a stop signal was set. *)
Lemma finish_turn_ok req st w w' reply :
  finish_turn req st w = (Ok reply, w') ->
  exists (ev : json) (t extra : str),
    answers w' = answers w ++
      [AnswerRow (session_id req) (last_question st) (answer_text req) ev
         (if_set (last_question_id st))]
    /\ transcript st = Some t
    /\ (forall sess, sessions w !! session_id req = Some sess ->
          exists sess', sessions w' !! session_id req = Some sess'
            /\ full_transcript sess'
               = Some (t ++ CANDIDATE_TAG ++ answer_text req ++ [nl] ++ extra)
            /\ (should_stop st = true -> status sess' = py "completed"))
    /\ (if should_stop st
        then exists summary, reply = Completed summary
        else reply = Running (ai_question st) (ai_feedback st)).
Proof.
  unfold finish_turn. intros H.
  step H as ev w1 Hev. apply evaluate_answer_store in Hev as (Hs1 & Ha1 & _).
  step H as u1 w2 Hstore. destruct u1. apply store_answer_ok in Hstore as ->.
  step H as t w3 Ht. apply lift_ok in Ht as [Ht ->].
  destruct (transcript st) as [t0|] eqn:Htr; [|done]. injection Ht as ->.
  step H as updated w4 Hup.
  assert (Hw4 : sessions w4 = sessions w /\ answers w4 = answers w ++
            [AnswerRow (session_id req) (last_question st) (answer_text req) ev
               (if_set (last_question_id st))]
          /\ exists extra, updated = t ++ CANDIDATE_TAG ++ answer_text req ++ [nl] ++ extra
               /\ (should_stop st = true -> extra = [])).
  { destruct (truthy (ai_question st) && negb (should_stop st)) eqn:Hc.
    - step Hup as qid w5 Hq. unfold create_interview_question in Hq.
      injection Hq as <- <-. injection Hup as <- <-. world_simpl. rewrite Hs1, Ha1.
      repeat split; try done. eexists. split.
      + rewrite <- !app_assoc. reflexivity.
      + apply andb_true_iff in Hc as [_ Hc]. apply negb_true_iff in Hc. congruence.
    - apply ret_ok in Hup as [-> ->]. world_simpl. rewrite Hs1, Ha1.
      repeat split; try done. exists []. by rewrite !app_nil_r. }
  destruct Hw4 as (Hs4 & Ha4 & extra & -> & Hextra).
  step H as u2 w5 Hupd. unfold update_session_transcript in Hupd. injection Hupd as <- <-.
  destruct (should_stop st) eqn:Hstop.
  - step H as summary w6 Hsum. apply generate_summary_store in Hsum as (Hs6 & Ha6 & _).
    step H as u3 w7 Hdone. destruct u3.
    apply complete_session_ok in Hdone as (Ha7 & Hs7).
    apply ret_ok in H as [-> ->].
    exists ev, t, extra. split; [by rewrite Ha7, Ha6|]. split; [done|]. split; [|by eexists].
    intros sess Hsess.
    destruct (Hs7 (with_transcript (t ++ CANDIDATE_TAG ++ answer_text req ++ [nl] ++ extra) sess))
      as (sess' & Hl & Hst' & Hft).
    { rewrite Hs6. world_simpl. by rewrite lookup_alter_eq, Hs4, Hsess. }
    exists sess'. by repeat split.
  - apply ret_ok in H as [-> ->].
    exists ev, t, extra. world_simpl. split; [done|]. split; [done|]. split; [|done].
    intros sess Hsess. eexists. rewrite lookup_alter_eq, Hs4, Hsess. world_simpl.
    by repeat split.
Qed.

(** *** Which errors the endpoint can report *)

Section internal_errors.
Context {A B : Type}.


Lemma ri_lift (r : result A) : fails_internal r -> raises_internal (lift r).
Proof. intros H w e w' [= -> _]. by apply H. Qed.

Lemma ri_bind (m : M A) (k : A -> M B) :
  raises_internal m -> (forall a, raises_internal (k a)) -> raises_internal (bind m k).
Proof.
  intros Hm Hk w e w'. unfold bind. destruct (m w) as [[a|e0] w1] eqn:E.
  - apply Hk.
  - intros [= <- <-]. by eapply Hm.
Qed.
End internal_errors.

(** Close a goal [fails_internal (f ...)] for a function made of case
    distinctions. *)
Ltac fails_by_cases :=
  intros ? ?; repeat case_match; simplify_eq; done.

Lemma fi_dict_get k dflt v : fails_internal (dict_get k dflt v).
Proof. unfold dict_get. fails_by_cases. Qed.

Lemma fi_setitem k x v : fails_internal (setitem k x v).
Proof. unfold setitem. fails_by_cases. Qed.

Lemma fi_clean_json_response text : fails_internal (_clean_json_response text).
Proof. unfold _clean_json_response. cbv zeta. fails_by_cases. Qed.

Lemma fi_fill_defaults defaults res : fails_internal (fill_defaults defaults res).
Proof.
  revert res. induction defaults as [|[k v] rest IH]; intros res e; simpl; [done|].
  unfold py_in, setitem. repeat case_match; simplify_eq;
    try apply IH; by intros [= <-].
Qed.

Lemma fi_minutes_taken ms : fails_internal (minutes_taken ms).
Proof.
  unfold minutes_taken, PyFloat.int_truediv, PyFloat.truediv_int, PyFloat.of_int.
  fails_by_cases.
Qed.

Lemma fi_duration_seconds v : fails_internal (duration_seconds v).
Proof.
  unfold duration_seconds, PyFloat.mul_int, PyFloat.of_int, PyFloat.to_int.
  fails_by_cases.
Qed.

Lemma fi_recommendation_of v : fails_internal (recommendation_of v).
Proof. unfold recommendation_of. fails_by_cases. Qed.


Lemma ri_ainvoke req : raises_internal (ainvoke req).
Proof. intros w e w'. unfold ainvoke. destruct (llm w _ _); by intros [= <- _]. Qed.

Lemma ri_now_ms : raises_internal now_ms.
Proof. by intros w e w'. Qed.


Lemma ri_generate_summary resume jd history start :
  raises_internal (generate_summary resume jd history start).
Proof.
  unfold generate_summary.
  apply ri_bind; [apply ri_now_ms|]. intros t.
  apply ri_bind; [apply ri_ainvoke|]. intros response.
  apply ri_bind; [apply ri_lift, fi_clean_json_response|]. intros res.
  apply ri_bind; [apply ri_lift, fi_minutes_taken|]. intros m.
  apply ri_bind; [apply ri_lift, fi_setitem|]. intros res'.
  apply ri_lift, fi_fill_defaults.
Qed.


Lemma ri_complete_session sid summary : raises_internal (complete_session sid summary).
Proof.
  unfold complete_session.
  repeat (apply ri_bind;
          [apply ri_lift;
           first [apply fi_dict_get | apply fi_duration_seconds | apply fi_recommendation_of]
          |intros ?]).
  by intros w e w'.
Qed.






(** Name the value a run on concrete data returns, leaving the final
    world as it is written. *)
Lemma run_pair {A} (m : result A * world) (v : A) : fst m = Ok v -> m = (Ok v, snd m).
Proof. destruct m as [r w]. cbn [fst snd]. by intros ->. Qed.

Ltac run_ok F E m :=
  let r := eval vm_compute in (fst m) in
  lazymatch r with
  | Ok ?v =>
      assert (F : fst m = Ok v) by (vm_compute; reflexivity);
      pose proof (run_pair m v F) as E
  end.

(** The same for a run that ends the interview, the scorecard named
    by [summary_of]. *)
Ltac run_completed F E m :=
  assert (F : fst m = Ok (Completed (summary_of m))) by (vm_compute; reflexivity);
  pose proof (run_pair m (Completed (summary_of m)) F) as E.


(** *** A failed call does not end the session *)

Lemma complete_session_failure sid summary w e w' :
  complete_session sid summary w = (Raise e, w') -> w' = w.
Proof.
  unfold complete_session, bind, lift.
  repeat (match goal with
          | |- context [match ?r with Ok _ => _ | Raise _ => _ end] =>
              destruct r; [|by intros [= _ <-]]
          end).
  done.
Qed.






(** The same session 301 seconds after its start: the driver does not
    ask to stop, the clock does, and the reply is the scorecard. *)
Example handle_answer_time_expired :
  exists summary : gmap str json,
    fst (handle_answer demo_request (demo_world (py "started") 301000))
    = Ok (Completed (JObj summary))
    /\ summary !! py "time_taken_minutes" = Some (JFloat (PyFloat.of_ratio false 50 10))
    /\ summary !! py "final_recommendation" = Some (JStr (py "Moderate Fit"))
    /\ (ai_recommendation <$>
          sessions (snd (handle_answer demo_request (demo_world (py "started") 301000)))
            !! py "s-1") = Some (Some (py "hire"))
    /\ (status <$>
          sessions (snd (handle_answer demo_request (demo_world (py "started") 301000)))
            !! py "s-1") = Some (py "completed").
Proof. eexists. split; [vm_compute; reflexivity|]. vm_compute. repeat split. Qed.



(* ================================================================== *)
(** * Part III. Further properties of the code                         *)
(* ================================================================== *)

(** ** More on strings *)

Lemma lstrip_app_visible (x y : str) :
  existsb (fun c => negb (isspace c)) x = true -> lstrip (x ++ y) = lstrip x ++ y.
Proof.
  induction x as [|c x IH]; [done|]. cbn [existsb app lstrip].
  destruct (isspace c); [|done]. cbn [negb orb]. exact IH.
Qed.

Lemma rstrip_visible (p q : str) : ends_visible q = true -> rstrip (p ++ q) = p ++ q.
Proof.
  unfold ends_visible. destruct q as [|c q _] using rev_ind; [done|].
  rewrite last_snoc. intros H%negb_true_iff. rewrite app_assoc.
  by apply rstrip_snoc_solid.
Qed.

Lemma split_snoc (sep : N) (u l : str) :
  sep ∉ l -> split sep (u ++ sep :: l) = split sep u ++ [l].
Proof.
  intros Hl. induction u as [|a u IH]; cbn [app split].
  - by rewrite N.eqb_refl, split_no_sep.
  - rewrite IH. destruct (a =? sep)%N; [done|].
    pose proof (split_not_nil sep u). by destruct (split sep u).
Qed.

Lemma strip_leading_space (c : N) (s : str) : isspace c = true -> strip (c :: s) = strip s.
Proof. intros H. unfold strip. cbn [lstrip]. by rewrite H. Qed.

(** Prove that a literal holds no newline. *)
Ltac no_newline :=
  let H := fresh in intros H%list_elem_of_In; vm_compute in H; intuition discriminate.

Lemma not_in_app (c : N) (x y : str) : c ∉ x -> c ∉ y -> c ∉ x ++ y.
Proof. intros Hx Hy [H|H]%elem_of_app; [by apply Hx|by apply Hy]. Qed.

(** ** The opening transcript is read back *)

Lemma start_transcript_lines (name jd qid greeting : str) :
  start_transcript name jd qid greeting
  = (py "[SYSTEM] Resume parsed for: " ++ name) ++ nl ::
    (py "[SYSTEM] Job description: " ++ jd) ++ nl ::
    (QID_TAG ++ qid) ++ nl :: (AI_TAG ++ greeting) ++ [nl].
Proof. unfold start_transcript. by rewrite <- !app_assoc. Qed.

Lemma prefixed_line_value (prefix rest : str) :
  prefix <> [] -> contains prefix rest = false ->
  replace prefix [] (prefix ++ rest) = rest.
Proof. intros Hp Hc. rewrite replace_prefix by done. by apply replace_absent. Qed.

(** X1.  [_extract_resume_context] and [_extract_job_description] read
    back, trimmed, the candidate name and the job description that
    [start_interview] wrote, as long as neither holds a newline or the
    marker of its own line. *)
Theorem start_context_read_back (name jd qid greeting : str) :
  nl ∉ name -> nl ∉ jd ->
  contains (py "[SYSTEM] Resume parsed for:") name = false ->
  contains (py "[SYSTEM] Job description:") jd = false ->
  _extract_resume_context (Some (start_transcript name jd qid greeting))
  = py "Candidate: " ++ strip name
  /\ _extract_job_description (Some (start_transcript name jd qid greeting))
     = strip jd.
Proof.
  intros Hn Hj Hcn Hcj.
  assert (H1 : nl ∉ py "[SYSTEM] Resume parsed for: " ++ name)
    by (apply not_in_app; [no_newline|done]).
  assert (H2 : nl ∉ py "[SYSTEM] Job description: " ++ jd)
    by (apply not_in_app; [no_newline|done]).
  assert (Hsplit : exists rest,
    split nl (start_transcript name jd qid greeting)
    = (py "[SYSTEM] Resume parsed for: " ++ name)
      :: (py "[SYSTEM] Job description: " ++ jd) :: rest).
  { rewrite start_transcript_lines, split_app_sep, split_app_sep by done. by eexists. }
  destruct Hsplit as [rest Hsplit].
  assert (Hne : exists c r, start_transcript name jd qid greeting = c :: r)
    by (eexists _, _; reflexivity).
  destruct Hne as (c & r & Hne).
  unfold _extract_resume_context, _extract_job_description.
  rewrite Hne, <- Hne, Hsplit. cbn [first_with_prefix].
  change (py "[SYSTEM] Resume parsed for: " ++ name)
    with (py "[SYSTEM] Resume parsed for:" ++ 32%N :: name).
  change (py "[SYSTEM] Job description: " ++ jd)
    with (py "[SYSTEM] Job description:" ++ 32%N :: jd).
  rewrite (startswith_app (py "[SYSTEM] Resume parsed for:")).
  replace (startswith (py "[SYSTEM] Resume parsed for:" ++ 32%N :: name)
             (py "[SYSTEM] Job description:")) with false by (vm_compute; reflexivity).
  rewrite (startswith_app (py "[SYSTEM] Job description:")).
  rewrite !prefixed_line_value; try done;
    try (by rewrite !strip_leading_space);
    cbn [contains]; rewrite ?Hcj, ?Hcn; vm_compute; reflexivity.
Qed.

Lemma start_context_read_back_witness :
  _extract_resume_context
    (Some (start_transcript (py "Ann Lee ") (py "Go developer") (py "q-0")
             (greeting_for (py "Ann Lee "))))
  = py "Candidate: " ++ strip (py "Ann Lee ")
  /\ _extract_job_description
       (Some (start_transcript (py "Ann Lee ") (py "Go developer") (py "q-0")
                (greeting_for (py "Ann Lee "))))
     = strip (py "Go developer").
Proof.
  apply start_context_read_back; try no_newline; vm_compute; reflexivity.
Defined.

Lemma strip_lines_last (p q : str) (c : N) :
  isspace c = false -> ends_visible q = true ->
  strip ((c :: p) ++ q ++ [nl]) = (c :: p) ++ q.
Proof.
  intros Hc Hq. unfold strip. cbn [app lstrip]. rewrite Hc.
  change (c :: p ++ q ++ [nl]) with ((c :: p) ++ q ++ [nl]).
  rewrite (app_assoc (c :: p)), rstrip_snoc_space by done.
  by apply rstrip_visible.
Qed.

Lemma ends_visible_app (p q : str) : ends_visible q = true -> ends_visible (p ++ q) = true.
Proof.
  unfold ends_visible. destruct q as [|c q _] using rev_ind; [done|].
  by rewrite app_assoc, !last_snoc.
Qed.

Lemma strip_block (x q : str) (c : N) :
  head x = Some c -> isspace c = false -> ends_visible q = true ->
  strip (x ++ q ++ [nl]) = x ++ q.
Proof.
  destruct x as [|c' x]; [done|]. intros [= ->] Hc Hq. by apply strip_lines_last.
Qed.

Lemma four_lines_last (l1 l2 l3 l4 : str) :
  l1 ++ nl :: l2 ++ nl :: l3 ++ nl :: l4 ++ [nl]
  = (l1 ++ nl :: l2 ++ nl :: l3 ++ [nl]) ++ l4 ++ [nl].
Proof.
  rewrite <- app_assoc. cbn [app]. do 2 f_equal.
  rewrite <- app_assoc. cbn [app]. do 2 f_equal.
  rewrite <- app_assoc. reflexivity.
Qed.

Lemma four_lines_split (l1 l2 l3 l4 : str) :
  nl ∉ l1 -> nl ∉ l2 -> nl ∉ l3 -> nl ∉ l4 ->
  split nl ((l1 ++ nl :: l2 ++ nl :: l3 ++ [nl]) ++ l4) = [l1; l2; l3; l4].
Proof.
  intros H1 H2 H3 H4.
  replace ((l1 ++ nl :: l2 ++ nl :: l3 ++ [nl]) ++ l4)
    with (l1 ++ nl :: (l2 ++ nl :: (l3 ++ nl :: l4))).
  - by rewrite !split_app_sep, split_no_sep.
  - rewrite <- app_assoc. cbn [app]. do 2 f_equal.
    rewrite <- app_assoc. cbn [app]. do 2 f_equal.
    rewrite <- app_assoc. reflexivity.
Qed.

(** X2.  The transcript [start_interview] wrote is read back as a
    history of exactly one question, the greeting, with the greeting
    as the question being answered and its stored identifier, trimmed,
    as the current question id, as long as the candidate name, the job
    description, the identifier and the greeting hold no newline, the
    greeting and the identifier do not hold the tag of their own line,
    and the greeting ends in a character that is not white space. *)
Theorem start_history_read_back (name jd qid greeting : str) :
  nl ∉ name -> nl ∉ jd -> nl ∉ qid -> nl ∉ greeting ->
  contains AI_TAG greeting = false ->
  contains QID_TAG qid = false ->
  ends_visible greeting = true ->
  _build_history_from_transcript (Some (start_transcript name jd qid greeting))
  = [Turn question greeting]
  /\ last_question_of (Some (start_transcript name jd qid greeting)) = greeting
  /\ _extract_last_question_id (Some (start_transcript name jd qid greeting))
     = Some (strip qid).
Proof.
  intros Hn Hj Hq Hg Hcg Hcq Hvis.
  assert (H1 : nl ∉ py "[SYSTEM] Resume parsed for: " ++ name)
    by (apply not_in_app; [no_newline|done]).
  assert (H2 : nl ∉ py "[SYSTEM] Job description: " ++ jd)
    by (apply not_in_app; [no_newline|done]).
  assert (H3 : nl ∉ QID_TAG ++ qid) by (apply not_in_app; [no_newline|done]).
  assert (H4 : nl ∉ AI_TAG ++ greeting) by (apply not_in_app; [no_newline|done]).
  assert (Hlines :
    split nl (strip (start_transcript name jd qid greeting))
    = [py "[SYSTEM] Resume parsed for: " ++ name;
       py "[SYSTEM] Job description: " ++ jd;
       QID_TAG ++ qid; AI_TAG ++ greeting]).
  { rewrite start_transcript_lines, four_lines_last.
    rewrite (strip_block _ _ 91%N); [|reflexivity|reflexivity|by apply ends_visible_app].
    by apply four_lines_split. }
  assert (Hne : exists c r, start_transcript name jd qid greeting = c :: r)
    by (eexists _, _; reflexivity).
  destruct Hne as (c & r & Hne).
  unfold _build_history_from_transcript, last_question_of, _extract_last_question_id.
  rewrite Hne, <- Hne, Hlines. split; [|split].
  - cbn [flat_map].
    replace (history_of_line (py "[SYSTEM] Resume parsed for: " ++ name))
      with (@nil turn) by (vm_compute; reflexivity).
    replace (history_of_line (py "[SYSTEM] Job description: " ++ jd))
      with (@nil turn) by (vm_compute; reflexivity).
    replace (history_of_line (QID_TAG ++ qid))
      with (@nil turn) by (vm_compute; reflexivity).
    change (AI_TAG ++ greeting) with (transcript_line (Turn question greeting)).
    by rewrite history_of_transcript_line.
  - cbn [rev app first_ai_line].
    replace (startswith (AI_TAG ++ greeting) (py "[AI]")) with true
      by (vm_compute; reflexivity).
    by apply prefixed_line_value.
  - cbn [rev app first_qid].
    replace (startswith (AI_TAG ++ greeting) QID_TAG) with false
      by (vm_compute; reflexivity).
    rewrite startswith_app. by rewrite prefixed_line_value.
Qed.

Lemma start_history_read_back_witness :
  _build_history_from_transcript
    (Some (start_transcript (py "Ann") (py "Go developer") (py "q-0")
             (greeting_for (py "Ann"))))
  = [Turn question (greeting_for (py "Ann"))]
  /\ last_question_of
       (Some (start_transcript (py "Ann") (py "Go developer") (py "q-0")
                (greeting_for (py "Ann"))))
     = greeting_for (py "Ann")
  /\ _extract_last_question_id
       (Some (start_transcript (py "Ann") (py "Go developer") (py "q-0")
                (greeting_for (py "Ann"))))
     = Some (strip (py "q-0")).
Proof.
  apply start_history_read_back; try no_newline; vm_compute; reflexivity.
Defined.

(** ** Appending to the transcript *)

Lemma lstrip_ends (x : str) (c : N) :
  isspace c = false -> exists y, lstrip (x ++ [c]) = y ++ [c].
Proof.
  intros Hc. induction x as [|a x IH]; cbn [app lstrip].
  - rewrite Hc. by exists [].
  - destruct (isspace a); [exact IH|]. by exists (a :: x).
Qed.

Lemma visible_snoc (x : str) (c : N) :
  isspace c = false -> existsb (fun c => negb (isspace c)) (x ++ [c]) = true.
Proof. intros Hc. rewrite existsb_app. cbn. rewrite Hc. apply orb_true_r. Qed.

Lemma candidate_line_nonempty (x y : str) : exists c r, x ++ CANDIDATE_TAG ++ y = c :: r.
Proof.
  destruct x as [|c x]; [|by eexists _, _].
  destruct (tag_head answer) as [r Hr]. cbn [tag_of] in Hr. rewrite Hr. by eexists _, _.
Qed.

(** X3.  Appending a candidate line to a transcript appends one answer
    turn to the history and changes nothing before it, when the
    transcript is empty or ends in a newline after a character that is
    not white space, and the answer has no newline, does not hold the
    tag and ends in a character that is not white space. *)
Theorem history_after_answer (t a : str) :
  well_ended t = true ->
  nl ∉ a ->
  contains CANDIDATE_TAG a = false ->
  ends_visible a = true ->
  _build_history_from_transcript (Some (t ++ CANDIDATE_TAG ++ a ++ [nl]))
  = _build_history_from_transcript (Some t) ++ [Turn answer a].
Proof.
  intros Hw Hn Hc Hv.
  assert (Hline : nl ∉ CANDIDATE_TAG ++ a) by (apply not_in_app; [no_newline|done]).
  assert (Hturn : history_of_line (CANDIDATE_TAG ++ a) = [Turn answer a])
    by (by apply (history_of_transcript_line (Turn answer a))).
  destruct (candidate_line_nonempty t (a ++ [nl])) as (c0 & r0 & Hne).
  unfold _build_history_from_transcript at 1. rewrite Hne, <- Hne.
  unfold well_ended in Hw. destruct t as [|c t'] using rev_ind.
  - cbn [app]. destruct (tag_head answer) as [r Hr]. cbn [tag_of] in Hr.
    rewrite (strip_block CANDIDATE_TAG a 91%N); [|by rewrite Hr|done|done].
    by rewrite split_no_sep; cbn [flat_map]; rewrite ?Hturn, ?app_nil_r.
  - clear IHt'. rewrite rev_app_distr in Hw. cbn [rev app] in Hw.
    destruct (rev t') as [|c' r'] eqn:Hrev; [done|].
    apply andb_true_iff in Hw as [->%N.eqb_eq Hc']. apply negb_true_iff in Hc'.
    assert (Ht' : t' = rev r' ++ [c']).
    { rewrite <- (rev_involutive t'), Hrev. reflexivity. }
    set (x := rev r' ++ [c']) in *. subst t'.
    destruct (lstrip_ends (rev r') c' Hc') as [y Hy]. fold x in Hy.
    assert (Hvis : existsb (fun c => negb (isspace c)) x = true) by by apply visible_snoc.
    assert (Hold : strip (x ++ [nl]) = lstrip x).
    { unfold strip. rewrite lstrip_app_visible by done.
      rewrite rstrip_snoc_space by done. rewrite Hy. by apply rstrip_snoc_solid. }
    assert (Hnew : strip ((x ++ [nl]) ++ CANDIDATE_TAG ++ a ++ [nl])
                   = lstrip x ++ nl :: (CANDIDATE_TAG ++ a)).
    { unfold strip. rewrite <- app_assoc. rewrite lstrip_app_visible by done.
      cbn [app].
      replace (lstrip x ++ nl :: CANDIDATE_TAG ++ a ++ [nl])
        with ((lstrip x ++ nl :: CANDIDATE_TAG ++ a) ++ [nl])
        by (by rewrite <- !app_assoc; cbn [app]; rewrite <- !app_assoc).
      rewrite rstrip_snoc_space by done.
      change (lstrip x ++ nl :: CANDIDATE_TAG ++ a)
        with (lstrip x ++ [nl] ++ (CANDIDATE_TAG ++ a)).
      rewrite app_assoc. apply rstrip_visible. by apply ends_visible_app. }
    rewrite Hnew, split_snoc by done. rewrite flat_map_app. cbn [flat_map].
    rewrite Hturn, app_nil_r. f_equal.
    unfold _build_history_from_transcript.
    destruct (x ++ [nl]) as [|c1 r1] eqn:E; [by destruct x|].
    by rewrite Hold.
Qed.

Lemma history_after_answer_witness :
  _build_history_from_transcript
    (Some (demo_transcript ++ CANDIDATE_TAG ++ py "I build APIs in Go." ++ [nl]))
  = _build_history_from_transcript (Some demo_transcript)
    ++ [Turn answer (py "I build APIs in Go.")].
Proof.
  apply history_after_answer; try no_newline; vm_compute; reflexivity.
Defined.

(** What [handle_answer] appends when the interview goes on (the
    candidate line, the id line and the question line) is read back as
    the question being answered and its trimmed identifier, whatever
    the transcript and the answer before it hold. *)
Lemma next_question_read_back (t a qid q : str) :
  nl ∉ qid -> nl ∉ q ->
  contains AI_TAG q = false ->
  contains QID_TAG qid = false ->
  ends_visible q = true ->
  last_question_of
    (Some ((t ++ CANDIDATE_TAG ++ a ++ [nl]) ++ QID_TAG ++ qid ++ [nl] ++ AI_TAG ++ q ++ [nl]))
  = q
  /\ _extract_last_question_id
       (Some ((t ++ CANDIDATE_TAG ++ a ++ [nl]) ++ QID_TAG ++ qid ++ [nl] ++ AI_TAG ++ q ++ [nl]))
     = Some (strip qid).
Proof.
  intros Hnq Hn Hcq Hcid Hv.
  assert (H3 : nl ∉ QID_TAG ++ qid) by (apply not_in_app; [no_newline|done]).
  assert (H4 : nl ∉ AI_TAG ++ q) by (apply not_in_app; [no_newline|done]).
  set (P := t ++ CANDIDATE_TAG ++ a).
  assert (Hu : (t ++ CANDIDATE_TAG ++ a ++ [nl]) ++ QID_TAG ++ qid ++ [nl] ++ AI_TAG ++ q ++ [nl]
               = P ++ (nl :: (QID_TAG ++ qid) ++ [nl]) ++ (AI_TAG ++ q) ++ [nl]).
  { unfold P. rewrite <- !app_assoc. cbn [app]. by rewrite <- !app_assoc. }
  assert (Hvis : existsb (fun c => negb (isspace c)) P = true).
  { unfold P. rewrite existsb_app. destruct (tag_head answer) as [r Hr].
    cbn [tag_of] in Hr. rewrite Hr. cbn. apply orb_true_r. }
  assert (Hstrip : strip (P ++ (nl :: (QID_TAG ++ qid) ++ [nl]) ++ (AI_TAG ++ q) ++ [nl])
                   = (lstrip P ++ nl :: (QID_TAG ++ qid)) ++ nl :: (AI_TAG ++ q)).
  { unfold strip. rewrite lstrip_app_visible by done.
    rewrite !app_assoc. rewrite rstrip_snoc_space by done.
    rewrite rstrip_visible by done.
    rewrite <- !app_assoc. cbn [app]. by rewrite <- !app_assoc. }
  assert (Hlines : rev (split nl (strip (P ++ (nl :: (QID_TAG ++ qid) ++ [nl])
                                           ++ (AI_TAG ++ q) ++ [nl])))
                   = (AI_TAG ++ q) :: (QID_TAG ++ qid) :: rev (split nl (lstrip P))).
  { rewrite Hstrip, !split_snoc by done. by rewrite !rev_app_distr. }
  assert (Hne : exists c r, P ++ (nl :: (QID_TAG ++ qid) ++ [nl]) ++ (AI_TAG ++ q) ++ [nl]
                            = c :: r).
  { destruct P as [|c r]; [done|]. by eexists _, _. }
  destruct Hne as (c & r & Hne).
  rewrite Hu. unfold last_question_of, _extract_last_question_id.
  rewrite Hne, <- Hne, Hlines. cbn [first_ai_line first_qid]. split.
  - replace (startswith (AI_TAG ++ q) (py "[AI]")) with true by (vm_compute; reflexivity).
    by apply prefixed_line_value.
  - replace (startswith (AI_TAG ++ q) QID_TAG) with false by (vm_compute; reflexivity).
    rewrite startswith_app. by rewrite prefixed_line_value.
Qed.

(** ** The answer endpoint hands the next question over *)

Lemma same_oracles_refl w : same_oracles w w.
Proof. done. Qed.

Lemma same_oracles_trans w1 w2 w3 :
  same_oracles w1 w2 -> same_oracles w2 w3 -> same_oracles w1 w3.
Proof. unfold same_oracles. intros (?&?&?&?&?) (?&?&?&?&?). repeat split; congruence. Qed.

Lemma ainvoke_oracles req w r w' : ainvoke req w = (r, w') -> same_oracles w w'.
Proof. unfold ainvoke. destruct (llm w _ _); by intros [= <- <-]. Qed.

Lemma now_ms_oracles w r w' : now_ms w = (r, w') -> same_oracles w w'.
Proof. unfold now_ms. by intros [= <- <-]. Qed.

Lemma evaluate_answer_oracles question answer w r w' :
  evaluate_answer question answer w = (r, w') -> same_oracles w w'.
Proof.
  unfold evaluate_answer. destruct (is_blank answer); [by intros [= <- <-]|].
  unfold bind. destruct (ainvoke _ w) as [[response|e] w1] eqn:Hc;
    apply ainvoke_oracles in Hc; unfold lift.
  - destruct (_clean_json_response response); by intros [= <- <-].
  - by intros [= <- <-].
Qed.

Lemma read_turn_oracles req w st w1 :
  read_turn req w = (Ok st, w1) -> same_oracles w w1.
Proof.
  unfold read_turn. intros H. step H as found w0 Hfound.
  unfold get_session in Hfound. injection Hfound as <- <-.
  destruct (sessions w !! session_id req) as [sess|]; [|done].
  step H as previous wa Hprev. unfold get_answers_for_session in Hprev.
  injection Hprev as <- <-.
  step H as start wb Hstart. step H as now wc Hnow.
  apply now_ms_oracles in Hnow.
  step H as maxd wd Hmax. injection Hmax as <- <-.
  step H as response we Hai. unfold run_interviewer in Hai.
  step Hai as text wf Hcall. apply ainvoke_oracles in Hcall.
  apply lift_ok in Hai as [_ ->].
  step H as q wg Hq. apply lift_ok in Hq as [_ ->].
  step H as f wh Hf. apply lift_ok in Hf as [_ ->].
  step H as stop wi Hstop. apply lift_ok in Hstop as [_ ->].
  apply ret_ok in H as [_ ->].
  assert (same_oracles w wb).
  { destruct (started_at sess).
    - by apply ret_ok in Hstart as [_ ->].
    - by apply now_ms_oracles in Hstart. }
  eauto using same_oracles_trans.
Qed.

(** What [finish_turn] returns and stores when the interview goes on
    with a question. *)
Lemma finish_turn_running req st w w' q fb :
  finish_turn req st w = (Ok (Running q fb), w') ->
  truthy q = true ->
  q = ai_question st
  /\ questions w'
     = questions w ++ [QuestionRow (new_id w (length (questions w))) q
                         (if_set (template_id (session_data st)))]
  /\ exists t,
       transcript st = Some t
       /\ forall sess, sessions w !! session_id req = Some sess ->
            exists sess', sessions w' !! session_id req = Some sess'
              /\ full_transcript sess'
                 = Some ((t ++ CANDIDATE_TAG ++ answer_text req ++ [nl])
                         ++ QID_TAG ++ new_id w (length (questions w)) ++ [nl]
                         ++ AI_TAG ++ render w q ++ [nl]).
Proof.
  unfold finish_turn. intros H Hq.
  step H as ev w1 Hev. apply evaluate_answer_store in Hev as Hst1.
  apply evaluate_answer_oracles in Hev as Hor1.
  destruct Hst1 as (Hs1 & Ha1 & Hq1). destruct Hor1 as (_ & _ & _ & Hid1 & Hpy1).
  step H as u1 w2 Hstore. destruct u1. apply store_answer_ok in Hstore as ->.
  step H as t w3 Ht. apply lift_ok in Ht as [Ht ->].
  destruct (transcript st) as [t0|] eqn:Htr; [|done]. injection Ht as ->.
  step H as updated w4 Hup.
  step H as u2 w5 Hupd. unfold update_session_transcript in Hupd. injection Hupd as <- <-.
  destruct (should_stop st) eqn:Hstop.
  { step H as summary w6 Hsum. step H as u3 w7 Hdone. by apply ret_ok in H as [? _]. }
  apply ret_ok in H as [[= -> ->] ->]. rewrite Hq in Hup. cbn [negb andb] in Hup.
  step Hup as qid w5 Hcreate. unfold create_interview_question in Hcreate.
  injection Hcreate as <- <-. injection Hup as <- <-. world_simpl.
  split; [done|]. split; [by rewrite Hq1, Hid1|]. exists t. split; [done|].
  intros sess Hsess. eexists. rewrite lookup_alter_eq, Hs1, Hsess. cbn [fmap option_fmap option_map].
  split; [reflexivity|]. cbn [full_transcript with_transcript].
  unfold render. world_simpl. by rewrite Hq1, Hid1, Hpy1.
Qed.

(** X4.  When [handle_answer] replies "running" with a question text,
    the question has been stored under a new identifier and the stored
    transcript reads back that question as the one being answered, and
    that identifier (trimmed) as its id: these are what the next call
    evaluates against and attributes the answer to.  This needs a
    question and an identifier that hold no newline and not the tag of
    their own line, and a question that ends in a character that is
    not white space. *)
Theorem handle_answer_hands_over (req : AnswerRequest) (w w' : world)
    (sess : session_row) (q : str) (fb : json) :
  sessions w !! session_id req = Some sess ->
  handle_answer req w = (Ok (Running (JStr q) fb), w') ->
  nl ∉ new_id w (length (questions w)) ->
  contains QID_TAG (new_id w (length (questions w))) = false ->
  nl ∉ q ->
  contains AI_TAG q = false ->
  ends_visible q = true ->
  exists sess' : session_row,
    sessions w' !! session_id req = Some sess'
    /\ last_question_of (full_transcript sess') = q
    /\ _extract_last_question_id (full_transcript sess')
       = Some (strip (new_id w (length (questions w))))
    /\ questions w'
       = questions w ++ [QuestionRow (new_id w (length (questions w))) (JStr q)
                           (if_set (template_id sess))].
Proof.
  intros Hs H Hid Hcid Hn Hc Hv.
  unfold handle_answer in H. apply http_errors_ok in H.
  step H as st w1 Hread. apply read_turn_oracles in Hread as Hor.
  apply read_turn_ok in Hread as ((Hs1 & _ & Hq1) & sess0 & _ & _ & Hs0 & Hsd & _).
  assert (sess0 = sess) as -> by congruence.
  destruct Hor as (_ & _ & _ & Hid1 & _).
  assert (Htruthy : truthy (JStr q) = true) by (by destruct q).
  apply finish_turn_running in H as (_ & Hqs & t & Ht & Hsess); [|done].
  destruct (Hsess sess) as (sess' & Hl & Hft); [by rewrite Hs1|].
  rewrite Hq1, Hid1, Hsd in *. cbn [render] in Hft.
  exists sess'. rewrite Hft. split; [done|].
  destruct (next_question_read_back t (answer_text req)
              (new_id w (length (questions w))) q) as [H1 H2]; try done.
Qed.

Lemma handle_answer_hands_over_witness :
  exists sess' : session_row,
    sessions (snd (handle_answer demo_request (demo_world (py "started") 1000))) !! py "s-1"
    = Some sess'
    /\ last_question_of (full_transcript sess') = py "Thanks. Which databases have you used?"
    /\ _extract_last_question_id (full_transcript sess') = Some (strip (py "q-1"))
    /\ questions (snd (handle_answer demo_request (demo_world (py "started") 1000)))
       = [] ++ [QuestionRow (py "q-1") (JStr (py "Thanks. Which databases have you used?"))
                  (if_set (Some (py "tpl-1")))].
Proof.
  apply (handle_answer_hands_over demo_request (demo_world (py "started") 1000)
           (snd (handle_answer demo_request (demo_world (py "started") 1000)))
           (demo_session (py "started")) (py "Thanks. Which databases have you used?")
           (JStr (py "clear")));
    try no_newline; vm_compute; reflexivity.
Defined.

(** ** The scorecard and the completion write *)

(** What a returned scorecard is made of. *)
Lemma generate_summary_ok resume jd history start w sc w' :
  generate_summary resume jd history start w = (Ok sc, w') ->
  same_store w w'
  /\ exists (response : str) (d0 : gmap str json) (x : PyFloat.float),
       llm w (length (llm_calls w))
           (summary_request resume jd history start (time_ms w (clock_reads w)))
         = Some response
       /\ _clean_json_response response = Ok (JObj d0)
       /\ minutes_taken (time_ms w (clock_reads w) - start) = Ok x
       /\ sc = JObj (<[py "time_taken_minutes" := JFloat x]> d0
                     ∪ list_to_map summary_defaults).
Proof.
  intros H. split; [by eapply generate_summary_store|]. revert H.
  unfold generate_summary, bind, now_ms, ainvoke, lift.
  cbn [llm llm_calls set_clock_reads].
  destruct (llm w _ _) as [response|] eqn:L; [|done].
  destruct (_clean_json_response response) as [res|] eqn:P; [|done].
  destruct (minutes_taken _) as [x|] eqn:T; [|done].
  destruct res as [| | | | | |d0]; try done.
  cbn [setitem]. rewrite fill_defaults_obj. intros [= <- _].
  by exists response, d0, x.
Qed.

Lemma map_recommendation_code (rec : str) : _map_recommendation rec ∈ recommendation_codes.
Proof.
  unfold _map_recommendation, recommendation_codes. cbv zeta.
  repeat case_match; set_solver.
Qed.

(** X5.  A scorecard [generate_summary] returns has every required
    field; every field of the reply other than time_taken_minutes is
    kept as it is, and a field the reply lacks has its fixed default. *)
Theorem summary_fields_complete (resume jd : str) (history : list turn) (start : Z)
    (w : world) (sc : json) :
  fst (generate_summary resume jd history start w) = Ok sc ->
  exists (response : str) (d0 d : gmap str json),
    llm w (length (llm_calls w))
        (summary_request resume jd history start (time_ms w (clock_reads w)))
      = Some response
    /\ _clean_json_response response = Ok (JObj d0)
    /\ sc = JObj d
    /\ (forall k, k ∈ summary_defaults.*1 -> is_Some (d !! k))
    /\ (forall k v, k <> py "time_taken_minutes" -> d0 !! k = Some v -> d !! k = Some v)
    /\ (forall k, k <> py "time_taken_minutes" -> d0 !! k = None ->
          d !! k = (list_to_map summary_defaults : gmap str json) !! k).
Proof.
  destruct (generate_summary resume jd history start w) as [r w'] eqn:E.
  cbn [fst]. intros ->. apply generate_summary_ok in E as (_ & response & d0 & x & L & P & _ & ->).
  exists response, d0. eexists. repeat split; try done.
  - intros k Hk. rewrite lookup_union.
    destruct (decide (k = py "time_taken_minutes")) as [->|Hne].
    + rewrite lookup_insert_eq. by destruct (list_to_map summary_defaults !! _).
    + rewrite lookup_insert_ne by done.
      assert (Hd : is_Some ((list_to_map summary_defaults : gmap str json) !! k)).
      { revert Hk Hne. unfold summary_defaults. cbn [fmap list_fmap fst].
        rewrite !elem_of_cons, elem_of_nil.
        intros [->|[->|[->|[->|[->|[->|[->|[->|[]]]]]]]]] Hne; try done;
          vm_compute; eexists; reflexivity. }
      destruct Hd as [v Hv]. rewrite Hv. by destruct (d0 !! k).
  - intros k v Hne Hk. apply lookup_union_Some_l. by rewrite lookup_insert_ne.
  - intros k Hne Hk. rewrite lookup_union_r; [done|]. by rewrite lookup_insert_ne.
Qed.

Lemma summary_fields_complete_witness :
  exists (response : str) (d0 d : gmap str json),
    llm (scripted (pj "{'overall_score': 8, 'verdict': 'good'}") 301000 0) 0
        (summary_request (py "Candidate: Ann") (py "Go developer") [] 0 301000)
      = Some response
    /\ _clean_json_response response = Ok (JObj d0)
    /\ JObj (<[py "time_taken_minutes" := JFloat (PyFloat.of_ratio false 50 10)]>
               {[ py "overall_score" := JInt 8; py "verdict" := JStr (py "good") ]}
             ∪ list_to_map summary_defaults) = JObj d
    /\ (forall k, k ∈ summary_defaults.*1 -> is_Some (d !! k))
    /\ (forall k v, k <> py "time_taken_minutes" -> d0 !! k = Some v -> d !! k = Some v)
    /\ (forall k, k <> py "time_taken_minutes" -> d0 !! k = None ->
          d !! k = (list_to_map summary_defaults : gmap str json) !! k).
Proof.
  apply (summary_fields_complete (py "Candidate: Ann") (py "Go developer") [] 0
           (scripted (pj "{'overall_score': 8, 'verdict': 'good'}") 301000 0)).
  vm_compute. reflexivity.
Defined.

(** What [complete_session] writes when it succeeds. *)
Lemma complete_session_write sid summary w w' :
  complete_session sid summary w = (Ok tt, w') ->
  same_oracles w w' /\ llm_calls w' = llm_calls w /\ clock_reads w' = clock_reads w
  /\ answers w' = answers w /\ questions w' = questions w
  /\ exists (code : str) (f : session_row -> session_row),
       sessions w' = alter f sid (sessions w)
       /\ code ∈ recommendation_codes
       /\ forall r, status (f r) = py "completed"
                    /\ started_at (f r) = started_at r
                    /\ full_transcript (f r) = full_transcript r
                    /\ template_id (f r) = template_id r
                    /\ ai_recommendation (f r) = Some code.
Proof.
  unfold complete_session. intros H.
  step H as skill w1 H1. apply lift_ok in H1 as [_ ->].
  step H as minutes w1 H1. apply lift_ok in H1 as [_ ->].
  step H as seconds w1 H1. apply lift_ok in H1 as [_ ->].
  step H as overall w1 H1. apply lift_ok in H1 as [_ ->].
  step H as technical w1 H1. apply lift_ok in H1 as [_ ->].
  step H as communication w1 H1. apply lift_ok in H1 as [_ ->].
  step H as behavioral w1 H1. apply lift_ok in H1 as [_ ->].
  step H as presentation w1 H1. apply lift_ok in H1 as [_ ->].
  step H as final w1 H1. apply lift_ok in H1 as [_ ->].
  step H as recommendation w1 H1. apply lift_ok in H1 as [Hrec ->].
  step H as strong w1 H1. apply lift_ok in H1 as [_ ->].
  step H as weak w1 H1. apply lift_ok in H1 as [_ ->].
  injection H as <-. repeat split; try done.
  exists recommendation. eexists. split; [reflexivity|]. split; [|done].
  destruct final; try done. injection Hrec as <-. apply map_recommendation_code.
Qed.

(** X6.  [complete_session] changes one row and nothing else: when it
    succeeds, the session with that id (if there is one; none is
    created) is marked completed with one of the three recommendation
    codes and keeps its transcript, start and template, while every
    other session, the answers and the questions stay as they were;
    when it fails, nothing was written. *)
Theorem complete_session_effect (sid : str) (summary : json) (w w' : world)
    (r : result unit) :
  complete_session sid summary w = (r, w') ->
  (forall sid', sid' <> sid -> sessions w' !! sid' = sessions w !! sid')
  /\ answers w' = answers w
  /\ questions w' = questions w
  /\ match r with
     | Raise _ => w' = w
     | Ok _ =>
         match sessions w !! sid with
         | None => sessions w' !! sid = None
         | Some sess =>
             exists (sess' : session_row) (code : str),
               sessions w' !! sid = Some sess'
               /\ status sess' = py "completed"
               /\ full_transcript sess' = full_transcript sess
               /\ started_at sess' = started_at sess
               /\ template_id sess' = template_id sess
               /\ ai_recommendation sess' = Some code
               /\ code ∈ recommendation_codes
         end
     end.
Proof.
  intros H. destruct r as [[]|e].
  - apply complete_session_write in H
      as (_ & _ & _ & Ha & Hq & code & f & Hs & Hcode & Hf).
    repeat split; try done.
    + intros sid' Hne. by rewrite Hs, lookup_alter_ne.
    + rewrite Hs, lookup_alter_eq. destruct (sessions w !! sid) as [sess|]; [|done].
      cbn. destruct (Hf sess) as (?&?&?&?&?). exists (f sess), code. by repeat split.
  - apply complete_session_failure in H as ->. by repeat split.
Qed.

Lemma complete_session_effect_witness :
  exists (w' : world) (sess' : session_row),
    complete_session (py "s-1") demo_summary (demo_world (py "started") 0) = (Ok tt, w')
    /\ sessions w' !! py "s-1" = Some sess'
    /\ status sess' = py "completed"
    /\ full_transcript sess' = Some demo_transcript
    /\ ai_recommendation sess' = Some (py "strong_hire")
    /\ answers w' = [] /\ questions w' = [].
Proof.
  run_ok F E (complete_session (py "s-1") demo_summary (demo_world (py "started") 0)).
  lazymatch type of E with
  | _ = (Ok tt, ?w') =>
      destruct (complete_session_effect _ _ _ w' _ E) as (_ & Ha & Hq & H);
      exists w'
  end.
  assert (L : sessions (demo_world (py "started") 0) !! py "s-1"
              = Some (demo_session (py "started"))) by (vm_compute; reflexivity).
  rewrite L in H. destruct H as (sess' & code & Hl & Hst & Hft & _ & _ & Hrec & _).
  exists sess'. split; [exact E|]. split; [exact Hl|]. split; [exact Hst|].
  split; [exact Hft|]. split; [|split; [by rewrite Ha|by rewrite Hq]].
  clear -Hl. vm_compute in Hl. injection Hl as <-. vm_compute. reflexivity.
Defined.

(** ** The stop endpoint *)

Section run_facts.
Context {A B : Type}.

Lemma bind_run_ok (m : M A) (k : A -> M B) (w w1 : world) (a : A) :
  m w = (Ok a, w1) -> bind m k w = k a w1.
Proof. unfold bind. by intros ->. Qed.

Lemma bind_run_raise (m : M A) (k : A -> M B) (w w1 : world) (e : exn) :
  m w = (Raise e, w1) -> bind m k w = (Raise e, w1).
Proof. unfold bind. by intros ->. Qed.

Lemma http_errors_internal (m : M A) (w w1 : world) (e : exn) :
  m w = (Raise e, w1) -> internal e ->
  http_errors m w = (Raise (HTTPException 500), w1).
Proof. unfold http_errors. intros -> He. by destruct e. Qed.
End run_facts.

(** Every run of [generate_summary] reads the clock once and makes one
    call, whatever comes of it. *)
Lemma generate_summary_trace resume jd history start w r w' :
  generate_summary resume jd history start w = (r, w') ->
  llm_calls w'
  = llm_calls w ++ [summary_request resume jd history start (time_ms w (clock_reads w))]
  /\ clock_reads w' = S (clock_reads w)
  /\ same_oracles w w'.
Proof.
  unfold generate_summary, bind, now_ms, ainvoke, lift.
  cbn [llm llm_calls set_clock_reads].
  destruct (llm w _ _) as [response|]; [|by intros [= <- <-]].
  destruct (_clean_json_response response) as [res|]; [|by intros [= <- <-]].
  destruct (minutes_taken _) as [x|]; [|by intros [= <- <-]].
  destruct (setitem _ _ res) as [res'|]; [|by intros [= <- <-]].
  by intros [= <- <-].
Qed.

(** The start instant both endpoints compute. *)
Lemma start_time_run (sess : session_row) (w : world) :
  exists w0,
    (match started_at sess with Some t => ret t | None => now_ms end) w
    = (Ok (default (time_ms w (clock_reads w)) (started_at sess)), w0)
    /\ llm_calls w0 = llm_calls w
    /\ clock_reads w0 = match started_at sess with
                        | Some _ => clock_reads w
                        | None => S (clock_reads w)
                        end
    /\ same_store w w0 /\ same_oracles w w0.
Proof. destruct (started_at sess); eexists; by repeat split. Qed.

(** X7.  [stop_interview] on an unknown session answers 404 and leaves
    the world as it was.  On a known session it makes exactly one
    collaborator call, the scorecard request built from the stored
    transcript, and touches no answer, no question and no other
    session; a reply is the completed shape with the recomputed time,
    and by then the session is marked completed with one of the three
    recommendation codes and its transcript unchanged; any failure is
    a 500 with no session changed. *)
Theorem stop_interview_effect (req : StopRequest) (w w' : world)
    (r : result answer_reply) :
  stop_interview req w = (r, w') ->
  match sessions w !! stop_session_id req with
  | None => r = Raise (HTTPException 404) /\ w' = w
  | Some sess =>
      let t := full_transcript sess in
      let start := default (time_ms w (clock_reads w)) (started_at sess) in
      let now := time_ms w (match started_at sess with
                            | Some _ => clock_reads w
                            | None => S (clock_reads w)
                            end) in
      llm_calls w'
      = llm_calls w ++ [summary_request (_extract_resume_context t)
                          (_extract_job_description t)
                          (_build_history_from_transcript t) start now]
      /\ answers w' = answers w
      /\ questions w' = questions w
      /\ (forall sid, sid <> stop_session_id req -> sessions w' !! sid = sessions w !! sid)
      /\ match r with
         | Raise e => e = HTTPException 500 /\ sessions w' = sessions w
         | Ok reply =>
             exists (d : gmap str json) (x : PyFloat.float) (sess' : session_row)
                    (code : str),
               reply = Completed (JObj d)
               /\ minutes_taken (now - start) = Ok x
               /\ d !! py "time_taken_minutes" = Some (JFloat x)
               /\ sessions w' !! stop_session_id req = Some sess'
               /\ status sess' = py "completed"
               /\ full_transcript sess' = t
               /\ ai_recommendation sess' = Some code
               /\ code ∈ recommendation_codes
         end
  end.
Proof.
  intros H. unfold stop_interview in H.
  destruct (sessions w !! stop_session_id req) as [sess|] eqn:Hs.
  2:{ unfold http_errors, bind, get_session in H. rewrite Hs in H.
      unfold raise in H. by injection H as <- <-. }
  cbv zeta.
  destruct (start_time_run sess w) as (w0 & Hstart & Hc0 & Hk0 & (Hs0 & Ha0 & Hq0) & Hor0).
  set (t := full_transcript sess) in *.
  set (start := default (time_ms w (clock_reads w)) (started_at sess)) in *.
  destruct (generate_summary (_extract_resume_context t) (_extract_job_description t)
              (_build_history_from_transcript t) start w0) as [[sc|e] w1] eqn:G.
  - apply generate_summary_trace in G as Htr. destruct Htr as (Hc1 & _ & _).
    apply generate_summary_ok in G as Hok.
    destruct Hok as ((Hs1 & Ha1 & Hq1) & response & d0 & x & _ & _ & Hx & ->).
    destruct Hor0 as (_ & _ & Htm & _). rewrite Htm, Hk0, Hc0 in *.
    destruct (complete_session (stop_session_id req)
                (JObj (<[py "time_taken_minutes" := JFloat x]> d0
                       ∪ list_to_map summary_defaults)) w1) as [[[]|e] w2] eqn:C.
    + assert (Hrun : r = Ok (Completed (JObj (<[py "time_taken_minutes" := JFloat x]> d0
                                               ∪ list_to_map summary_defaults)))
                     /\ w' = w2).
      { unfold http_errors, get_session in H.
        erewrite (bind_run_ok (fun w => (Ok (sessions w !! stop_session_id req), w)))
          in H by reflexivity.
        rewrite Hs in H. erewrite bind_run_ok in H by exact Hstart.
        erewrite bind_run_ok in H by exact G.
        erewrite bind_run_ok in H by exact C.
        unfold ret in H. by injection H as <- <-. }
      destruct Hrun as [-> ->].
      apply complete_session_write in C
        as (_ & Hc2 & _ & Ha2 & Hq2 & code & f & Hs2 & Hcode & Hf).
      split; [congruence|]. split; [congruence|]. split; [congruence|].
      split.
      { intros sid Hne. by rewrite Hs2, lookup_alter_ne, Hs1, Hs0. }
      eexists _, x, (f sess), code. destruct (Hf sess) as (? & _ & ? & _ & ?).
      repeat split; try done.
      * apply lookup_union_Some_l. by rewrite lookup_insert_eq.
      * by rewrite Hs2, lookup_alter_eq, Hs1, Hs0, Hs.
    + assert (Hrun : r = Raise (HTTPException 500) /\ w' = w2).
      { rewrite (http_errors_internal _ w w2 e) in H; [by injection H as <- <-| |].
        - unfold get_session.
          erewrite (bind_run_ok (fun w => (Ok (sessions w !! stop_session_id req), w)))
            by reflexivity.
          rewrite Hs. erewrite bind_run_ok by exact Hstart.
          erewrite bind_run_ok by exact G. by erewrite bind_run_raise by exact C.
        - by eapply ri_complete_session. }
      destruct Hrun as [-> ->]. apply complete_session_failure in C as ->.
      split; [congruence|]. split; [congruence|]. split; [congruence|].
      split; [intros; congruence|]. split; [done|congruence].
  - apply generate_summary_trace in G as Htr. destruct Htr as (Hc1 & _ & _).
    apply generate_summary_store in G as Hst. destruct Hst as (Hs1 & Ha1 & Hq1).
    destruct Hor0 as (_ & _ & Htm & _). rewrite Htm, Hk0, Hc0 in *.
    assert (Hrun : r = Raise (HTTPException 500) /\ w' = w1).
    { rewrite (http_errors_internal _ w w1 e) in H; [by injection H as <- <-| |].
      - unfold get_session.
        erewrite (bind_run_ok (fun w => (Ok (sessions w !! stop_session_id req), w)))
          by reflexivity.
        rewrite Hs. erewrite bind_run_ok by exact Hstart.
        by erewrite bind_run_raise by exact G.
      - by eapply ri_generate_summary. }
    destruct Hrun as [-> ->].
    split; [congruence|]. split; [congruence|]. split; [congruence|].
    split; [intros; congruence|]. split; [done|congruence].
Qed.

Lemma stop_interview_effect_witness :
  exists (summary : json) (w' : world) (sess' : session_row) (code : str),
    stop_interview demo_stop_request (demo_stop_world 301000) = (Ok (Completed summary), w')
    /\ sessions w' !! py "s-1" = Some sess'
    /\ status sess' = py "completed"
    /\ full_transcript sess' = Some demo_transcript
    /\ ai_recommendation sess' = Some code
    /\ code ∈ recommendation_codes
    /\ length (llm_calls w') = 1%nat
    /\ answers w' = [] /\ questions w' = [].
Proof.
  run_completed F E (stop_interview demo_stop_request (demo_stop_world 301000)).
  pose proof (stop_interview_effect _ _ _ _ E) as H.
  assert (L : sessions (demo_stop_world 301000) !! stop_session_id demo_stop_request
              = Some (demo_session (py "started"))) by (vm_compute; reflexivity).
  rewrite L in H.
  destruct H as (Hc & Ha & Hq & _ & d & x & sess' & code & _ & _ & _ & Hl & Hst & Hft & Hrec & Hcode).
  eexists _, _, sess', code. split; [exact E|]. split; [exact Hl|]. split; [exact Hst|].
  split; [exact Hft|]. split; [exact Hrec|]. split; [exact Hcode|].
  split; [by rewrite Hc|]. split; [by rewrite Ha|by rewrite Hq].
Defined.

(** ** The collaborator-output parser: when it fails, what it ignores *)

Lemma lstrip_sublist (s : str) : lstrip s `sublist_of` s.
Proof.
  induction s as [|c s IH]; cbn [lstrip]; [done|].
  destruct (isspace c); [by apply sublist_cons|done].
Qed.

Lemma sublist_rev {A} (l k : list A) : l `sublist_of` k -> rev l `sublist_of` rev k.
Proof.
  induction 1 as [|x l k _ IH|x l k _ IH]; cbn [rev]; [done| |].
  - by apply sublist_app.
  - by apply sublist_inserts_r.
Qed.

Lemma rstrip_sublist (s : str) : rstrip s `sublist_of` s.
Proof.
  unfold rstrip. rewrite <- (rev_involutive s) at 2. apply sublist_rev, lstrip_sublist.
Qed.

Lemma strip_sublist (s : str) : strip s `sublist_of` s.
Proof. unfold strip. etrans; [apply rstrip_sublist|apply lstrip_sublist]. Qed.

Lemma sub_fence_json_sublist (s : str) : sub_fence_json s `sublist_of` s.
Proof.
  unfold sub_fence_json. destruct (startswith _ _); [|done].
  etrans; [apply lstrip_sublist|apply sublist_drop].
Qed.

Lemma sub_fence_open_sublist (s : str) : sub_fence_open s `sublist_of` s.
Proof.
  unfold sub_fence_open. destruct (startswith _ _); [|done].
  etrans; [apply lstrip_sublist|apply sublist_drop].
Qed.

Lemma sub_fence_close_sublist (s : str) : sub_fence_close s `sublist_of` s.
Proof.
  unfold sub_fence_close. cbv zeta.
  destruct (startswith (rev s) (py "```")).
  { rewrite <- (rev_involutive s) at 2. apply sublist_rev.
    etrans; [apply lstrip_sublist|apply sublist_drop]. }
  destruct (startswith (rev s) (nl :: py "```")) eqn:E; [|done].
  destruct (rev s) as [|c r] eqn:Hr; [done|].
  cbn [startswith] in E. apply andb_true_iff in E as [->%N.eqb_eq _].
  rewrite <- (rev_involutive s), Hr. cbn [rev drop].
  apply sublist_app; [|done]. apply sublist_rev.
  etrans; [apply lstrip_sublist|apply sublist_drop].
Qed.

Lemma from_first_suffix (P : N -> bool) (s : str) : from_first P s `suffix_of` s.
Proof.
  induction s as [|c s IH]; cbn [from_first]; [done|].
  destruct (P c); [done|by apply suffix_cons_r].
Qed.

Lemma from_first_head (P : N -> bool) (s : str) (c : N) (r : str) :
  from_first P s = c :: r -> P c = true.
Proof.
  induction s as [|a s IH]; cbn [from_first]; [done|].
  destruct (P a) eqn:E; [by intros [= <- _]|done].
Qed.

(** A brace-delimited region starts at an opening brace and ends at a
    later closing brace. *)
Lemma brace_region_braces (s group : str) :
  brace_region s = Some group -> [0x7B; 0x7D]%N `sublist_of` s.
Proof.
  unfold brace_region.
  destruct (from_first (Json.is_ch "}") _) as [|c r] eqn:E; [done|]. intros _.
  apply from_first_head in E as Hc. pose proof (from_first_suffix (Json.is_ch "}")
    (rev (from_first (Json.is_ch "{") s))) as [k Hk]. rewrite E in Hk.
  destruct (from_first (Json.is_ch "{") s) as [|a f] eqn:F.
  { by destruct k. }
  apply from_first_head in F as Ha.
  pose proof (from_first_suffix (Json.is_ch "{") s) as [k' Hk']. rewrite F in Hk'.
  apply (f_equal (@rev N)) in Hk. rewrite rev_involutive, rev_app_distr in Hk.
  cbn [rev] in Hk. rewrite <- app_assoc in Hk. cbn [app] in Hk.
  unfold Json.is_ch in Hc, Ha. apply N.eqb_eq in Hc as ->. apply N.eqb_eq in Ha as ->.
  rewrite Hk', Hk. apply sublist_inserts_l.
  destruct (rev r) as [|a' r']; [done|]. injection Hk as <- _.
  apply sublist_skip, sublist_inserts_l, sublist_skip, sublist_nil_l.
Qed.

(** X8.  On a reply within the limits of the interpreter (fewer than
    4300 characters, at most 100 opening brackets and braces, so that
    [json.loads] can only fail with a decode error),
    [_clean_json_response] fails in one way only, with a decode error,
    and only when the reply has an opening brace with a closing brace
    somewhere after it: such a reply without that pair is never an
    error. *)
Theorem clean_json_response_failure (text : str) (e : exn) :
  within_limits text = true ->
  _clean_json_response text = Raise e ->
  e = JSONDecodeError
  /\ exists a b c : str, text = a ++ 0x7B%N :: b ++ 0x7D%N :: c.
Proof.
  intros _. unfold _clean_json_response. cbv zeta.
  set (cleaned := strip (sub_fence_close (sub_fence_open (sub_fence_json (strip text))))).
  destruct (Json.loads cleaned); [done|].
  destruct (brace_region cleaned) as [group|] eqn:R; [|done].
  destruct (Json.loads group); [done|]. intros [= <-]. split; [done|].
  apply brace_region_braces in R.
  assert (Hsub : [0x7B; 0x7D]%N `sublist_of` text).
  { etrans; [exact R|]. unfold cleaned.
    etrans; [apply strip_sublist|]. etrans; [apply sub_fence_close_sublist|].
    etrans; [apply sub_fence_open_sublist|]. etrans; [apply sub_fence_json_sublist|].
    apply strip_sublist. }
  apply sublist_cons_l in Hsub as (a & k & -> & Hk).
  apply sublist_cons_l in Hk as (b & c & -> & _). by exists a, b, c.
Qed.

Lemma clean_json_response_failure_witness :
  JSONDecodeError = JSONDecodeError
  /\ exists a b c : str, py "Sure: {oops} there" = a ++ 0x7B%N :: b ++ 0x7D%N :: c.
Proof.
  apply (clean_json_response_failure (py "Sure: {oops} there") JSONDecodeError);
    vm_compute; reflexivity.
Defined.

(** ** The collaborator-output parser: the fence is transparent *)

Lemma lstrip_blank_app (ws s : str) : blank ws = true -> lstrip (ws ++ s) = lstrip s.
Proof.
  induction ws as [|c ws IH]; [done|]. cbn [blank forallb app lstrip].
  intros [-> H]%andb_true_iff. by apply IH.
Qed.

Lemma blank_rev (ws : str) : blank ws = true -> blank (rev ws) = true.
Proof.
  unfold blank. rewrite !forallb_forall. intros H c Hc. apply H. by apply in_rev.
Qed.

Lemma rstrip_app_blank (s ws : str) : blank ws = true -> rstrip (s ++ ws) = rstrip s.
Proof.
  intros H. unfold rstrip. rewrite rev_app_distr, lstrip_blank_app; [done|].
  by apply blank_rev.
Qed.

(** The two ends of a plain text. *)
Lemma plain_ends_inv (body : str) :
  plain_ends body = true ->
  (exists a r, body = a :: r /\ isspace a = false /\ (a =? 0x60)%N = false)
  /\ (exists r b, body = r ++ [b] /\ isspace b = false /\ (b =? 0x60)%N = false).
Proof.
  unfold plain_ends, plain_char. destruct body as [|a r] eqn:E; [done|]. rewrite <- E.
  destruct (last body) as [b|] eqn:L; [|by rewrite E]. rewrite E at 1. cbn [head].
  intros [[Ha1 Ha2]%andb_true_iff [Hb1 Hb2]%andb_true_iff]%andb_true_iff.
  apply negb_true_iff in Ha1, Ha2, Hb1, Hb2. split.
  - by exists a, r.
  - apply last_Some in L as [r' ->]. by exists r', b.
Qed.

(** A plain text goes through the cleaning stages unchanged. *)
Lemma cleaned_plain (body : str) :
  plain_ends body = true ->
  strip (sub_fence_close (sub_fence_open (sub_fence_json (strip body)))) = body.
Proof.
  intros ((a & r & Ea & Ha & Hq) & (r' & b & Eb & Hb & Hbq))%plain_ends_inv.
  assert (Hstrip : strip body = body).
  { unfold strip. rewrite Ea, lstrip_head by done. rewrite <- Ea, Eb.
    by apply rstrip_snoc_solid. }
  rewrite Hstrip.
  assert (Hj : sub_fence_json body = body).
  { unfold sub_fence_json. rewrite Ea. change (py "```json") with (0x60%N :: py "``json").
    cbn [startswith]. by rewrite N.eqb_sym, Hq. }
  rewrite Hj.
  assert (Ho : sub_fence_open body = body).
  { unfold sub_fence_open. rewrite Ea. change (py "```") with (0x60%N :: py "``").
    cbn [startswith]. by rewrite N.eqb_sym, Hq. }
  rewrite Ho.
  assert (Hc : sub_fence_close body = body).
  { unfold sub_fence_close. cbv zeta. rewrite Eb, rev_app_distr. cbn [rev app].
    change (py "```") with (0x60%N :: py "``"). cbn [startswith].
    rewrite (N.eqb_sym _ b), Hbq. cbn [andb].
    destruct (N.eqb_spec nl b) as [<-|_]; [done|]. done. }
  by rewrite Hc.
Qed.

(** X9.  A Markdown fence around the reply is transparent: a reply in
    a fence (with the word json, or without it and then followed by
    white space), with any white space around the fence and inside it,
    is parsed exactly as the text inside, as long as that text neither
    starts nor ends with white space or a backquote. *)
Theorem fence_transparent (lang : bool) (ws0 ws1 body ws2 ws3 : str) :
  blank ws0 = true -> blank ws1 = true -> blank ws2 = true -> blank ws3 = true ->
  plain_ends body = true ->
  (lang = false -> ws1 <> []) ->
  _clean_json_response (ws0 ++ fenced lang ws1 body ws2 ++ ws3)
  = _clean_json_response body.
Proof.
  intros H0 H1 H2 H3 Hbody Hlang.
  pose proof Hbody as ((a & r & Ea & Ha & Hq) & (r' & b & Eb & Hb & Hbq))%plain_ends_inv.
  assert (E1 : strip (ws0 ++ fenced lang ws1 body ws2 ++ ws3) = fenced lang ws1 body ws2).
  { unfold strip. rewrite lstrip_blank_app by done.
    assert (Hl : forall t, lstrip (py "```" ++ t) = py "```" ++ t) by done.
    unfold fenced. rewrite <- !app_assoc, Hl, !app_assoc.
    rewrite rstrip_app_blank by done. by apply rstrip_visible. }
  assert (E2 : sub_fence_open (sub_fence_json (fenced lang ws1 body ws2))
               = body ++ ws2 ++ py "```").
  { destruct lang.
    - assert (Hj : sub_fence_json (fenced true ws1 body ws2) = body ++ ws2 ++ py "```").
      { unfold sub_fence_json, fenced.
        change (py "```" ++ py "json" ++ ws1 ++ body ++ ws2 ++ py "```")
          with (py "```json" ++ ws1 ++ body ++ ws2 ++ py "```").
        rewrite startswith_app.
        change 7%nat with (length (py "```json")). rewrite drop_app_length.
        rewrite lstrip_blank_app by done. rewrite Ea. cbn [app]. by rewrite lstrip_head. }
      rewrite Hj. unfold sub_fence_open. rewrite Ea. cbn [app].
      assert (Hn : forall t, startswith (a :: t) (py "```") = false).
      { intros t. change (py "```") with (0x60%N :: py "``").
        cbn [startswith]. by rewrite N.eqb_sym, Hq. }
      by rewrite Hn.
    - destruct ws1 as [|c ws1]; [by destruct Hlang|].
      cbn [blank forallb] in H1. apply andb_true_iff in H1 as [Hc H1].
      assert (Hj : sub_fence_json (fenced false (c :: ws1) body ws2)
                   = fenced false (c :: ws1) body ws2).
      { unfold sub_fence_json, fenced.
        change (py "```json") with (0x60 :: 0x60 :: 0x60 :: 0x6A :: py "son")%N.
        change (py "```") with [0x60; 0x60; 0x60]%N at 1.
        cbn [app startswith]. rewrite !N.eqb_refl. cbn [andb].
        destruct (N.eqb_spec 0x6A c) as [<-|_]; [done|]. done. }
      rewrite Hj. unfold sub_fence_open, fenced. rewrite startswith_app.
      change 3%nat with (length (py "```")). rewrite drop_app_length. cbn [app lstrip].
      rewrite Hc. change (lstrip (ws1 ++ body ++ ws2 ++ py "```") = body ++ ws2 ++ py "```").
      rewrite lstrip_blank_app by done. rewrite Ea. cbn [app]. by rewrite lstrip_head. }
  assert (E3 : sub_fence_close (body ++ ws2 ++ py "```") = body).
  { unfold sub_fence_close. cbv zeta. rewrite !rev_app_distr.
    change (rev (py "```")) with (py "```"). rewrite <- app_assoc, startswith_app.
    change 3%nat with (length (py "```")). rewrite drop_app_length.
    rewrite lstrip_blank_app by (by apply blank_rev).
    rewrite Eb, rev_app_distr. cbn [rev app]. rewrite lstrip_head by done.
    change (b :: rev r') with (rev [b] ++ rev r'). by rewrite <- rev_app_distr, rev_involutive. }
  assert (E4 : strip body = body).
  { unfold strip. rewrite Ea, lstrip_head by done. rewrite <- Ea, Eb.
    by apply rstrip_snoc_solid. }
  unfold _clean_json_response. cbv zeta.
  rewrite (cleaned_plain body) by done. by rewrite E1, E2, E3, E4.
Qed.

Lemma fence_transparent_witness :
  _clean_json_response ([nl] ++ fenced false [nl] (pj "{'depth': 7}") (py "  ") ++ [nl])
  = _clean_json_response (pj "{'depth': 7}").
Proof.
  apply (fence_transparent false [nl] [nl] (pj "{'depth': 7}") (py "  ") [nl]);
    try (vm_compute; reflexivity).
  intros _. discriminate.
Defined.

(** ** The turn evaluator in every outcome *)

Lemma fill_defaults_shape (defaults : list (str * json)) (res : json) (d : gmap str json) :
  fill_defaults defaults res = Ok (JObj d) -> exists d0, res = JObj d0.
Proof.
  revert res. induction defaults as [|[k v] rest IH]; intros res; cbn [fill_defaults].
  - intros [= ->]. by eexists.
  - destruct (py_in k res) as [[]|]; [apply IH| |done].
    destruct (setitem k v res) as [res'|] eqn:S; [|done]. intros _.
    destruct res; try done. by eexists.
Qed.

Lemma evaluation_keys (d : gmap str json) (k : str) :
  k ∈ evaluation_defaults.*1 ->
  is_Some ((d ∪ list_to_map evaluation_defaults) !! k).
Proof.
  intros Hk. rewrite lookup_union.
  assert (Hd : is_Some ((list_to_map evaluation_defaults : gmap str json) !! k)).
  { revert Hk. unfold evaluation_defaults. cbn [fmap list_fmap fst].
    rewrite !elem_of_cons, elem_of_nil.
    intros [->|[->|[->|[->|[->|[->|[->|[]]]]]]]]; vm_compute; eexists; reflexivity. }
  destruct Hd as [v ->]. by destruct (d !! k).
Qed.

(** X10.  Whatever comes of it, [evaluate_answer] makes no call for a
    blank answer and exactly one call, the evaluator request for this
    question and answer, otherwise; it reads no clock and writes no
    row; and an object it returns has all seven fields. *)
Theorem evaluate_answer_outcome (question answer : str) (w w' : world) (r : result json) :
  evaluate_answer question answer w = (r, w') ->
  llm_calls w'
  = llm_calls w ++ (if is_blank answer then [] else [evaluator_request question answer])
  /\ clock_reads w' = clock_reads w
  /\ same_store w w'
  /\ forall d : gmap str json,
       r = Ok (JObj d) -> forall k, k ∈ evaluation_defaults.*1 -> is_Some (d !! k).
Proof.
  unfold evaluate_answer. destruct (is_blank answer).
  - intros [= <- <-]. rewrite app_nil_r. repeat split; try done.
    intros d [= <-] k Hk.
    revert Hk. unfold evaluation_defaults. cbn [fmap list_fmap fst].
    rewrite !elem_of_cons, elem_of_nil.
    intros [->|[->|[->|[->|[->|[->|[->|[]]]]]]]]; vm_compute; eexists; reflexivity.
  - unfold bind, ainvoke, lift.
    destruct (llm w _ _) as [response|]; [|by intros [= <- <-]].
    destruct (_clean_json_response response) as [res|]; [|by intros [= <- <-]].
    intros [Hr <-]%pair_equal_spec. repeat split; try done.
    intros d Hd k Hk. rewrite <- Hr in Hd. clear Hr.
    apply fill_defaults_shape in Hd as Hres. destruct Hres as [d0 ->].
    rewrite fill_defaults_obj in Hd. injection Hd as <-. by apply evaluation_keys.
Qed.

Lemma evaluate_answer_outcome_witness :
  llm_calls (snd (evaluate_answer (py "Why Go?") (py "It is simple.")
                    (scripted (pj "{'depth': 7}") 0 0)))
  = [] ++ (if is_blank (py "It is simple.") then []
           else [evaluator_request (py "Why Go?") (py "It is simple.")])
  /\ clock_reads (snd (evaluate_answer (py "Why Go?") (py "It is simple.")
                         (scripted (pj "{'depth': 7}") 0 0))) = 0%nat
  /\ same_store (scripted (pj "{'depth': 7}") 0 0)
       (snd (evaluate_answer (py "Why Go?") (py "It is simple.")
               (scripted (pj "{'depth': 7}") 0 0)))
  /\ forall d : gmap str json,
       fst (evaluate_answer (py "Why Go?") (py "It is simple.")
              (scripted (pj "{'depth': 7}") 0 0)) = Ok (JObj d) ->
       forall k, k ∈ evaluation_defaults.*1 -> is_Some (d !! k).
Proof.
  apply (evaluate_answer_outcome (py "Why Go?") (py "It is simple.")
           (scripted (pj "{'depth': 7}") 0 0)).
  apply surjective_pairing.
Defined.

(** ** Storing an answer and reading it back *)

Lemma get_scores_obj (ds : list str) (d : gmap str json) :
  get_scores ds (JObj d) = Ok ((fun k => default (JInt 5) (d !! k)) <$> ds).
Proof. induction ds as [|k ds IH]; cbn [get_scores dict_get]; [done|]. by rewrite IH. Qed.

(** X11.  An evaluation whose dimensions, where present, are integers
    from 0 to 10 is always stored, and [get_answers_for_session] then
    returns the rows it returned before followed by the new row;
    the rows of every other session, the sessions and the questions
    are as before. *)
Theorem store_answer_round_trip (sid q a : str) (d : gmap str json) (qid : option str)
    (w : world) :
  (forall k v, k ∈ dimensions -> d !! k = Some v -> score_ok v = true) ->
  exists (w' : world) (rows : list answer_row),
    store_answer sid q a (JObj d) qid w = (Ok tt, w')
    /\ fst (get_answers_for_session sid w) = Ok rows
    /\ fst (get_answers_for_session sid w')
       = Ok (rows ++ [AnswerRow sid q a (JObj d) (if_set qid)])
    /\ (forall sid', sid' <> sid ->
          fst (get_answers_for_session sid' w') = fst (get_answers_for_session sid' w))
    /\ sessions w' = sessions w
    /\ questions w' = questions w.
Proof.
  intros Hd. eexists _, _. split; [|split; [reflexivity|]].
  - unfold store_answer, bind, lift. rewrite get_scores_obj.
    assert (Hn : forallb is_number ((fun k => default (JInt 5) (d !! k)) <$> dimensions)
                 = true).
    { apply forallb_forall. intros v [k [<- Hk]]%in_map_iff.
      apply list_elem_of_In in Hk. destruct (d !! k) as [v|] eqn:E; [|done].
      specialize (Hd k v Hk E). by destruct v. }
    rewrite Hn. reflexivity.
  - unfold get_answers_for_session. world_simpl. cbn [fst].
    repeat split.
    + rewrite filter_app, filter_cons_True by done. reflexivity.
    + intros sid' Hne. rewrite filter_app, filter_cons_False, filter_nil by done.
      by rewrite app_nil_r.
Qed.

Lemma store_answer_round_trip_witness :
  exists (w' : world) (rows : list answer_row),
    store_answer (py "s-1") (py "Why Go?") (py "It is simple.")
      (JObj {[ py "depth" := JInt 7; py "short_summary" := JStr (py "Brief") ]})
      (Some (py "q-0")) (demo_world (py "started") 0) = (Ok tt, w')
    /\ fst (get_answers_for_session (py "s-1") (demo_world (py "started") 0)) = Ok rows
    /\ fst (get_answers_for_session (py "s-1") w')
       = Ok (rows ++ [AnswerRow (py "s-1") (py "Why Go?") (py "It is simple.")
                        (JObj {[ py "depth" := JInt 7;
                                 py "short_summary" := JStr (py "Brief") ]})
                        (if_set (Some (py "q-0")))])
    /\ (forall sid', sid' <> py "s-1" ->
          fst (get_answers_for_session sid' w')
          = fst (get_answers_for_session sid' (demo_world (py "started") 0)))
    /\ sessions w' = sessions (demo_world (py "started") 0)
    /\ questions w' = questions (demo_world (py "started") 0).
Proof.
  apply (store_answer_round_trip (py "s-1") (py "Why Go?") (py "It is simple.")
           {[ py "depth" := JInt 7; py "short_summary" := JStr (py "Brief") ]}
           (Some (py "q-0")) (demo_world (py "started") 0)).
  intros k v Hk. unfold dimensions in Hk.
  rewrite !elem_of_cons, elem_of_nil in Hk.
  destruct Hk as [->|[->|[->|[->|[->|[->|[]]]]]]]; vm_compute; intros [= <-]; reflexivity.
Defined.

(** ** The conversation window *)

Lemma last10_length {A} (l : list A) : (length (last10 l) <= 10)%nat.
Proof. unfold last10. rewrite length_drop. lia. Qed.

(** X12.  [_build_conversation_messages] takes the last ten turns
    first and drops the empty ones after: the messages are those of
    the non-empty turns among the last ten, in order, a question as
    the assistant's message and an answer as the candidate's; there
    are at most ten and none is empty. *)
Theorem conversation_messages_window (history : list turn) :
  _build_conversation_messages history
  = message_of_turn <$> filter (fun t => content t <> []) (last10 history)
  /\ (length (_build_conversation_messages history) <= 10)%nat
  /\ Forall (fun m => message_text m <> Text []) (_build_conversation_messages history).
Proof.
  unfold _build_conversation_messages. pose proof (last10_length history) as Hlen.
  revert Hlen. generalize (last10 history). clear history. intros l Hlen.
  match goal with
  | |- flat_map ?F l = _ /\ _ =>
      assert (E : flat_map F l = message_of_turn <$> filter (fun t => content t <> []) l)
  end.
  { clear Hlen. induction l as [|[ty c] l IH]; [done|]. cbn [flat_map]. rewrite IH.
    rewrite filter_cons. cbn [content type]. destruct c as [|x c].
    - by rewrite decide_False by (by intros []).
    - rewrite decide_True by done. by destruct ty. }
  rewrite E. split; [done|]. split.
  - rewrite length_fmap. etrans; [apply length_filter|done].
  - apply Forall_fmap, Forall_forall. intros [ty c] [Hc _]%list_elem_of_filter.
    cbn [content] in Hc. unfold message_of_turn. cbn. destruct ty; cbn; congruence.
Qed.

(** ** One turn of the interview in the history *)

Lemma strip_line (line : str) (c : N) :
  head line = Some c -> isspace c = false -> ends_visible line = true ->
  strip (line ++ [nl]) = line.
Proof.
  destruct line as [|c' p]; [done|]. intros [= ->] Hc Hv.
  unfold strip. cbn [app lstrip]. rewrite Hc.
  change (c :: p ++ [nl]) with ((c :: p) ++ [nl]).
  rewrite rstrip_snoc_space by done. by apply (rstrip_visible []).
Qed.

(** A line added to a well-ended transcript is one more line of it. *)
Lemma history_append_line (t line : str) (c : N) :
  well_ended t = true ->
  head line = Some c -> isspace c = false ->
  nl ∉ line -> ends_visible line = true ->
  _build_history_from_transcript (Some (t ++ line ++ [nl]))
  = _build_history_from_transcript (Some t) ++ history_of_line line.
Proof.
  intros Hw Hh Hc Hn Hv.
  unfold _build_history_from_transcript at 1.
  destruct (t ++ line ++ [nl]) as [|c0 r0] eqn:Hne.
  { apply app_eq_nil in Hne as [_ Hne]. by apply app_eq_nil in Hne as [_ ?]. }
  rewrite <- Hne. clear Hne c0 r0.
  unfold well_ended in Hw. destruct t as [|c1 t' _] using rev_ind.
  - cbn [app]. rewrite (strip_line line c) by done.
    rewrite split_no_sep by done. cbn [flat_map]. by rewrite app_nil_r.
  - rewrite rev_app_distr in Hw. cbn [rev app] in Hw.
    destruct (rev t') as [|c' r'] eqn:Hrev; [done|].
    apply andb_true_iff in Hw as [->%N.eqb_eq Hc']. apply negb_true_iff in Hc'.
    assert (Ht' : t' = rev r' ++ [c']).
    { rewrite <- (rev_involutive t'), Hrev. reflexivity. }
    set (x := rev r' ++ [c']) in *. subst t'.
    destruct (lstrip_ends (rev r') c' Hc') as [y Hy]. fold x in Hy.
    assert (Hvis : existsb (fun c => negb (isspace c)) x = true) by by apply visible_snoc.
    assert (Hold : strip (x ++ [nl]) = lstrip x).
    { unfold strip. rewrite lstrip_app_visible by done.
      rewrite rstrip_snoc_space by done. rewrite Hy. by apply rstrip_snoc_solid. }
    assert (Hnew : strip ((x ++ [nl]) ++ line ++ [nl]) = lstrip x ++ nl :: line).
    { unfold strip. rewrite <- app_assoc. rewrite lstrip_app_visible by done.
      cbn [app].
      replace (lstrip x ++ nl :: line ++ [nl]) with ((lstrip x ++ nl :: line) ++ [nl])
        by (by rewrite <- !app_assoc).
      rewrite rstrip_snoc_space by done.
      change (lstrip x ++ nl :: line) with (lstrip x ++ [nl] ++ line).
      rewrite app_assoc. by apply rstrip_visible. }
    rewrite Hnew, split_snoc by done. rewrite flat_map_app. cbn [flat_map].
    rewrite app_nil_r. f_equal.
    unfold _build_history_from_transcript.
    destruct (x ++ [nl]) as [|c2 r2] eqn:E; [by destruct x|].
    by rewrite Hold.
Qed.

Lemma well_ended_line (t line : str) :
  ends_visible line = true -> well_ended (t ++ line ++ [nl]) = true.
Proof.
  unfold ends_visible, well_ended. destruct line as [|c l _] using rev_ind; [done|].
  rewrite last_snoc. intros Hc. rewrite !app_assoc, !rev_app_distr. cbn [rev app].
  by rewrite N.eqb_refl.
Qed.

(** X13.  A turn that goes on extends the conversation by exactly the
    answer and the next question.  When the stored transcript is empty
    or ends in a newline after a visible character and [handle_answer]
    replies "running" with a question text, the new stored transcript
    ends the same way and its history is the old history followed by
    the answer turn and the question turn; the answer, the new
    identifier and the question must hold no newline and end in a
    visible character, and the answer and the question must not hold
    their own tag. *)
Theorem handle_answer_history_step (req : AnswerRequest) (w w' : world)
    (sess : session_row) (t q : str) (fb : json) :
  sessions w !! session_id req = Some sess ->
  full_transcript sess = Some t ->
  well_ended t = true ->
  handle_answer req w = (Ok (Running (JStr q) fb), w') ->
  nl ∉ answer_text req -> contains CANDIDATE_TAG (answer_text req) = false ->
  ends_visible (answer_text req) = true ->
  nl ∉ new_id w (length (questions w)) ->
  ends_visible (new_id w (length (questions w))) = true ->
  nl ∉ q -> contains AI_TAG q = false -> ends_visible q = true ->
  exists (sess' : session_row) (t' : str),
    sessions w' !! session_id req = Some sess'
    /\ full_transcript sess' = Some t'
    /\ well_ended t' = true
    /\ _build_history_from_transcript (Some t')
       = _build_history_from_transcript (Some t)
         ++ [Turn answer (answer_text req); Turn question q].
Proof.
  intros Hs Hft Hw H Hna Hca Hva Hnid Hvid Hnq Hcq Hvq.
  unfold handle_answer in H. apply http_errors_ok in H.
  step H as st w1 Hread. apply read_turn_oracles in Hread as Hor.
  apply read_turn_ok in Hread as ((Hs1 & _ & Hq1) & sess0 & _ & _ & Hs0 & Hsd & Htr & _).
  assert (sess0 = sess) as -> by congruence.
  destruct Hor as (_ & _ & _ & Hid1 & _).
  assert (Htruthy : truthy (JStr q) = true) by (by destruct q).
  apply finish_turn_running in H as (_ & _ & t0 & Ht0 & Hsess); [|done].
  destruct (Hsess sess) as (sess' & Hl & Hft'); [by rewrite Hs1|].
  rewrite Hq1, Hid1 in Hft'. cbn [render] in Hft'.
  assert (t0 = t) as -> by congruence.
  set (qid := new_id w (length (questions w))) in *.
  exists sess'. eexists. split; [done|]. split; [exact Hft'|].
  set (la := CANDIDATE_TAG ++ answer_text req).
  set (li := QID_TAG ++ qid). set (lq := AI_TAG ++ q).
  assert (Hha : head la = Some 91%N) by (vm_compute; reflexivity).
  assert (Hhi : head li = Some 91%N) by (vm_compute; reflexivity).
  assert (Hhq : head lq = Some 91%N) by (vm_compute; reflexivity).
  assert (Hla : nl ∉ la) by (apply not_in_app; [no_newline|done]).
  assert (Hli : nl ∉ li) by (apply not_in_app; [no_newline|done]).
  assert (Hlq : nl ∉ lq) by (apply not_in_app; [no_newline|done]).
  assert (Hva' : ends_visible la = true) by (by apply ends_visible_app).
  assert (Hvi' : ends_visible li = true) by (by apply ends_visible_app).
  assert (Hvq' : ends_visible lq = true) by (by apply ends_visible_app).
  assert (Hsp : isspace 91 = false) by reflexivity.
  assert (Hw1 : well_ended (t ++ la ++ [nl]) = true) by (by apply well_ended_line).
  assert (Hw2 : well_ended ((t ++ la ++ [nl]) ++ li ++ [nl]) = true)
    by (by apply well_ended_line).
  assert (E : (t ++ CANDIDATE_TAG ++ answer_text req ++ [nl])
              ++ QID_TAG ++ qid ++ [nl] ++ AI_TAG ++ q ++ [nl]
              = ((t ++ la ++ [nl]) ++ li ++ [nl]) ++ lq ++ [nl]).
  { unfold la, li, lq. by rewrite <- !app_assoc. }
  rewrite E. split; [by apply well_ended_line|].
  rewrite (history_append_line _ lq 91%N Hw2 Hhq Hsp Hlq Hvq').
  rewrite (history_append_line _ li 91%N Hw1 Hhi Hsp Hli Hvi').
  rewrite (history_append_line _ la 91%N Hw Hha Hsp Hla Hva').
  assert (Hta : history_of_line la = [Turn answer (answer_text req)])
    by (by apply (history_of_transcript_line (Turn answer (answer_text req)))).
  assert (Htq : history_of_line lq = [Turn question q])
    by (by apply (history_of_transcript_line (Turn question q))).
  assert (Hti : history_of_line li = []).
  { unfold history_of_line.
    replace (startswith li AI_TAG) with false by (vm_compute; reflexivity).
    by replace (startswith li CANDIDATE_TAG) with false by (vm_compute; reflexivity). }
  by rewrite Hta, Htq, Hti, app_nil_r, <- app_assoc.
Qed.

Lemma handle_answer_history_step_witness :
  exists (sess' : session_row) (t' : str),
    sessions (snd (handle_answer demo_request (demo_world (py "started") 1000))) !! py "s-1"
    = Some sess'
    /\ full_transcript sess' = Some t'
    /\ well_ended t' = true
    /\ _build_history_from_transcript (Some t')
       = _build_history_from_transcript (Some demo_transcript)
         ++ [Turn answer (py "I build APIs in Go.");
             Turn question (py "Thanks. Which databases have you used?")].
Proof.
  apply (handle_answer_history_step demo_request (demo_world (py "started") 1000)
           (snd (handle_answer demo_request (demo_world (py "started") 1000)))
           (demo_session (py "started")) demo_transcript
           (py "Thanks. Which databases have you used?") (JStr (py "clear")));
    try no_newline; vm_compute; reflexivity.
Defined.

(** ** What the reply does not depend on *)

Lemma read_turn_session (req1 req2 : AnswerRequest) :
  session_id req1 = session_id req2 -> read_turn req1 = read_turn req2.
Proof. intros H. unfold read_turn. by rewrite H. Qed.

(** X14.  The interviewer is consulted before the submitted answer is
    looked at: two requests for the same session in the same world
    that both get a reply get the same kind of reply, and when the
    interview goes on the same next question and the same feedback,
    whatever the two answer texts are. *)
Theorem handle_answer_reply_ignores_answer (req1 req2 : AnswerRequest)
    (w w1 w2 : world) (r1 r2 : answer_reply) :
  session_id req1 = session_id req2 ->
  handle_answer req1 w = (Ok r1, w1) ->
  handle_answer req2 w = (Ok r2, w2) ->
  match r1, r2 with
  | Running q1 f1, Running q2 f2 => q1 = q2 /\ f1 = f2
  | Completed _, Completed _ => True
  | _, _ => False
  end.
Proof.
  intros Hid H1 H2. unfold handle_answer in H1, H2.
  apply http_errors_ok in H1, H2.
  step H1 as st1 wa Hr1. step H2 as st2 wb Hr2.
  rewrite (read_turn_session req1 req2 Hid) in Hr1.
  assert (st1 = st2 /\ wa = wb) as [-> ->] by (split; congruence).
  apply finish_turn_ok in H1 as (_ & _ & _ & _ & _ & _ & Hreply1).
  apply finish_turn_ok in H2 as (_ & _ & _ & _ & _ & _ & Hreply2).
  destruct (should_stop st2).
  - destruct Hreply1 as [s1 ->], Hreply2 as [s2 ->]. done.
  - by rewrite Hreply1, Hreply2.
Qed.

Lemma handle_answer_reply_ignores_answer_witness :
  match fst (handle_answer demo_request (demo_world (py "started") 1000)),
        fst (handle_answer {| session_id := py "s-1"; answer_text := py "No idea." |}
               (demo_world (py "started") 1000)) with
  | Ok (Running q1 f1), Ok (Running q2 f2) => q1 = q2 /\ f1 = f2
  | _, _ => False
  end.
Proof.
  run_ok F1 E1 (handle_answer demo_request (demo_world (py "started") 1000)).
  run_ok F2 E2 (handle_answer {| session_id := py "s-1"; answer_text := py "No idea." |}
                  (demo_world (py "started") 1000)).
  pose proof (handle_answer_reply_ignores_answer demo_request
                {| session_id := py "s-1"; answer_text := py "No idea." |}
                _ _ _ _ _ eq_refl E1 E2) as H.
  rewrite F1, F2. exact H.
Defined.

(** ** The store only grows *)

Lemma row_grows_refl (r : session_row) : row_grows r r.
Proof.
  repeat split; try done. destruct (full_transcript r) as [t|]; [|done].
  exists []. by rewrite app_nil_r.
Qed.

Lemma row_grows_trans (r1 r2 r3 : session_row) :
  row_grows r1 r2 -> row_grows r2 r3 -> row_grows r1 r3.
Proof.
  intros (Ht1 & Hs1 & Hp1 & Hc1) (Ht2 & Hs2 & Hp2 & Hc2).
  repeat split; [|congruence|congruence|auto].
  destruct (full_transcript r1) as [t|]; [|done]. destruct Ht1 as [e1 Ht1].
  rewrite Ht1 in Ht2. destruct Ht2 as [e2 Ht2]. exists (e1 ++ e2).
  by rewrite Ht2, app_assoc.
Qed.

Lemma grows_refl (w : world) : grows w w.
Proof.
  split; [|by repeat split; exists []; rewrite app_nil_r].
  intros sid. destruct (sessions w !! sid); [apply row_grows_refl|done].
Qed.

Lemma grows_trans (w1 w2 w3 : world) : grows w1 w2 -> grows w2 w3 -> grows w1 w3.
Proof.
  intros (Hs1 & [a1 Ha1] & [q1 Hq1] & [c1 Hc1]) (Hs2 & [a2 Ha2] & [q2 Hq2] & [c2 Hc2]).
  split; [|repeat split].
  - intros sid. specialize (Hs1 sid). specialize (Hs2 sid).
    destruct (sessions w1 !! sid), (sessions w2 !! sid), (sessions w3 !! sid); try done.
    by eapply row_grows_trans.
  - exists (a1 ++ a2). by rewrite Ha2, Ha1, app_assoc.
  - exists (q1 ++ q2). by rewrite Hq2, Hq1, app_assoc.
  - exists (c1 ++ c2). by rewrite Hc2, Hc1, app_assoc.
Qed.

Lemma same_store_grows (w w' : world) :
  same_store w w' -> (exists calls, llm_calls w' = llm_calls w ++ calls) -> grows w w'.
Proof.
  intros (Hs & Ha & Hq) Hc. split; [|repeat split; [exists []|exists []|done];
    by rewrite app_nil_r].
  intros sid. rewrite Hs. destruct (sessions w !! sid); [apply row_grows_refl|done].
Qed.

Section reads_only_facts.
Context {A B : Type}.

Lemma ro_ret (a : A) : reads_only (ret a).
Proof. intros w r w' [= <- <-]. split; [done|]. exists []. by rewrite app_nil_r. Qed.

Lemma ro_lift (x : result A) : reads_only (lift x).
Proof. intros w r w' [= <- <-]. split; [done|]. exists []. by rewrite app_nil_r. Qed.

Lemma ro_raise (e : exn) : reads_only (@raise A e).
Proof. intros w r w' [= <- <-]. split; [done|]. exists []. by rewrite app_nil_r. Qed.

Lemma ro_bind (m : M A) (k : A -> M B) :
  reads_only m -> (forall a, reads_only (k a)) -> reads_only (bind m k).
Proof.
  intros Hm Hk w r w'. unfold bind. destruct (m w) as [[a|e] w1] eqn:E.
  - intros H. destruct (Hm _ _ _ E) as (Hs1 & c1 & Hc1).
    destruct (Hk _ _ _ _ H) as (Hs2 & c2 & Hc2).
    split; [by eapply same_store_trans|]. exists (c1 ++ c2). by rewrite Hc2, Hc1, app_assoc.
  - intros [= <- <-]. by eapply Hm.
Qed.
End reads_only_facts.

Lemma ro_ainvoke req : reads_only (ainvoke req).
Proof.
  intros w r w' H. split; [by eapply ainvoke_store|]. revert H. unfold ainvoke.
  destruct (llm w _ _); intros [= _ <-]; by eexists.
Qed.

Lemma ro_now_ms : reads_only now_ms.
Proof. intros w r w' [= <- <-]. split; [done|]. exists []. by rewrite app_nil_r. Qed.

Lemma ro_evaluate_answer question answer : reads_only (evaluate_answer question answer).
Proof.
  unfold evaluate_answer. destruct (is_blank answer); [apply ro_ret|].
  apply ro_bind; [apply ro_ainvoke|]. intros response.
  apply ro_bind; [apply ro_lift|]. intros res. apply ro_lift.
Qed.

Lemma ro_generate_summary resume jd history start :
  reads_only (generate_summary resume jd history start).
Proof.
  unfold generate_summary. apply ro_bind; [apply ro_now_ms|]. intros t.
  apply ro_bind; [apply ro_ainvoke|]. intros response.
  apply ro_bind; [apply ro_lift|]. intros res.
  apply ro_bind; [apply ro_lift|]. intros x.
  apply ro_bind; [apply ro_lift|]. intros res'. apply ro_lift.
Qed.

Lemma ro_read_turn req : reads_only (read_turn req).
Proof.
  unfold read_turn. apply ro_bind.
  { intros w r w' [= <- <-]. split; [done|]. exists []. by rewrite app_nil_r. }
  intros [sess|]; [|apply ro_raise].
  apply ro_bind.
  { intros w r w' [= <- <-]. split; [done|]. exists []. by rewrite app_nil_r. }
  intros previous. apply ro_bind.
  { destruct (started_at sess); [apply ro_ret|apply ro_now_ms]. }
  intros start. apply ro_bind; [apply ro_now_ms|]. intros now. apply ro_bind.
  { intros w r w' [= <- <-]. split; [done|]. exists []. by rewrite app_nil_r. }
  intros maxd. apply ro_bind.
  { unfold run_interviewer. apply ro_bind; [apply ro_ainvoke|]. intros; apply ro_lift. }
  intros response. apply ro_bind; [apply ro_lift|]. intros q.
  apply ro_bind; [apply ro_lift|]. intros f.
  apply ro_bind; [apply ro_lift|]. intros stop. apply ro_ret.
Qed.

Lemma complete_session_grows sid summary w r w' :
  complete_session sid summary w = (r, w') -> grows w w'.
Proof.
  destruct r as [[]|e].
  - intros H. apply complete_session_write in H
      as (_ & Hc & _ & Ha & Hq & code & f & Hs & _ & Hf).
    split; [|repeat split; [exists []|exists []|exists []]; by rewrite app_nil_r].
    intros sid'. rewrite Hs. destruct (decide (sid' = sid)) as [->|Hne].
    + rewrite lookup_alter_eq. destruct (sessions w !! sid) as [row|]; [|done]. cbn.
      destruct (Hf row) as (Hst & Hsa & Hft & Htp & _). repeat split; try done.
      rewrite Hft. destruct (full_transcript row); [|done]. exists []. by rewrite app_nil_r.
    + rewrite lookup_alter_ne by done.
      destruct (sessions w !! sid'); [apply row_grows_refl|done].
  - intros ->%complete_session_failure. apply grows_refl.
Qed.

(** Running one computation after another: [I] holds before the first,
    [J] and [Q] after it when it returns. *)
Lemma bind_grows {A B} (m : M A) (k : A -> M B) (I J : world -> Prop) (Q : A -> Prop) :
  (forall w r w', I w -> m w = (r, w') ->
     grows w w' /\ forall a, r = Ok a -> J w' /\ Q a) ->
  (forall a w r w', Q a -> J w -> k a w = (r, w') -> grows w w') ->
  forall w r w', I w -> bind m k w = (r, w') -> grows w w'.
Proof.
  intros Hm Hk w r w' HI. unfold bind. destruct (m w) as [[a|e] w1] eqn:E.
  - intros H. destruct (Hm _ _ _ HI E) as (Hg & HQ). destruct (HQ a eq_refl) as [HJ Ha].
    eapply grows_trans; [exact Hg|]. eapply Hk; [exact Ha|exact HJ|exact H].
  - intros [= <- <-]. by destruct (Hm _ _ _ HI E).
Qed.

Lemma reads_only_step {A} (m : M A) (sid : str) (row : option session_row) w r w' :
  reads_only m -> sessions w !! sid = row -> m w = (r, w') ->
  grows w w' /\ forall a : A, r = Ok a -> sessions w' !! sid = row /\ True.
Proof.
  intros Hm HI H. destruct (Hm _ _ _ H) as (Hs & Hc).
  split; [by apply same_store_grows|]. intros _ _. split; [|done].
  destruct Hs as (-> & _). done.
Qed.

Lemma store_answer_grows sid q a ev qid w r w' :
  store_answer sid q a ev qid w = (r, w') -> grows w w' /\ sessions w' = sessions w.
Proof.
  unfold store_answer, bind, lift.
  destruct (get_scores dimensions ev) as [scores|e]; [|by intros [= <- <-]; split; [apply grows_refl|]].
  destruct (forallb is_number scores); [|by intros [= <- <-]; split; [apply grows_refl|]].
  intros [= <- <-]. split; [|done].
  split; [|repeat split; [by eexists|exists []|exists []]; by rewrite app_nil_r].
  intros sid'. world_simpl. destruct (sessions w !! sid'); [apply row_grows_refl|done].
Qed.

Lemma create_interview_question_grows text tpl w r w' :
  create_interview_question text tpl w = (r, w') -> grows w w' /\ sessions w' = sessions w.
Proof.
  unfold create_interview_question. intros [= <- <-]. split; [|done].
  split; [|repeat split; [exists []|by eexists|exists []]; by rewrite ?app_nil_r].
  intros sid'. world_simpl. destruct (sessions w !! sid'); [apply row_grows_refl|done].
Qed.

(** Writing a transcript that extends the stored one. *)
Lemma update_session_transcript_grows sid t extra w r w' :
  (forall sess, sessions w !! sid = Some sess -> full_transcript sess = Some t) ->
  update_session_transcript sid (t ++ extra) w = (r, w') -> grows w w'.
Proof.
  intros Hrow. unfold update_session_transcript. intros [= <- <-].
  split; [|repeat split; exists []; by rewrite app_nil_r].
  intros sid'. world_simpl. destruct (decide (sid' = sid)) as [->|Hne].
  - rewrite lookup_alter_eq. destruct (sessions w !! sid) as [sess|] eqn:E; [|done]. cbn.
    repeat split; try done. rewrite (Hrow sess eq_refl). by exists extra.
  - rewrite lookup_alter_ne by done.
    destruct (sessions w !! sid'); [apply row_grows_refl|done].
Qed.

Lemma finish_turn_grows req st (row : option session_row) w r w' :
  sessions w !! session_id req = row ->
  (forall sess, row = Some sess -> full_transcript sess = transcript st) ->
  finish_turn req st w = (r, w') -> grows w w'.
Proof.
  intros HI Hrow. unfold finish_turn.
  set (I := fun w0 : world => sessions w0 !! session_id req = row).
  change (I w) in HI. revert w r w' HI.
  apply (bind_grows _ _ I I (fun _ => True)).
  { intros wa ra wb Ha H. eapply reads_only_step; [apply ro_evaluate_answer|exact Ha|exact H]. }
  intros ev w r w' _ HI. revert w r w' HI.
  apply (bind_grows _ _ I I (fun _ => True)).
  { intros wa ra wb Ha H. apply store_answer_grows in H as [Hg Hs].
    split; [done|]. intros _ _. split; [|done]. unfold I. by rewrite Hs. }
  intros u w r w' _ HI. revert w r w' HI.
  apply (bind_grows _ _ I I (fun t => transcript st = Some t)).
  { intros wa ra wb Ha [= <- <-]. split; [apply grows_refl|].
    intros t Ht. split; [done|]. destruct (transcript st) as [t0|]; congruence. }
  intros t w r w' Ht HI. revert w r w' HI.
  apply (bind_grows _ _ I I (fun updated => exists extra, updated = t ++ extra)).
  { intros wa ra wb Ha H.
    destruct (truthy (ai_question st) && negb (should_stop st)).
    - unfold bind in H.
      destruct (create_interview_question (ai_question st)
                  (template_id (session_data st)) wa) as [[qid|e] wq] eqn:Hc.
      + apply create_interview_question_grows in Hc as [Hg Hs].
        injection H as <- <-. split; [done|]. intros a [= <-]. split.
        * unfold I. by rewrite Hs.
        * eexists. by rewrite <- !app_assoc.
      + by unfold create_interview_question in Hc.
    - injection H as <- <-. split; [apply grows_refl|].
      intros a [= <-]. split; [done|]. exists (CANDIDATE_TAG ++ answer_text req ++ [nl]).
      done. }
  intros updated w r w' [extra ->] HI. revert w r w' HI.
  apply (bind_grows _ _ I (fun _ => True) (fun _ => True)).
  { intros wa ra wb Ha H. split; [|done].
    eapply update_session_transcript_grows; [|exact H].
    intros sess Hs. unfold I in Ha. rewrite Ha in Hs. rewrite (Hrow sess Hs). done. }
  intros u2 w r w' _ _.
  destruct (should_stop st).
  - assert (HT : True) by done. revert w r w' HT.
    apply (bind_grows _ _ (fun _ => True) (fun _ => True) (fun _ => True)).
    { intros wa ra wb _ H. split; [|done]. apply ro_generate_summary in H as [Hs Hc].
      by apply same_store_grows. }
    intros summary wa ra wb _ HT. revert wa ra wb HT.
    apply (bind_grows _ _ (fun _ => True) (fun _ => True) (fun _ => True)).
    { intros wc rc wd _ H. split; [|done]. by eapply complete_session_grows. }
    intros u3 wc rc wd _ _ [= <- <-]. apply grows_refl.
  - intros [= <- <-]. apply grows_refl.
Qed.

Lemma http_errors_world {A} (m : M A) (w w' : world) (r : result A) :
  http_errors m w = (r, w') -> exists r0, m w = (r0, w').
Proof.
  unfold http_errors. destruct (m w) as [[a|e] w1]; [intros [= <- <-]; by eexists|].
  destruct e; intros [= <- <-]; by eexists.
Qed.

(** X15.  [handle_answer] only adds to the store, whatever the outcome,
    failures included: no session appears or disappears; the
    transcript of every session is the old one with text appended, its
    start and template are unchanged and a completed session stays
    completed; answers, questions and the log of collaborator calls
    are extended at the end. *)
Theorem handle_answer_only_grows (req : AnswerRequest) (w w' : world)
    (r : result answer_reply) :
  handle_answer req w = (r, w') -> grows w w'.
Proof.
  unfold handle_answer. intros [r0 H]%http_errors_world.
  unfold bind in H. destruct (read_turn req w) as [[st|e] w1] eqn:Hread.
  - apply ro_read_turn in Hread as Hro. destruct Hro as [Hst Hc].
    eapply grows_trans; [by apply same_store_grows|].
    apply read_turn_ok in Hread as ((Hs1 & _) & sess & _ & _ & Hs & _ & Htr & _).
    eapply (finish_turn_grows _ _ (Some sess)); [by rewrite Hs1| |exact H].
    by intros ? [= <-].
  - injection H as <- <-. apply ro_read_turn in Hread as [Hst Hc].
    by apply same_store_grows.
Qed.

Lemma handle_answer_only_grows_witness :
  grows (demo_world (py "started") 301000)
        (snd (handle_answer demo_request (demo_world (py "started") 301000))).
Proof.
  apply (handle_answer_only_grows demo_request (demo_world (py "started") 301000)
           (snd (handle_answer demo_request (demo_world (py "started") 301000)))
           (fst (handle_answer demo_request (demo_world (py "started") 301000)))).
  apply surjective_pairing.
Defined.

(** ** The question being answered and the history *)

Lemma startswith_app_l (s p q : str) :
  startswith s (p ++ q) = true -> startswith s p = true.
Proof.
  revert s. induction p as [|a p IH]; intros s; [done|].
  destruct s as [|b s]; cbn [app startswith]; [done|].
  intros [-> H]%andb_true_iff. by apply IH.
Qed.

Lemma first_ai_line_last (ls : list str) :
  (forall l, l ∈ ls -> startswith l (py "[AI]") = true -> startswith l AI_TAG = true) ->
  first_ai_line (rev ls)
  = default [] (content <$> last (filter (fun u => type u = question)
                                    (flat_map history_of_line ls))).
Proof.
  induction ls as [|l ls IH] using rev_ind; intros H; [done|].
  rewrite rev_app_distr. cbn [rev app first_ai_line].
  rewrite flat_map_app, filter_app. cbn [flat_map]. rewrite app_nil_r.
  destruct (startswith l (py "[AI]")) eqn:E.
  - unfold history_of_line. rewrite (H l) by (done || set_solver).
    rewrite filter_cons_True, filter_nil by done. by rewrite last_snoc.
  - assert (Htag : startswith l AI_TAG = false).
    { destruct (startswith l AI_TAG) eqn:E'; [|done].
      assert (Hsplit : AI_TAG = py "[AI]" ++ py " ") by (vm_compute; reflexivity).
      rewrite Hsplit in E'. apply startswith_app_l in E'. congruence. }
    unfold history_of_line. rewrite Htag.
    assert (Hnone : filter (fun u => type u = question)
                      (if startswith l CANDIDATE_TAG
                       then [Turn answer (replace CANDIDATE_TAG [] l)] else []) = []).
    { by destruct (startswith l CANDIDATE_TAG). }
    rewrite Hnone, app_nil_r. apply IH. intros l' Hl'. apply H. set_solver.
Qed.

(** X16.  The question an answer is evaluated against is the last
    question of the history: [handle_answer] finds it by a test on the
    tag without its space, and the two agree whenever every line that
    starts with the tag has the space after it. *)
Theorem last_question_is_last_asked (t : str) :
  (forall l, l ∈ lines_of t -> startswith l (py "[AI]") = true ->
             startswith l AI_TAG = true) ->
  last_question_of (Some t)
  = default [] (content <$> last (filter (fun u => type u = question)
                                    (_build_history_from_transcript (Some t)))).
Proof.
  unfold last_question_of, _build_history_from_transcript, lines_of.
  destruct t as [|c t]; [done|]. apply first_ai_line_last.
Qed.

Lemma last_question_is_last_asked_witness :
  last_question_of (Some demo_transcript)
  = default [] (content <$> last (filter (fun u => type u = question)
                                    (_build_history_from_transcript (Some demo_transcript)))).
Proof.
  apply (last_question_is_last_asked demo_transcript).
  intros l Hl%list_elem_of_In. vm_compute in Hl.
  destruct Hl as [<-|[<-|[<-|[<-|[]]]]]; vm_compute; auto.
Defined.

(** ** The collaborator calls of one answer *)

Section calls_facts.
Context {A B : Type}.

Lemma cam_silent (m : M A) :
  (forall w r w', m w = (r, w') -> llm_calls w' = llm_calls w) -> calls_at_most 0 m.
Proof. intros H w r w' E. exists []. rewrite app_nil_r. split; [by eapply H|done]. Qed.

Lemma cam_bind (n p q : nat) (m : M A) (k : A -> M B) :
  calls_at_most n m -> (forall a, calls_at_most p (k a)) -> (n + p <= q)%nat ->
  calls_at_most q (bind m k).
Proof.
  intros Hm Hk Hq w r w'. unfold bind. destruct (m w) as [[a|e] w1] eqn:E.
  - intros H. destruct (Hm _ _ _ E) as (c1 & Hc1 & Hl1).
    destruct (Hk _ _ _ _ H) as (c2 & Hc2 & Hl2).
    exists (c1 ++ c2). rewrite Hc2, Hc1, app_assoc, length_app. split; [done|lia].
  - intros [= <- <-]. destruct (Hm _ _ _ E) as (c1 & Hc1 & Hl1).
    exists c1. split; [done|lia].
Qed.
End calls_facts.

Lemma cam_ainvoke req : calls_at_most 1 (ainvoke req).
Proof.
  intros w r w'. unfold ainvoke. destruct (llm w _ _); intros [= _ <-]; by eexists.
Qed.

Lemma cam_evaluate_answer question answer :
  calls_at_most 1 (evaluate_answer question answer).
Proof.
  unfold evaluate_answer. destruct (is_blank answer).
  - intros w r w' [= _ <-]. exists []. rewrite app_nil_r. split; [done|cbn; lia].
  - apply (cam_bind 1 0); [apply cam_ainvoke| |done]. intros response.
    apply (cam_bind 0 0); [by apply cam_silent; intros w r w' [= _ <-]| |done].
    intros res. by apply cam_silent; intros w r w' [= _ <-].
Qed.

Lemma cam_generate_summary resume jd history start :
  calls_at_most 1 (generate_summary resume jd history start).
Proof.
  intros w r w' H. apply generate_summary_trace in H as (Hc & _). by eexists.
Qed.

Lemma cam_finish_turn req st : calls_at_most 2 (finish_turn req st).
Proof.
  unfold finish_turn.
  apply (cam_bind 1 1); [apply cam_evaluate_answer| |done]. intros ev.
  apply (cam_bind 0 1); [| |done].
  { apply cam_silent. intros w r w'. unfold store_answer, bind, lift.
    destruct (get_scores dimensions ev) as [scores|e]; [|by intros [= _ <-]].
    destruct (forallb is_number scores); by intros [= _ <-]. }
  intros u. apply (cam_bind 0 1); [by apply cam_silent; intros w r w' [= _ <-]| |done].
  intros t. apply (cam_bind 0 1); [| |done].
  { apply cam_silent. intros w r w'.
    destruct (truthy (ai_question st) && negb (should_stop st)); [|by intros [= _ <-]].
    unfold bind, create_interview_question. by intros [= _ <-]. }
  intros updated. apply (cam_bind 0 1); [| |done].
  { apply cam_silent. unfold update_session_transcript. by intros w r w' [= _ <-]. }
  intros u2. destruct (should_stop st).
  - apply (cam_bind 1 0); [apply cam_generate_summary| |done]. intros summary.
    apply (cam_bind 0 0); [| |done].
    + apply cam_silent. intros w r w' H. destruct r as [[]|e].
      * by apply complete_session_write in H as (_ & Hc & _).
      * by apply complete_session_failure in H as ->.
    + intros u3. by apply cam_silent; intros w r w' [= _ <-].
  - intros w r w' [= _ <-]. exists []. rewrite app_nil_r. split; [done|cbn; lia].
Qed.

(** What [read_turn] asks the interviewer, whatever comes of it. *)
Lemma read_turn_call req w r w1 sess :
  sessions w !! session_id req = Some sess ->
  read_turn req w = (r, w1) ->
  llm_calls w1 = llm_calls w ++ [interviewer_request_for (session_id req) sess w].
Proof.
  intros Hs H. unfold read_turn in H.
  rewrite (bind_run_ok _ _ w w (Some sess)) in H
    by (unfold get_session; by rewrite Hs).
  erewrite (bind_run_ok (get_answers_for_session (session_id req))) in H by reflexivity.
  destruct (start_time_run sess w) as (w0 & Hstart & Hc0 & Hk0 & (_ & Ha0 & _) & Hor0).
  erewrite bind_run_ok in H by exact Hstart.
  erewrite (bind_run_ok now_ms) in H by reflexivity.
  erewrite (bind_run_ok (fun w => (Ok (MAX_INTERVIEW_DURATION_MS w), w))) in H by reflexivity.
  destruct Hor0 as (Henv & Hllm & Htm & _).
  assert (Hmax : MAX_INTERVIEW_DURATION_MS (set_clock_reads S w0)
                 = MAX_INTERVIEW_DURATION_MS w).
  { unfold MAX_INTERVIEW_DURATION_MS. world_simpl. by rewrite Henv. }
  rewrite Hmax, Htm, Hk0 in H.
  unfold bind at 1, run_interviewer, bind at 1, ainvoke in H. world_simpl.
  rewrite Hllm, Hc0 in H. unfold interviewer_request_for, phase_of. cbv zeta.
  destruct (llm w _ _) as [response|];
    [|injection H as _ <-; world_simpl; by rewrite Hc0].
  unfold lift at 1 in H.
  destruct (_clean_json_response response) as [res|];
    [|injection H as _ <-; world_simpl; by rewrite Hc0].
  unfold bind, lift, ret in H.
  repeat (match type of H with
          | context [dict_get ?k ?d ?v] =>
              destruct (dict_get k d v);
              [|injection H as _ <-; world_simpl; by rewrite Hc0]
          end).
  injection H as _ <-. world_simpl. by rewrite Hc0.
Qed.

(** X17.  What one answer costs and what the interviewer is asked.
    For a stored session [handle_answer] always calls the interviewer
    first, whatever happens afterwards, with the context, the history
    and the conversation window read from the stored transcript, the
    phase "introduction" when no answer of the session is stored yet
    and "technical" otherwise, and the stop flag set exactly when the
    ceiling has passed; at most two more calls follow.  The submitted
    answer is no part of that first request. *)
Theorem handle_answer_calls (req : AnswerRequest) (w w' : world)
    (r : result answer_reply) (sess : session_row) :
  sessions w !! session_id req = Some sess ->
  handle_answer req w = (r, w') ->
  exists rest : list llm_request,
    llm_calls w' = llm_calls w ++ interviewer_request_for (session_id req) sess w :: rest
    /\ (length rest <= 2)%nat.
Proof.
  intros Hs. unfold handle_answer. intros [r0 H]%http_errors_world.
  unfold bind in H. destruct (read_turn req w) as [[st|e] w1] eqn:Hread.
  - apply (read_turn_call _ _ _ _ sess Hs) in Hread.
    apply cam_finish_turn in H as (rest & Hc & Hl). exists rest.
    rewrite Hc, Hread, <- app_assoc. done.
  - injection H as _ <-. apply (read_turn_call _ _ _ _ sess Hs) in Hread.
    exists []. split; [done|cbn; lia].
Qed.

Lemma handle_answer_calls_witness :
  exists rest : list llm_request,
    llm_calls (snd (handle_answer demo_request (demo_world (py "started") 301000)))
    = [] ++ interviewer_request_for (py "s-1") (demo_session (py "started"))
              (demo_world (py "started") 301000) :: rest
    /\ (length rest <= 2)%nat.
Proof.
  apply (handle_answer_calls demo_request (demo_world (py "started") 301000)
           (snd (handle_answer demo_request (demo_world (py "started") 301000)))
           (fst (handle_answer demo_request (demo_world (py "started") 301000)))).
  - vm_compute. reflexivity.
  - apply surjective_pairing.
Defined.

(** ** The resume at the start of an interview *)

Lemma is_blank_strip (s : str) : is_blank s = true <-> strip s = [].
Proof.
  unfold is_blank. destruct s as [|c s]; [done|]. by destruct (strip (c :: s)).
Qed.

(** X18.  Parsing the resume never fails [start_interview]: the step
    always returns, writes no row, makes no collaborator call for a
    blank resume and exactly one otherwise.  A blank resume gives the
    empty object (never the fallback of [parse_resume], which is not
    called then), a failing collaborator or an unparseable reply gives
    the fallback, and otherwise the result is the parsed reply; in the
    first two cases the candidate is named "Candidate". *)
Theorem start_resume_never_fails (resume_text : str) (w : world) :
  exists (resume_parsed : json) (w' : world),
    start_resume resume_text w = (Ok resume_parsed, w')
    /\ same_store w w'
    /\ llm_calls w'
       = llm_calls w ++ (if is_blank resume_text then [] else [parser_request resume_text])
    /\ (if is_blank resume_text then resume_parsed = JObj ∅
        else match llm w (length (llm_calls w)) (parser_request resume_text) with
             | None => resume_parsed = resume_fallback
             | Some response =>
                 match _clean_json_response response with
                 | Ok v => resume_parsed = v
                 | Raise _ => resume_parsed = resume_fallback
                 end
             end)
    /\ (resume_parsed = JObj ∅ \/ resume_parsed = resume_fallback ->
        candidate_name_of resume_parsed = Ok (JStr (py "Candidate"))).
Proof.
  assert (Hname : forall v, v = JObj ∅ \/ v = resume_fallback ->
            candidate_name_of v = Ok (JStr (py "Candidate"))).
  { intros v [->| ->]; vm_compute; reflexivity. }
  unfold start_resume. destruct (is_blank resume_text) eqn:B.
  - apply is_blank_strip in B as ->. exists (JObj ∅), w.
    rewrite app_nil_r. repeat split; first [done|apply Hname].
  - destruct (strip resume_text) as [|c s] eqn:E.
    { apply is_blank_strip in E. congruence. }
    unfold try_except, parse_resume, bind, ainvoke, lift, ret. rewrite B.
    destruct (llm w _ _) as [response|].
    + destruct (_clean_json_response response) as [v|e]; eexists _, _;
        repeat split; first [done|apply Hname].
    + eexists _, _. repeat split; first [done|apply Hname].
Qed.

(** ** The last answer and the scorecard *)

Lemma read_turn_locals req w st w1 sess :
  sessions w !! session_id req = Some sess ->
  read_turn req w = (Ok st, w1) ->
  resume_summary st = _extract_resume_context (full_transcript sess)
  /\ job_description st = _extract_job_description (full_transcript sess)
  /\ transcript st = full_transcript sess
  /\ start_time_ms st = default (time_ms w (clock_reads w)) (started_at sess).
Proof.
  intros Hs H. unfold read_turn in H. step H as found w0 Hfound.
  unfold get_session in Hfound. injection Hfound as <- <-. rewrite Hs in H.
  step H as previous wa Hprev. unfold get_answers_for_session in Hprev.
  injection Hprev as <- <-.
  step H as start wb Hstart. step H as now wc Hnow.
  step H as maxd wd Hmax. step H as response we Hai.
  step H as q wf Hq. step H as f wg Hf. step H as stop wh Hstop.
  apply ret_ok in H as [-> _]. cbn. repeat split.
  destruct (started_at sess) as [t|].
  - by apply ret_ok in Hstart as [-> _].
  - unfold now_ms in Hstart. by injection Hstart as <- _.
Qed.

(** The last call of a turn that ends the interview. *)
Lemma finish_turn_completed req st w w' summary :
  finish_turn req st w = (Ok (Completed summary), w') ->
  exists (t : str) (now : Z),
    transcript st = Some t
    /\ last (llm_calls w')
       = Some (summary_request (resume_summary st) (job_description st)
                 (_build_history_from_transcript
                    (Some (t ++ CANDIDATE_TAG ++ answer_text req ++ [nl])))
                 (start_time_ms st) now).
Proof.
  unfold finish_turn. intros H.
  step H as ev w1 Hev. step H as u1 w2 Hstore.
  step H as t w3 Ht. apply lift_ok in Ht as [Ht ->].
  destruct (transcript st) as [t0|] eqn:Htr; [|done]. injection Ht as ->.
  step H as updated w4 Hup. step H as u2 w5 Hupd.
  destruct (should_stop st).
  - step H as summary0 w6 Hsum. step H as u3 w7 Hdone. destruct u3.
    apply ret_ok in H as [[= ->] ->].
    apply generate_summary_trace in Hsum as (Hc & _).
    apply complete_session_write in Hdone as (_ & Hc' & _).
    exists t. eexists. split; [done|]. by rewrite Hc', Hc, last_snoc.
  - by apply ret_ok in H as [? _].
Qed.

(** X19.  The scorecard counts the last answer.  When [handle_answer]
    ends the interview, its last collaborator call is the scorecard
    request, with the context read from the stored transcript, the
    start instant of the session, and as history the old history
    followed by the answer just submitted; the stored transcript must
    be empty or end in a newline after a visible character, and the
    answer must hold no newline, not hold its tag and end in a visible
    character. *)
Theorem handle_answer_scores_last_answer (req : AnswerRequest) (w w' : world)
    (sess : session_row) (t : str) (summary : json) :
  sessions w !! session_id req = Some sess ->
  full_transcript sess = Some t ->
  well_ended t = true ->
  nl ∉ answer_text req ->
  contains CANDIDATE_TAG (answer_text req) = false ->
  ends_visible (answer_text req) = true ->
  handle_answer req w = (Ok (Completed summary), w') ->
  exists now : Z,
    last (llm_calls w')
    = Some (summary_request (_extract_resume_context (Some t))
              (_extract_job_description (Some t))
              (_build_history_from_transcript (Some t)
               ++ [Turn answer (answer_text req)])
              (default (time_ms w (clock_reads w)) (started_at sess)) now).
Proof.
  intros Hs Hft Hw Hn Hc Hv H. unfold handle_answer in H. apply http_errors_ok in H.
  step H as st w1 Hread.
  apply (read_turn_locals _ _ _ _ sess Hs) in Hread as (Hres & Hjd & Htr & Hstart).
  apply finish_turn_completed in H as (t0 & now & Ht0 & Hlast).
  assert (t0 = t) as -> by congruence.
  exists now. rewrite Hlast, Hres, Hjd, Hstart, Hft. do 2 f_equal.
  assert (E : t ++ CANDIDATE_TAG ++ answer_text req ++ [nl]
              = t ++ (CANDIDATE_TAG ++ answer_text req) ++ [nl])
    by (by rewrite <- !app_assoc).
  rewrite E. rewrite (history_append_line _ _ 91%N); try done.
  - f_equal. by apply (history_of_transcript_line (Turn answer (answer_text req))).
  - apply not_in_app; [no_newline|done].
  - by apply ends_visible_app.
Qed.

Lemma handle_answer_scores_last_answer_witness :
  exists now : Z,
    last (llm_calls (snd (handle_answer demo_request (demo_world (py "started") 301000))))
    = Some (summary_request (_extract_resume_context (Some demo_transcript))
              (_extract_job_description (Some demo_transcript))
              (_build_history_from_transcript (Some demo_transcript)
               ++ [Turn answer (py "I build APIs in Go.")])
              (default 301000%Z (Some 0%Z)) now).
Proof.
  run_completed F E (handle_answer demo_request (demo_world (py "started") 301000)).
  destruct (handle_answer_scores_last_answer demo_request
              (demo_world (py "started") 301000)
              (snd (handle_answer demo_request (demo_world (py "started") 301000)))
              (demo_session (py "started")) demo_transcript
              (summary_of (handle_answer demo_request (demo_world (py "started") 301000))))
    as [now Hnow];
    [vm_compute; reflexivity|reflexivity|vm_compute; reflexivity|no_newline
    |vm_compute; reflexivity|vm_compute; reflexivity|exact E|].
  exists now. exact Hnow.
Defined.
